(** * Miniworld: turn scheduler, event routing and streaming turn handling

    A shallow embedding of the Python prototype
    ([turn_manager.py], [core/event_dispatcher.py], [core/event_bus.py],
    [event_handler.py], [gui_utils.clean_event_text]) followed by the
    properties of the turn and visibility engine.

    Conventions of the embedding.
    - Python [int] is [Z].
    - Python [str] is [string], the text taken as its UTF-8 bytes.  White
      space ([strip], [split], the class [\s]) is the 29 characters of
      [str.isspace], known by their bytes; a slice [s[n:]] counts
      characters, not bytes; [re.IGNORECASE] knows the four characters
      outside ASCII that match an ASCII letter.  [lower] lowers the letters
      A to Z only, which is all that the tests made on a lowered text can
      see.
    - A Python [dict] is an association list in insertion order with one
      entry per key ([Dict.t]); iteration order, the stability of [sorted]
      and the first-minimum rule of [min] all depend on that order.
    - A method that mutates [self] takes the object and returns the new one;
      a method with a result returns a pair.
    - A callback is known by its identity; calling it is recorded, in order,
      in the list of calls a router returns.
    - [datetime.now()] is an input of [EventBus.publish], in microseconds;
      [hashlib.md5] is any function on strings.
    - The callbacks of the streaming client, and the callbacks queued with
      [root.after], are atomic steps on the state of the handler; what the
      handler asks of the command processor, of the streaming client and of
      the completion event is recorded as a list of effects.  Updates of
      the text widgets are left out. *)

From Stdlib Require Import ZArith List String Ascii Bool Lia Permutation Sorted.
Import ListNotations.

Open Scope string_scope.
Open Scope Z_scope.
Open Scope list_scope.

(* ================================================================== *)
(** * Ordered dictionaries *)
(* ================================================================== *)

Module Dict.

Section Ops.
Context {V : Type}.

Definition t := list (string * V).

(** [d.get(k)] *)
Fixpoint get (k : string) (d : t) : option V :=
  match d with
  | [] => None
  | (k', v) :: r => if String.eqb k k' then Some v else get k r
  end.

(** [d[k] = v]: an existing key keeps its position, a new one goes last. *)
Fixpoint set (k : string) (v : V) (d : t) : t :=
  match d with
  | [] => [(k, v)]
  | (k', v') :: r =>
      if String.eqb k k' then (k, v) :: r else (k', v') :: set k v r
  end.

(** [del d[k]] *)
Fixpoint del (k : string) (d : t) : t :=
  match d with
  | [] => []
  | (k', v') :: r => if String.eqb k k' then r else (k', v') :: del k r
  end.

Definition keys (d : t) : list string := map fst d.
Definition values (d : t) : list V := map snd d.

(** [k in d] *)
Definition mem (k : string) (d : t) : bool :=
  match get k d with Some _ => true | None => false end.

(** One entry per key, the invariant of a Python dict. *)
Fixpoint uniq (l : list string) : bool :=
  match l with
  | [] => true
  | k :: r => negb (existsb (String.eqb k) r) && uniq r
  end.

Definition wf (d : t) : bool := uniq (keys d).

(** [for k in d: d[k] = f(d[k])] *)
Definition map_values (f : V -> V) (d : t) : t :=
  map (fun kv => (fst kv, f (snd kv))) d.
End Ops.

Arguments t : clear implicits.

End Dict.

(* ================================================================== *)
(** * Python built-ins used by the scheduler *)
(* ================================================================== *)

(** [min(l)] on a list of integers.  Python raises on the empty list; every
    call site below is guarded by a non-emptiness test, the value [0] chosen
    here for [[]] is never observed. *)
Definition py_min (l : list Z) : Z :=
  match l with
  | [] => 0
  | x :: r => fold_left Z.min r x
  end.

Definition py_max (l : list Z) : Z :=
  match l with
  | [] => 0
  | x :: r => fold_left Z.max r x
  end.

(** [min(l, key=key)]: the first element whose key is minimal; [None] stands
    for the [ValueError] of the empty list. *)
Fixpoint min_by {A : Type} (key : A -> Z) (l : list A) : option A :=
  match l with
  | [] => None
  | x :: r =>
      match min_by key r with
      | None => Some x
      | Some y => if key x <=? key y then Some x else Some y
      end
  end.

(** Order on the pairs used as sort keys (tuple comparison). *)
Definition key_leb (a b : Z * Z) : bool :=
  (fst a <? fst b) || ((fst a =? fst b) && (snd a <=? snd b)).

(** [sorted(l, key=key)]: a stable sort, here by insertion from the right;
    an element is put in front of the first one whose key is not smaller. *)
Fixpoint insert_by {A : Type} (key : A -> Z * Z) (x : A) (l : list A) : list A :=
  match l with
  | [] => [x]
  | y :: r => if key_leb (key x) (key y) then x :: y :: r
              else y :: insert_by key x r
  end.

Definition sorted {A : Type} (key : A -> Z * Z) (l : list A) : list A :=
  fold_right (insert_by key) [] l.

(** [l.index(x)], with [-1] for the caught [ValueError]. *)
Fixpoint index_of (x : string) (l : list string) : Z :=
  match l with
  | [] => -1
  | y :: r => if String.eqb x y then 0
              else let i := index_of x r in if i <? 0 then -1 else i + 1
  end.

(** [x == name] where [name] may be [None]. *)
Definition is_name (name : option string) (x : string) : bool :=
  match name with Some p => String.eqb x p | None => false end.

(* ================================================================== *)
(** * turn_manager.py *)
(* ================================================================== *)

Module TurnManager.

Record t := mk {
  time_units : Dict.t Z;          (* {character_name: TU_count} *)
  turn_history : list string;     (* who went when *)
  last_turn_time : Dict.t Z;
  player_name : option string;
  god_mode : bool;
  turn_mode : string;             (* "time_units" or "memories" *)
  new_memories_count : Dict.t Z
}.

Definition init : t :=
  mk [] [] [] None false "time_units" [].

Definition with_time_units (d : Dict.t Z) (tm : t) : t :=
  mk d (turn_history tm) (last_turn_time tm) (player_name tm)
     (god_mode tm) (turn_mode tm) (new_memories_count tm).

Definition with_memories (d : Dict.t Z) (tm : t) : t :=
  mk (time_units tm) (turn_history tm) (last_turn_time tm) (player_name tm)
     (god_mode tm) (turn_mode tm) d.

(** [d[k]] for a key that the caller has taken from [d] itself, and
    [d.get(k, 0)]. *)
Definition item (k : string) (d : Dict.t Z) : Z :=
  match Dict.get k d with Some v => v | None => 0 end.

Definition set_turn_mode (mode : string) (tm : t) : bool * t :=
  if String.eqb mode "time_units" || String.eqb mode "memories" then
    (true, mk (time_units tm) (turn_history tm) (last_turn_time tm)
              (player_name tm) (god_mode tm) mode (new_memories_count tm))
  else (false, tm).

Definition register_character (name : string) (is_player : bool) (tm : t) : t :=
  if Dict.mem name (time_units tm) then tm
  else
    mk (Dict.set name (if is_player then 0 else 1) (time_units tm))
       (turn_history tm)
       (Dict.set name 0 (last_turn_time tm))
       (if is_player then Some name else player_name tm)
       (god_mode tm) (turn_mode tm)
       (Dict.set name 0 (new_memories_count tm)).

Definition set_god_mode (enabled : bool) (tm : t) : t :=
  mk (time_units tm) (turn_history tm) (last_turn_time tm) (player_name tm)
     enabled (turn_mode tm) (new_memories_count tm).

Definition remove_character (name : string) (tm : t) : t :=
  if Dict.mem name (time_units tm) then
    mk (Dict.del name (time_units tm)) (turn_history tm)
       (Dict.del name (last_turn_time tm)) (player_name tm)
       (god_mode tm) (turn_mode tm)
       (Dict.del name (new_memories_count tm))
  else tm.

Definition increment_memory_count (character : string) (count : Z) (tm : t) : t :=
  match Dict.get character (new_memories_count tm) with
  | Some c => with_memories (Dict.set character (c + count) (new_memories_count tm)) tm
  | None => tm
  end.

(** [self.god_mode and self.player_name in self.time_units] *)
Definition god_player (tm : t) : option string :=
  match player_name tm with
  | Some p => if god_mode tm && Dict.mem p (time_units tm) then Some p else None
  | None => None
  end.

Definition tu_key (tm : t) (c : string) : Z * Z :=
  (item c (time_units tm), item c (last_turn_time tm)).

Definition memories_key (tm : t) (c : string) : Z * Z :=
  (- item c (new_memories_count tm), item c (last_turn_time tm)).

Definition _get_turn_order_by (key : string -> Z * Z) (tm : t) : list string :=
  match god_player tm with
  | Some p =>
      let other_chars :=
        filter (fun c => negb (String.eqb c p)) (Dict.keys (time_units tm)) in
      p :: sorted key other_chars
  | None => sorted key (Dict.keys (time_units tm))
  end.

Definition _get_turn_order_by_tu (tm : t) : list string :=
  _get_turn_order_by (tu_key tm) tm.

Definition _get_turn_order_by_memories (tm : t) : list string :=
  _get_turn_order_by (memories_key tm) tm.

Definition get_turn_order (tm : t) : list string :=
  if String.eqb (turn_mode tm) "memories" then _get_turn_order_by_memories tm
  else _get_turn_order_by_tu tm.

(** The tail of both [_get_next_character_*]: a single candidate is returned
    as it is, a tie goes to the one who went longest ago. *)
Definition pick (tm : t) (candidates : list string) : option string :=
  match candidates with
  | [c] => Some c
  | _ => min_by (fun c => item c (last_turn_time tm)) candidates
  end.

Definition _get_next_character_by_tu (tm : t) : option string :=
  let min_tu := py_min (Dict.values (time_units tm)) in
  let candidates :=
    map fst (filter (fun kv => snd kv =? min_tu) (time_units tm)) in
  pick tm candidates.

Definition _get_next_character_by_memories (tm : t) : option string :=
  match god_player tm with
  | Some p => Some p
  | None =>
      let counts := Dict.values (new_memories_count tm) in
      let candidates :=
        if existsb (fun count => 0 <? count) counts then
          let max_memories := py_max counts in
          map fst (filter (fun kv => (snd kv =? max_memories) && (0 <? snd kv))
                          (new_memories_count tm))
        else Dict.keys (time_units tm) in
      pick tm candidates
  end.

Definition get_next_character (tm : t) : option string :=
  match time_units tm with
  | [] => None
  | _ =>
      if String.eqb (turn_mode tm) "memories"
      then _get_next_character_by_memories tm
      else _get_next_character_by_tu tm
  end.

Definition normalize_values (d : Dict.t Z) : Dict.t Z :=
  match d with
  | [] => d
  | _ =>
      let min_tu := py_min (Dict.values d) in
      if 0 <? min_tu then Dict.map_values (fun v => v - min_tu) d else d
  end.

Definition normalize_tu (tm : t) : t :=
  with_time_units (normalize_values (time_units tm)) tm.

(** The cost that [add_time_units] ends up adding for a character that is not
    the player in God mode: the body of the [else] branch up to the
    assignment. *)
Definition adjusted_cost (character : string) (tu_cost : Z) (tm : t) : Z :=
  let turn_order := get_turn_order tm in
  let current_index := index_of character turn_order in
  let first_of_many :=
    (1 <? Z.of_nat (List.length turn_order)) && (current_index =? 0) in
  if is_name (player_name tm) character then
    if first_of_many then
      let next_char := nth 1 turn_order EmptyString in
      let next_tu := item next_char (time_units tm) in
      let capped_cost := Z.max 1 (next_tu - item character (time_units tm) + 1) in
      Z.min tu_cost capped_cost
    else tu_cost
  else
    let pass_cost :=
      if first_of_many then
        let next_char := nth 1 turn_order EmptyString in
        let next_tu := item next_char (time_units tm) in
        next_tu - item character (time_units tm) + 1
      else 0 in
    Z.max tu_cost pass_cost.

Definition add_time_units (character : string) (tu_cost : Z) (tm : t) : t :=
  if negb (Dict.mem character (time_units tm)) then tm
  else
    let units :=
      if god_mode tm && is_name (player_name tm) character then time_units tm
      else
        Dict.set character
          (item character (time_units tm) + adjusted_cost character tu_cost tm)
          (time_units tm) in
    let history := turn_history tm ++ [character] in
    normalize_tu
      (mk units history
          (Dict.set character (Z.of_nat (List.length history)) (last_turn_time tm))
          (player_name tm) (god_mode tm) (turn_mode tm)
          (Dict.set character 0 (new_memories_count tm))).

Definition pass_turn (character : string) (tm : t) : bool * t :=
  if god_mode tm && is_name (player_name tm) character then (false, tm)
  else if Dict.mem character (time_units tm)
          && (1 <? Z.of_nat (List.length (time_units tm))) then
    let stamp (u : t) : t :=
      let history := turn_history u ++ [character] in
      let u' :=
        mk (time_units u) history
           (Dict.set character (Z.of_nat (List.length history)) (last_turn_time u))
           (player_name u) (god_mode u) (turn_mode u) (new_memories_count u) in
      if String.eqb (turn_mode u') "time_units" then normalize_tu u' else u' in
    if String.eqb (turn_mode tm) "memories" then
      (true, stamp (with_memories (Dict.set character 0 (new_memories_count tm)) tm))
    else
      let sorted_chars := get_turn_order tm in
      if negb (String.eqb (nth 0 sorted_chars EmptyString) character) then (false, tm)
      else
        let units :=
          if 1 <? Z.of_nat (List.length sorted_chars) then
            let next_char := nth 1 sorted_chars EmptyString in
            Dict.set character (item next_char (time_units tm) + 1) (time_units tm)
          else
            Dict.set character (item character (time_units tm) + 1) (time_units tm) in
        (true, stamp (with_time_units units tm))
  else (false, tm).

End TurnManager.


(* ================================================================== *)
(** * Python string operations *)
(* ================================================================== *)

Module PyStr.

Definition newline : ascii := "010"%char.
Definition dquote : ascii := "034"%char.
Definition pipe : ascii := "|"%char.
Definition colon : ascii := ":"%char.

Definition str1 (c : ascii) : string := String c EmptyString.

Definition is_empty (s : string) : bool :=
  match s with EmptyString => true | _ => false end.

(** The number of a byte. *)
Definition code (c : ascii) : nat := nat_of_ascii c.

(** A byte that continues a character of several bytes. *)
Definition is_continuation (c : ascii) : bool :=
  Nat.leb 128 (code c) && Nat.ltb (code c) 192.

(** ** White space

    [str.isspace], which [strip], [split] and the class [\s] of [re] go by,
    holds of 29 characters.  Ten take one byte: tab, line feed, vertical
    tab, form feed, carriage return, the separators 0x1c to 0x1f and the
    space.  Two take two bytes: U+0085 and U+00A0.  Seventeen take three:
    U+1680, U+2000 to U+200A, U+2028, U+2029, U+202F, U+205F and U+3000. *)
Definition space1 (c : ascii) : bool :=
  (Nat.leb 9 (code c) && Nat.leb (code c) 13)
  || (Nat.leb 28 (code c) && Nat.leb (code c) 32).

Definition space2 (c d : ascii) : bool :=
  Nat.eqb (code c) 194 && (Nat.eqb (code d) 133 || Nat.eqb (code d) 160).

Definition space3 (c d e : ascii) : bool :=
  (Nat.eqb (code c) 225 && Nat.eqb (code d) 154 && Nat.eqb (code e) 128)
  || (Nat.eqb (code c) 226 && Nat.eqb (code d) 128
      && ((Nat.leb 128 (code e) && Nat.leb (code e) 138)
          || Nat.eqb (code e) 168 || Nat.eqb (code e) 169
          || Nat.eqb (code e) 175))
  || (Nat.eqb (code c) 226 && Nat.eqb (code d) 129 && Nat.eqb (code e) 159)
  || (Nat.eqb (code c) 227 && Nat.eqb (code d) 128 && Nat.eqb (code e) 128).

(** The number of bytes of the white-space character [s] starts with, 0
    when it starts with none. *)
Definition space_width (s : string) : nat :=
  match s with
  | String c r =>
      if space1 c then 1%nat
      else
        match r with
        | String d r' =>
            if space2 c d then 2%nat
            else
              match r' with
              | String e _ => if space3 c d e then 3%nat else 0%nat
              | EmptyString => 0%nat
              end
        | EmptyString => 0%nat
        end
  | EmptyString => 0%nat
  end.

Definition lower_char (c : ascii) : ascii :=
  let n := nat_of_ascii c in
  if Nat.leb 65 n && Nat.leb n 90 then ascii_of_nat (n + 32) else c.

(** [s.lower()] as far as the tests of the sources can tell.  The letters
    A to Z are lowered and every other byte is kept.  [str.lower] changes
    other letters too, but what the sources do with a lowered text is look
    for ASCII words in it ([startswith], [in]), and the only characters
    outside ASCII that lower to ASCII letters are U+0130, which gives [i]
    followed by U+0307, and U+212A, which gives [k]: no word looked for has
    a [k], or an [i] that is not followed by a letter. *)
Fixpoint lower (s : string) : string :=
  match s with
  | EmptyString => EmptyString
  | String c r => String (lower_char c) (lower r)
  end.

(** [s.startswith(p)] *)
Definition startswith (p s : string) : bool := String.prefix p s.

(** The text after the first [n] bytes. *)
Fixpoint skip (n : nat) (s : string) : string :=
  match n, s with
  | O, _ => s
  | S k, EmptyString => EmptyString
  | S k, String _ r => skip k r
  end.

(** [s[n:]]: the text after the first [n] characters.  [inside] says that
    the bytes of a character being passed over may follow. *)
Fixpoint skip_chars_from (inside : bool) (n : nat) (s : string) : string :=
  match s with
  | EmptyString => EmptyString
  | String c r =>
      if inside && is_continuation c then skip_chars_from true n r
      else
        match n with
        | O => s
        | S k => skip_chars_from true k r
        end
  end.

Definition skip_chars (n : nat) (s : string) : string := skip_chars_from false n s.

(** [sub in s] *)
Fixpoint contains (sub s : string) : bool :=
  String.prefix sub s ||
  match s with
  | EmptyString => false
  | String _ r => contains sub r
  end.

(** The text before and after the first occurrence of [sub] in [s]. *)
Fixpoint partition (sub s : string) : option (string * string) :=
  if String.prefix sub s then Some (EmptyString, skip (String.length sub) s)
  else
    match s with
    | EmptyString => None
    | String c r =>
        match partition sub r with
        | Some (a, b) => Some (String c a, b)
        | None => None
        end
    end.

(** [s.lstrip()] *)
Fixpoint lstrip (s : string) : string :=
  match s with
  | String c r =>
      if space1 c then lstrip r
      else
        match r with
        | String d r' =>
            if space2 c d then lstrip r'
            else
              match r' with
              | String e r'' => if space3 c d e then lstrip r'' else s
              | EmptyString => s
              end
        | EmptyString => s
        end
  | EmptyString => EmptyString
  end.

(** Nothing but white space. *)
Definition blank (s : string) : bool := is_empty (lstrip s).

(** [s.rstrip()] *)
Fixpoint rstrip (s : string) : string :=
  match s with
  | EmptyString => EmptyString
  | String c r => if blank s then EmptyString else String c (rstrip r)
  end.

(** [s.strip()] *)
Definition strip (s : string) : string := rstrip (lstrip s).

(** [s.split(sep)] for a separator of one character. *)
Fixpoint split (sep : ascii) (s : string) : list string :=
  match s with
  | EmptyString => [EmptyString]
  | String c r =>
      if Ascii.eqb c sep then EmptyString :: split sep r
      else
        match split sep r with
        | h :: t => String c h :: t
        | [] => [str1 c]
        end
  end.

(** [s.split(sep, 1)]: the text before the first [sep] and, when there is
    one, the text after it. *)
Fixpoint split_once (sep : ascii) (s : string) : string * option string :=
  match s with
  | EmptyString => (EmptyString, None)
  | String c r =>
      if Ascii.eqb c sep then (EmptyString, Some r)
      else let (a, b) := split_once sep r in (String c a, b)
  end.

(** [s.endswith(c)] for one character. *)
Fixpoint endswith_char (c : ascii) (s : string) : bool :=
  match s with
  | EmptyString => false
  | String x EmptyString => Ascii.eqb x c
  | String _ r => endswith_char c r
  end.

(** [l[:-1]] *)
Definition but_last {A : Type} (l : list A) : list A := removelast l.

(** [s.replace(old, new)], occurrences taken from the left without overlap.
    [pending] counts the characters of a match still to be passed over. *)
Fixpoint replace_from (old new : string) (pending : nat) (s : string) : string :=
  match s with
  | EmptyString => EmptyString
  | String c r =>
      match pending with
      | S k => replace_from old new k r
      | O =>
          if String.prefix old s
          then (new ++ replace_from old new (String.length old - 1) r)%string
          else String c (replace_from old new 0 r)
      end
  end.

(** With nothing to look for, [new] goes in front of every character and
    at the end. *)
Fixpoint intersperse (new s : string) : string :=
  match s with
  | EmptyString => new
  | String c r =>
      if is_continuation c then String c (intersperse new r)
      else (new ++ String c (intersperse new r))%string
  end.

Definition replace (old new s : string) : string :=
  if is_empty old then intersperse new s else replace_from old new 0 s.

(** The longest prefix of characters satisfying [p] and what follows it. *)
Fixpoint span (p : ascii -> bool) (s : string) : string * string :=
  match s with
  | EmptyString => (EmptyString, EmptyString)
  | String c r =>
      if p c then let (a, b) := span p r in (String c a, b)
      else (EmptyString, s)
  end.

(** ** The regular expressions of the sources

    Each pattern is anchored at the start and built from runs of a character
    class followed by a character outside the class, so the leftmost match of
    the backtracking matcher is found by reading the runs greedily. *)

(** [\s+] at the head of [s]: what follows the run, when it is not empty. *)
Definition spaces1 (s : string) : option string :=
  if Nat.eqb (space_width s) 0 then None else Some (lstrip s).

(** One letter of a pattern under [re.IGNORECASE]: the number of bytes of
    the character at the head of [s] when it is the letter [p] in either
    case, 0 otherwise.  Besides the two ASCII letters, the long s (U+017F)
    is an [s], the dotted capital I (U+0130) and the dotless i (U+0131) are
    an [i], and the Kelvin sign (U+212A) is a [k]. *)
Definition of_codes (l : list nat) : string :=
  fold_right (fun n s => String (ascii_of_nat n) s) EmptyString l.

Definition long_s : string := of_codes [197; 191]%nat.
Definition dotted_I : string := of_codes [196; 176]%nat.
Definition dotless_i : string := of_codes [196; 177]%nat.
Definition kelvin_sign : string := of_codes [226; 132; 170]%nat.

Definition letter_width (p : ascii) (s : string) : nat :=
  match s with
  | EmptyString => 0%nat
  | String c r =>
      if Ascii.eqb (lower_char c) (lower_char p) then 1%nat
      else if Ascii.eqb (lower_char p) "s" && String.prefix long_s s then 2%nat
      else if Ascii.eqb (lower_char p) "i"
              && (String.prefix dotted_I s || String.prefix dotless_i s)
           then 2%nat
      else if Ascii.eqb (lower_char p) "k" && String.prefix kelvin_sign s
           then 3%nat
      else 0%nat
  end.

(** A literal word of letters, compared without case ([re.IGNORECASE]): the
    text after it. *)
Fixpoint word_ci (w s : string) : option string :=
  match w with
  | EmptyString => Some s
  | String p w' =>
      match letter_width p s with
      | O => None
      | n => word_ci w' (skip n s)
      end
  end.

(** [re.sub(r'^\[[^\]]+\](\s+in\s+[^:]+):\s+', '', s)] *)
Definition strip_event_prefix (s : string) : string :=
  match s with
  | String "[" r0 =>
      let (x, r1) := span (fun c => negb (Ascii.eqb c "]")) r0 in
      match r1 with
      | String "]" r2 =>
          if is_empty x then s else
          match spaces1 r2 with
          | Some r3 =>
              if String.prefix "in" r3 then
                let (z, r4) := span (fun c => negb (Ascii.eqb c colon)) (skip 2 r3) in
                (* [\s+[^:]+]: white space and one more character at least *)
                if Nat.eqb (space_width z) 0 || is_empty (skip (space_width z) z)
                then s
                else
                  match r4 with
                  | String _ r5 =>
                      match spaces1 r5 with
                      | Some rest => rest
                      | None => s
                      end
                  | EmptyString => s
                  end
              else s
          | None => s
          end
      | _ => s
      end
  | _ => s
  end.

(** [m = re.match(r'^\s*W1\s+', line, re.IGNORECASE)] and, for GO TO,
    [r'^\s*GO\s+TO\s+']: the text after the match, [line[m.end():]]. *)
Definition match_verb (words : list string) (line : string) : option string :=
  let fix go (ws : list string) (s : string) : option string :=
    match ws with
    | [] => Some s
    | w :: ws' =>
        match word_ci w s with
        | Some r => match spaces1 r with Some r' => go ws' r' | None => None end
        | None => None
        end
    end in
  go words (lstrip line).

(** [re.search(r'<think>(.*?)</think>', s, re.DOTALL)]: group 1. *)
Definition search_think (s : string) : option string :=
  match partition "<think>" s with
  | Some (_, r) =>
      match partition "</think>" r with
      | Some (inner, _) => Some inner
      | None => None
      end
  | None => None
  end.

(** [re.sub(r'<think>.*?</think>', '', s, flags=re.DOTALL)] *)
Fixpoint remove_think_from (pending : nat) (s : string) : string :=
  match s with
  | EmptyString => EmptyString
  | String c r =>
      match pending with
      | S k => remove_think_from k r
      | O =>
          if String.prefix "<think>" s then
            match partition "</think>" (skip 7 s) with
            | Some (inner, _) => remove_think_from (14 + String.length inner) r
            | None => String c (remove_think_from 0 r)
            end
          else String c (remove_think_from 0 r)
      end
  end.

Definition remove_think (s : string) : string := remove_think_from 0 s.

(** [sep.join(l)] *)
Fixpoint join (sep : string) (l : list string) : string :=
  match l with
  | [] => EmptyString
  | [x] => x
  | x :: r => (x ++ sep ++ join sep r)%string
  end.

End PyStr.

(* ================================================================== *)
(** * Events, callbacks and gui_utils.clean_event_text *)
(* ================================================================== *)

Module Event.

(** The event dictionary, one optional field per key the routers read. *)
Record data := mk_data {
  actor : option string;
  location : option string;
  message : option string;
  description : option string;
  origin : option string;
  destination : option string;
  observer_locations : Dict.t string;   (* absent key: the empty dict *)
  action : option string;
  via : option string;
  origin_description : option string;
  destination_description : option string
}.

(** [d.get(key, default)] *)
Definition or_default (field : option string) (default : string) : string :=
  match field with Some x => x | None => default end.

Definition opt_eqb (a b : option string) : bool :=
  match a, b with
  | Some x, Some y => String.eqb x y
  | None, None => true
  | _, _ => false
  end.

(** A callback is known by its identity only. *)
Definition callback := nat.

(** One invocation [callback(event_type, text, data_for_observer)]; the
    dictionary handed over is a copy of the event with the observer added. *)
Record call := mk_call {
  call_cb : callback;
  call_type : string;
  call_text : string;
  call_observer : string
}.

Definition warning_sign : string := "⚠".

(** gui_utils.clean_event_text *)
Definition clean_event_text (text : string) (actor observer : option string) : string :=
  let clean_text := PyStr.strip_event_prefix text in
  let clean_text :=
    match actor with
    | Some a =>
        let twice := (a ++ " " ++ a)%string in
        if negb (PyStr.is_empty a) && PyStr.startswith twice clean_text
        then PyStr.replace twice a clean_text else clean_text
    | None => clean_text
    end in
  let clean_text :=
    match observer with
    | Some o =>
        if negb (PyStr.is_empty o) && opt_eqb observer actor then
          let t1 := if PyStr.contains "Someone LOOK" clean_text
                    then PyStr.replace "Someone LOOK" "You LOOK" clean_text
                    else clean_text in
          if PyStr.contains "Someone see" t1
          then PyStr.replace "Someone see" "You see" t1 else t1
        else clean_text
    | None => clean_text
    end in
  match actor with
  | Some a =>
      if negb (PyStr.is_empty a) && PyStr.contains "Someone says:" clean_text
      then PyStr.replace "Someone says:" (a ++ " says:")%string clean_text
      else clean_text
  | None => clean_text
  end.

End Event.

(* ================================================================== *)
(** * core/event_dispatcher.py *)
(* ================================================================== *)

Module EventDispatcher.
Import Event.

Record t := mk {
  observers : Dict.t callback;     (* observers by name *)
  recent_events : Dict.t Z         (* declared by the class, never used *)
}.

Definition init : t := mk [] [].

Definition register (character_name : string) (cb : callback) (d : t) : t :=
  mk (Dict.set character_name cb (observers d)) (recent_events d).

Definition unregister (character_name : string) (d : t) : t :=
  if Dict.mem character_name (observers d)
  then mk (Dict.del character_name (observers d)) (recent_events d)
  else d.

Definition is_error (ev : data) : bool :=
  let description := or_default (description ev) EmptyString in
  PyStr.contains warning_sign description || PyStr.contains "Failed:" description.

(** The list [observers_to_notify] built by [dispatch_event]. *)
Definition observers_to_notify (event_type : string) (ev : data) (d : t)
  : list string :=
  let actor := or_default (actor ev) "unknown" in
  let location := or_default (location ev) "unknown" in
  if is_error ev then
    if Dict.mem actor (observers d) then [actor] else []
  else if String.eqb event_type "shout" then Dict.keys (observers d)
  else if String.eqb event_type "movement" then
    filter (fun character =>
              let char_location := Dict.get character (observer_locations ev) in
              opt_eqb char_location (origin ev)
              || opt_eqb char_location (destination ev))
           (Dict.keys (observers d))
  else
    filter (fun character =>
              opt_eqb (Dict.get character (observer_locations ev)) (Some location))
           (Dict.keys (observers d)).

Definition quoted (s : string) : string :=
  (PyStr.str1 PyStr.dquote ++ s ++ PyStr.str1 PyStr.dquote)%string.

Definition _format_for_observer (event_type : string) (ev : data) (observer : string)
  : string :=
  let actor := or_default (actor ev) "unknown" in
  let message := or_default (message ev) EmptyString in
  let is_actor := String.eqb observer actor in
  let by_description :=
    let description := or_default (description ev) EmptyString in
    if PyStr.contains "You say:" description && negb is_actor
    then EmptyString else description in
  if PyStr.contains warning_sign message && negb is_actor then EmptyString
  else if PyStr.contains "You say:" message && negb is_actor then EmptyString
  else if String.eqb event_type "speech" then
    if is_actor then EmptyString
    else (actor ++ " says: " ++ quoted message)%string
  else if String.eqb event_type "shout" then
    if is_actor then EmptyString
    else
      let location := or_default (location ev) "somewhere" in
      (actor ++ " shouts from " ++ location ++ ": " ++ quoted message)%string
  else if String.eqb event_type "emote" then
    if is_actor then EmptyString
    else (actor ++ " " ++ or_default (action ev) EmptyString)%string
  else if String.eqb event_type "movement" then
    let origin := or_default (origin ev) "somewhere" in
    let destination := or_default (destination ev) "somewhere" in
    let via := or_default (via ev) "moved" in
    let observer_location := Dict.get observer (observer_locations ev) in
    if is_actor then EmptyString
    else if opt_eqb observer_location (Some origin)
    then (actor ++ " " ++ via ++ " to " ++ destination ++ ".")%string
    else if opt_eqb observer_location (Some destination)
    then (actor ++ " " ++ via ++ " from " ++ origin ++ ".")%string
    else by_description
  else if String.eqb event_type "observation" then
    if is_actor then EmptyString
    else (actor ++ " " ++ or_default (action ev) EmptyString)%string
  else if String.eqb event_type "command" then
    if negb is_actor then EmptyString
    else or_default (description ev) EmptyString
  else by_description.

(** The body of the loop over [observers_to_notify]: the call made for one
    observer, if any. *)
Definition notify_one (event_type : string) (ev : data) (d : t) (observer : string)
  : list call :=
  let actor := or_default (actor ev) "unknown" in
  if String.eqb observer actor
     && (String.eqb event_type "speech" || String.eqb event_type "shout"
         || String.eqb event_type "emote")
  then []
  else
    let observer_message := _format_for_observer event_type ev observer in
    if PyStr.is_empty observer_message then []
    else
      match Dict.get observer (observers d) with
      | Some cb => [mk_call cb event_type observer_message observer]
      | None => []
      end.

(** [dispatch_event]: the calls made, in order. *)
Definition dispatch_event (event_type : string) (ev : data) (d : t) : list call :=
  flat_map (notify_one event_type ev d) (observers_to_notify event_type ev d).

End EventDispatcher.

(* ================================================================== *)
(** * core/event_bus.py *)
(* ================================================================== *)

Module EventBus.
Import Event.

(** Readings of [datetime.now()] are integers, the microseconds of the local
    clock; one call of [publish] reads the clock once. *)
Definition second : Z := 1000000.

Definition digit (n : Z) : ascii := ascii_of_nat (48 + Z.to_nat n).

Definition two_digits (n : Z) : string :=
  String (digit (n / 10)) (String (digit (n mod 10)) EmptyString).

(** [now.strftime("%H:%M:%S")] *)
Definition strftime_hms (now : Z) : string :=
  let s := (now / second) mod 86400 in
  (two_digits (s / 3600) ++ ":" ++ two_digits ((s / 60) mod 60) ++ ":"
     ++ two_digits (s mod 60))%string.

Record t := mk {
  observers : Dict.t (list callback);                 (* {name: [callbacks]} *)
  recent_events : Dict.t Z;                           (* {fingerprint: timestamp} *)
  observer_recent_events : Dict.t (list (string * Z)); (* {observer: [(fp, ts)]} *)
  event_expiry : Z                                    (* seconds *)
}.

Definition init : t := mk [] [] [] 3.

(** [defaultdict(list)]: a missing key reads as the empty list. *)
Definition entries {A : Type} (k : string) (d : Dict.t (list A)) : list A :=
  match Dict.get k d with Some l => l | None => [] end.

Definition has_callback (cb : callback) (l : list callback) : bool :=
  existsb (Nat.eqb cb) l.

Definition register (character_name : string) (cb : callback) (bus : t) : t :=
  let current := entries character_name (observers bus) in
  if has_callback cb current
  then bus
  else mk (Dict.set character_name (current ++ [cb]) (observers bus))
          (recent_events bus) (observer_recent_events bus) (event_expiry bus).

(** [list.remove(x)]: the first occurrence goes. *)
Fixpoint remove_first (cb : callback) (l : list callback) : list callback :=
  match l with
  | [] => []
  | x :: r => if Nat.eqb cb x then r else x :: remove_first cb r
  end.

Definition unregister (character_name : string) (cb : option callback) (bus : t) : t :=
  match cb with
  | None =>
      if Dict.mem character_name (observers bus)
      then mk (Dict.del character_name (observers bus))
              (recent_events bus) (observer_recent_events bus) (event_expiry bus)
      else bus
  | Some c =>
      if Dict.mem character_name (observers bus)
         && has_callback c (entries character_name (observers bus))
      then mk (Dict.set character_name
                 (remove_first c (entries character_name (observers bus)))
                 (observers bus))
              (recent_events bus) (observer_recent_events bus) (event_expiry bus)
      else bus
  end.

(** [(now - ts).total_seconds() < self.event_expiry] *)
Definition fresh (bus : t) (now ts : Z) : bool :=
  now - ts <? event_expiry bus * second.

Definition is_recent_duplicate (fingerprint : string) (now : Z) (bus : t) : bool :=
  match Dict.get fingerprint (recent_events bus) with
  | Some ts => fresh bus now ts
  | None => false
  end.

Definition observer_has_seen_event (observer fingerprint : string) (now : Z) (bus : t)
  : bool * t :=
  let kept :=
    filter (fun e => fresh bus now (snd e))
           (entries observer (observer_recent_events bus)) in
  (existsb (fun e => String.eqb (fst e) fingerprint) kept,
   mk (observers bus) (recent_events bus)
      (Dict.set observer kept (observer_recent_events bus)) (event_expiry bus)).

Definition record_observer_event (observer fingerprint : string) (now : Z) (bus : t)
  : t :=
  mk (observers bus) (recent_events bus)
     (Dict.set observer
        (entries observer (observer_recent_events bus) ++ [(fingerprint, now)])
        (observer_recent_events bus))
     (event_expiry bus).

Definition cleanup_old_events (now : Z) (bus : t) : t :=
  mk (observers bus)
     (filter (fun kv => fresh bus now (snd kv)) (recent_events bus))
     (observer_recent_events bus) (event_expiry bus).

Definition format_for_observer (observer description : string) (ev : data) : string :=
  let actor := or_default (actor ev) "unknown" in
  if String.eqb observer actor then
    let description := PyStr.replace (actor ++ " ")%string "You " description in
    let description := PyStr.replace " says:" " say:" description in
    let description := PyStr.replace " says" " say" description in
    let description := PyStr.replace " goes " " go " description in
    let description := PyStr.replace " looks " " look " description in
    PyStr.replace " examines " " examine " description
  else description.

(** Truth value of an optional string: neither [None] nor empty. *)
Definition truthy (o : option string) : bool :=
  match o with Some s => negb (PyStr.is_empty s) | None => false end.

Section Hash.

(** [hashlib.md5(s.encode()).hexdigest()] *)
Variable md5_hexdigest : string -> string.

Definition create_fingerprint (event_type description : string) (ev : data) (now : Z)
  : string :=
  let clean_description := PyStr.strip_event_prefix description in
  let actor := or_default (actor ev) "unknown" in
  let location := or_default (location ev) "unknown" in
  let timestamp := strftime_hms now in
  md5_hexdigest
    (event_type ++ ":" ++ actor ++ ":" ++ clean_description ++ ":" ++ location
       ++ ":" ++ timestamp)%string.

(** The description after the clean-up at the head of [publish]. *)
Definition publish_description (event_type description : string) : string :=
  if PyStr.startswith ("[" ++ event_type ++ "]")%string description
     || (PyStr.contains "[" description && PyStr.contains "in" description
         && PyStr.contains ":" description)
  then PyStr.strip_event_prefix description
  else description.

(** The caller's dictionary after [publish]: a movement gets its two
    descriptions stored in it. *)
Definition publish_data (event_type : string) (ev : data) : data :=
  if String.eqb event_type "movement" then
    let actor := or_default (actor ev) "Someone" in
    let via := or_default (via ev) "moved" in
    let origin_desc :=
      (actor ++ " " ++ via ++ " to " ++ or_default (destination ev) "None"
         ++ ".")%string in
    let dest_desc :=
      (actor ++ " " ++ via ++ " from " ++ or_default (origin ev) "None"
         ++ ".")%string in
    mk_data (Event.actor ev) (location ev) (message ev) (Event.description ev)
            (origin ev) (destination ev) (observer_locations ev) (action ev)
            (Event.via ev) (Some origin_desc) (Some dest_desc)
  else ev.

(** The list [observers_to_notify] built by [publish]. *)
Definition observers_to_notify (event_type : string) (ev : data) (bus : t)
  : list string :=
  if String.eqb event_type "shout" then Dict.keys (observers bus)
  else if String.eqb event_type "movement" then
    if truthy (origin ev) && truthy (destination ev) then
      filter (fun observer =>
                let observer_location := Dict.get observer (observer_locations ev) in
                opt_eqb observer_location (origin ev)
                || opt_eqb observer_location (destination ev))
             (Dict.keys (observers bus))
    else []
  else
    filter (fun observer =>
              opt_eqb (Dict.get observer (observer_locations ev)) (location ev))
           (Dict.keys (observers bus)).

(** The text handed to one observer. *)
Definition formatted_description (event_type description : string) (ev : data)
           (observer : string) : string :=
  if String.eqb event_type "movement" then
    if opt_eqb (Dict.get observer (observer_locations ev)) (origin ev)
    then or_default (origin_description ev) description
    else or_default (destination_description ev) description
  else format_for_observer observer description ev.

(** The body of the notification loop for one observer. *)
Definition notify_one (event_type description fingerprint : string) (ev : data)
           (now : Z) (acc : t * list call) (observer : string) : t * list call :=
  let (bus, calls) := acc in
  let (seen, bus) := observer_has_seen_event observer fingerprint now bus in
  if seen then (bus, calls)
  else
    let bus := record_observer_event observer fingerprint now bus in
    let text := formatted_description event_type description ev observer in
    (bus,
     calls ++ map (fun cb => mk_call cb event_type text observer)
                  (entries observer (observers bus))).

(** [publish(event_type, description, data)] at clock reading [now]: the bus
    afterwards and the calls made, in order. *)
Definition publish (event_type description : string) (ev : data) (now : Z) (bus : t)
  : t * list call :=
  let description := publish_description event_type description in
  let ev := publish_data event_type ev in
  let fingerprint := create_fingerprint event_type description ev now in
  if is_recent_duplicate fingerprint now bus then (bus, [])
  else
    let bus :=
      mk (observers bus) (Dict.set fingerprint now (recent_events bus))
         (observer_recent_events bus) (event_expiry bus) in
    let bus := cleanup_old_events now bus in
    fold_left (notify_one event_type description fingerprint ev now)
              (observers_to_notify event_type ev bus) (bus, []).

End Hash.

End EventBus.

(* ================================================================== *)
(** * event_handler.py *)
(* ================================================================== *)

Module EventHandler.

(** What the handler asks of its collaborators. *)
Inductive effect :=
| Commit (command : string)   (* command_processor.process_minimind_action *)
| Signal                      (* turn_completed.set() *)
| CancelStreaming.            (* llm.cancel_streaming() *)

(** Callbacks queued on the Tk loop with [root.after]. *)
Inductive task :=
| ProcessCommandSafely (command llm_response : string)
| SafeProcessFullResponse (action llm_response : string)
| SetStopStreaming.

Record t := mk {
  complete_response : string;
  post_thinking_buffer : string;
  thinking_complete : bool;
  command_detected : bool;
  detected_command : option string;
  has_early_stopped : bool;
  (* the parts of the GUI and of the active minimind the handler writes *)
  turn_in_progress : bool;
  stop_streaming : bool;
  turn_completed : bool;
  active_minimind : string;
  last_command_reason : option string;
  thought_chain : option string;
  pending : list task;
  effects : list effect
}.

(** [execute_minimind_turn], once its guards have passed. *)
Definition start (next_character : string) : t :=
  mk EmptyString EmptyString false false None false
     true false false next_character None None [] [].

Definition verbs : list string := ["go to"; "say"; "note"; "recall"; "shout"].

(** [any(cmd_lower.startswith(prefix) for prefix in [...])] *)
Definition starts_with_verb (cmd_lower : string) : bool :=
  existsb (fun prefix => PyStr.startswith prefix cmd_lower) verbs.

(** [line.startswith(marks) or "command" in line.lower()] *)
Definition looks_like_formatting (marks : list ascii) (line : string) : bool :=
  match line with
  | String c _ => existsb (Ascii.eqb c) marks
  | EmptyString => false
  end
  || PyStr.contains "command" (PyStr.lower line).

Definition marks5 : list ascii :=
  ["*"%char; "#"%char; "-"%char; ">"%char; PyStr.dquote].
Definition marks4 : list ascii :=
  ["*"%char; "#"%char; "-"%char; ">"%char].

(** [parts = line.split('|', 1)]: the command and the reason to store. *)
Definition split_reason (line : string) : string * option string :=
  let (before, after) := PyStr.split_once PyStr.pipe line in
  (PyStr.strip before,
   match after with
   | Some r => let reason := PyStr.strip r in
               if PyStr.is_empty reason then None else Some reason
   | None => None
   end).

Definition command_prefixes : list (list string * string) :=
  [ (["GO"; "TO"], "go to"); (["SAY"], "say"); (["SHOUT"], "shout");
    (["NOTE"], "note"); (["RECALL"], "recall") ].

Fixpoint match_prefixes (l : list (list string * string)) (line : string)
  : option string :=
  match l with
  | [] => None
  | (words, prefix) :: r =>
      match PyStr.match_verb words line with
      | Some rest =>
          let content := PyStr.strip rest in
          if String.eqb prefix "note" && PyStr.contains ":" content then
            let (title, body) := PyStr.split_once PyStr.colon content in
            Some (prefix ++ " " ++ PyStr.strip title ++ ": "
                    ++ PyStr.strip (Event.or_default body EmptyString))%string
          else Some (prefix ++ " " ++ content)%string
      | None => match_prefixes r line
      end
  end.

(** The body of the loop of [extract_command_from_buffer] for one line: the
    command returned and the reason stored in the minimind, or [None] when
    the loop goes on. *)
Definition line_command (raw : string) : option (string * option string) :=
  let line := PyStr.strip raw in
  if PyStr.is_empty line then None
  else if looks_like_formatting marks5 line then None
  else if starts_with_verb (PyStr.lower line) then
    if PyStr.contains "|" line then Some (split_reason line)
    else Some (line, None)
  else
    match match_prefixes command_prefixes line with
    | Some c => Some (c, None)
    | None => None
    end.

Fixpoint first_command (lines : list string) : option (string * option string) :=
  match lines with
  | [] => None
  | l :: r => match line_command l with
              | Some c => Some c
              | None => first_command r
              end
  end.

Definition extract_command_from_buffer (buffer : string)
  : option (string * option string) :=
  if PyStr.is_empty buffer then None
  else
    let buffer_ends_with_newline := PyStr.endswith_char PyStr.newline buffer in
    let contains_newline := PyStr.contains (PyStr.str1 PyStr.newline) buffer in
    if negb contains_newline && negb buffer_ends_with_newline then None
    else
      let lines := PyStr.split PyStr.newline buffer in
      let processable_lines :=
        if negb buffer_ends_with_newline then PyStr.but_last lines else lines in
      first_command processable_lines.

Definition store_reason (reason : option string) (old : option string)
  : option string :=
  match reason with Some r => Some r | None => old end.

(** [store_thinking_chain]: the chain the minimind holds afterwards. *)
Definition store_thinking_chain (response : string) (old : option string)
  : option string :=
  match PyStr.search_think response with
  | Some chain => Some (PyStr.strip chain)
  | None => old
  end.

Definition truthy (o : option string) : bool :=
  match o with Some s => negb (PyStr.is_empty s) | None => false end.

Definition handle_response_chunk (chunk : string) (h : t) : t :=
  if command_detected h then h
  else
    let response := (complete_response h ++ chunk)%string in
    let '(thinking, buffer) :=
      if negb (thinking_complete h) then
        match PyStr.partition "</think>" response with
        | Some (_, after) => (true, PyStr.strip after)
        | None => (false, post_thinking_buffer h)
        end
      else (true, (post_thinking_buffer h ++ chunk)%string) in
    let found := if thinking then extract_command_from_buffer buffer else None in
    match found with
    | Some (command, reason) =>
        if PyStr.is_empty command then
          mk response buffer thinking false (detected_command h) (has_early_stopped h)
             (turn_in_progress h) (stop_streaming h) (turn_completed h)
             (active_minimind h) (store_reason reason (last_command_reason h))
             (thought_chain h) (pending h) (effects h)
        else
          let command :=
            Event.clean_event_text command (Some (active_minimind h))
                                   (Some (active_minimind h)) in
          mk response buffer thinking true (Some command) true
             (turn_in_progress h) true (turn_completed h)
             (active_minimind h) (store_reason reason (last_command_reason h))
             (store_thinking_chain response (thought_chain h))
             (pending h ++ [ProcessCommandSafely command response])
             (effects h ++ [CancelStreaming])
    | None =>
        mk response buffer thinking false (detected_command h) (has_early_stopped h)
           (turn_in_progress h) (stop_streaming h) (turn_completed h)
           (active_minimind h) (last_command_reason h)
           (thought_chain h) (pending h) (effects h)
    end.

(** The two loops of [clean_llm_response] over the lines of the response. *)
Definition cleaned_line (raw : string) : option (string * option string) :=
  let line := PyStr.strip raw in
  if PyStr.is_empty line then None
  else if looks_like_formatting marks5 line then None
  else
    let piped :=
      if PyStr.contains "|" line then
        let (command, reason) := split_reason line in
        if starts_with_verb (PyStr.lower command) then Some (command, reason)
        else None
      else None in
    match piped with
    | Some c => Some c
    | None => if starts_with_verb (PyStr.lower line) then Some (line, None) else None
    end.

Fixpoint first_cleaned (lines : list string) : option (string * option string) :=
  match lines with
  | [] => None
  | l :: r => match cleaned_line l with
              | Some c => Some c
              | None => first_cleaned r
              end
  end.

Fixpoint first_plain (lines : list string) : option string :=
  match lines with
  | [] => None
  | l :: r =>
      let line := PyStr.strip l in
      if negb (PyStr.is_empty line)
         && negb (match line with
                  | String c _ => existsb (Ascii.eqb c) marks4
                  | EmptyString => false
                  end)
      then Some line else first_plain r
  end.

Definition clean_llm_response (response : string) (h : t) : string * option string :=
  if truthy (detected_command h)
  then (Event.or_default (detected_command h) EmptyString, None)
  else
    let response_cleaned := PyStr.strip (PyStr.remove_think response) in
    let lines := PyStr.split PyStr.newline response_cleaned in
    match first_cleaned lines with
    | Some c => c
    | None =>
        match first_plain lines with
        | Some line => (line, None)
        | None => (response_cleaned, None)
        end
    end.

Definition handle_response_complete (full_response : string) (h : t) : t :=
  if has_early_stopped h then h
  else
    let chain := store_thinking_chain full_response (thought_chain h) in
    if negb (truthy (detected_command h)) then
      let (cleaned_action, reason) := clean_llm_response full_response h in
      mk full_response (post_thinking_buffer h) (thinking_complete h)
         (command_detected h) (detected_command h) (has_early_stopped h)
         (turn_in_progress h) (stop_streaming h) (turn_completed h)
         (active_minimind h) (store_reason reason (last_command_reason h)) chain
         (pending h ++ [SafeProcessFullResponse cleaned_action full_response;
                        SetStopStreaming])
         (effects h)
    else
      mk full_response (post_thinking_buffer h) (thinking_complete h)
         (command_detected h) (detected_command h) (has_early_stopped h)
         (turn_in_progress h) (stop_streaming h) (turn_completed h)
         (active_minimind h) (last_command_reason h) chain
         (pending h ++ [SetStopStreaming]) (effects h).

Definition handle_response_error (error : string) (h : t) : t :=
  mk (complete_response h) (post_thinking_buffer h) (thinking_complete h)
     (command_detected h) (detected_command h) (has_early_stopped h)
     false true true
     (active_minimind h) (last_command_reason h) (thought_chain h)
     (pending h) (effects h ++ [Signal]).

(** The flags and effects after a queued callback has run;
    [process_minimind_action] ends the turn in progress. *)
Definition finish (committed : option string) (h : t) : t :=
  mk (complete_response h) (post_thinking_buffer h) (thinking_complete h)
     (command_detected h) (detected_command h) (has_early_stopped h)
     (match committed with Some _ => false | None => turn_in_progress h end)
     (stop_streaming h) true
     (active_minimind h) (last_command_reason h) (thought_chain h)
     (pending h)
     (effects h ++ match committed with
                   | Some c => [Commit c; Signal]
                   | None => [Signal]
                   end).

Definition process_command_safely (command llm_response : string) (h : t) : t :=
  finish (Some command) h.

Definition safe_process_full_response (action llm_response : string) (h : t) : t :=
  if negb (has_early_stopped h) && turn_in_progress h
  then finish (Some action) h
  else finish None h.

Definition run_task (k : task) (h : t) : t :=
  match k with
  | ProcessCommandSafely c r => process_command_safely c r h
  | SafeProcessFullResponse a r => safe_process_full_response a r h
  | SetStopStreaming =>
      mk (complete_response h) (post_thinking_buffer h) (thinking_complete h)
         (command_detected h) (detected_command h) (has_early_stopped h)
         (turn_in_progress h) true (turn_completed h)
         (active_minimind h) (last_command_reason h) (thought_chain h)
         (pending h) (effects h)
  end.

(** What can happen to a turn under way: the three callbacks of the streaming
    client, a cancellation asked by the turn runner, and the Tk loop running
    the callback at the head of its queue. *)
Inductive input :=
| Chunk (text : string)
| Complete (full_response : string)
| Error (error : string)
| Cancel
| Timer.

Definition step (h : t) (i : input) : t :=
  match i with
  | Chunk text => handle_response_chunk text h
  | Complete full => handle_response_complete full h
  | Error e => handle_response_error e h
  | Cancel =>
      mk (complete_response h) (post_thinking_buffer h) (thinking_complete h)
         (command_detected h) (detected_command h) (has_early_stopped h)
         (turn_in_progress h) (stop_streaming h) (turn_completed h)
         (active_minimind h) (last_command_reason h) (thought_chain h)
         (pending h) (effects h ++ [CancelStreaming])
  | Timer =>
      match pending h with
      | [] => h
      | k :: r =>
          run_task k
            (mk (complete_response h) (post_thinking_buffer h) (thinking_complete h)
                (command_detected h) (detected_command h) (has_early_stopped h)
                (turn_in_progress h) (stop_streaming h) (turn_completed h)
                (active_minimind h) (last_command_reason h) (thought_chain h)
                r (effects h))
      end
  end.

Definition run (inputs : list input) (h : t) : t := fold_left step inputs h.

(** The resolutions of a turn: every hand-over of its outcome.  Each of the
    three routines that end a turn ([process_command_safely],
    [safe_process_full_response], [handle_response_error]) raises the
    completion signal once, after the command it commits if it commits one. *)
Fixpoint resolutions (l : list effect) : nat :=
  match l with
  | [] => 0
  | Signal :: r => S (resolutions r)
  | _ :: r => resolutions r
  end.

Fixpoint commits (l : list effect) : list string :=
  match l with
  | [] => []
  | Commit c :: r => c :: commits r
  | _ :: r => commits r
  end.

End EventHandler.

(* ================================================================== *)
(** * Notions used in the statements *)
(* ================================================================== *)

(** The order of [sorted] on the elements of a list. *)
Definition key_le {A : Type} (key : A -> Z * Z) (x y : A) : Prop :=
  key_leb (key x) (key y) = true.

Module TurnManagerNotions.
Import TurnManager.

(** The amount [normalize_tu] takes off every counter. *)
Definition offset (d : Dict.t Z) : Z :=
  let min_tu := py_min (Dict.values d) in
  if 0 <? min_tu then min_tu else 0.

(** Statement of the anti-starvation rule for every actor that is not
    privileged, as the specification has it. *)
Definition falls_behind_whenever_unprivileged : Prop :=
  forall tm c n rest raw,
    Dict.wf (time_units tm) = true ->
    turn_mode tm = "time_units" ->
    get_turn_order tm = c :: n :: rest ->
    god_mode tm && is_name (player_name tm) c = false ->
    item n (time_units (add_time_units c raw tm))
    < item c (time_units (add_time_units c raw tm)).

(** A scheduler state reached from the initial one: the player ["P"] at 0
    units ahead of ["A"] at 5. *)
Definition player_ahead : t :=
  add_time_units "A" 5
    (add_time_units "P" 1
       (register_character "A" false (register_character "P" true init))).

(** A character with one new memory, second in the memories order. *)
Definition second_by_memories : t :=
  increment_memory_count "B" 2
    (increment_memory_count "A" 1
       (snd (set_turn_mode "memories"
               (register_character "B" false
                  (register_character "A" false
                     (register_character "P" true init)))))).

(** Two characters in memories mode, ["B"] with two new memories. *)
Definition two_by_memories : t :=
  increment_memory_count "B" 2
    (snd (set_turn_mode "memories"
            (register_character "B" false (register_character "A" false init)))).

(** The calls a client can make on the scheduler. *)
Inductive call :=
| Register (name : string) (is_player : bool)
| Remove (name : string)
| SetGodMode (enabled : bool)
| SetTurnMode (mode : string)
| IncrementMemory (character : string) (count : Z)
| AddTimeUnits (character : string) (tu_cost : Z)
| PassTurn (character : string).

Definition perform (tm : t) (c : call) : t :=
  match c with
  | Register name is_player => register_character name is_player tm
  | Remove name => remove_character name tm
  | SetGodMode enabled => set_god_mode enabled tm
  | SetTurnMode mode => snd (set_turn_mode mode tm)
  | IncrementMemory character count => increment_memory_count character count tm
  | AddTimeUnits character tu_cost => add_time_units character tu_cost tm
  | PassTurn character => snd (pass_turn character tm)
  end.

(** The three tables hold the same characters, in the same order, once
    each. *)
Definition aligned (tm : t) : Prop :=
  Dict.wf (time_units tm) = true
  /\ Dict.keys (last_turn_time tm) = Dict.keys (time_units tm)
  /\ Dict.keys (new_memories_count tm) = Dict.keys (time_units tm).

End TurnManagerNotions.

Module EventDispatcherNotions.
Import Event EventDispatcher.

(** The event types whose echo to their own actor is held back. *)
Definition first_person_types : list string :=
  ["speech"; "shout"; "emote"; "observation"].

(** Statement of the suppression rule with all bystanders served, as the
    specification has it. *)
Definition echo_held_back_and_bystanders_served : Prop :=
  forall etype ev d,
    existsb (String.eqb etype) first_person_types = true ->
    Dict.wf (observers d) = true ->
    (forall c, In c (dispatch_event etype ev d) ->
               call_observer c <> or_default (actor ev) "unknown")
    /\ (forall o, In o (observers_to_notify etype ev d) ->
                  o <> or_default (actor ev) "unknown" ->
                  exists c, In c (dispatch_event etype ev d) /\ call_observer c = o).

(** The recipient set of the location and shout rules: for a shout every
    registered observer, otherwise the registered observers recorded at the
    location of the event. *)
Definition recipients_by_rule (etype : string) (ev : data) (d : t) : list string :=
  if String.eqb etype "shout" then Dict.keys (observers d)
  else
    filter (fun character =>
              opt_eqb (Dict.get character (observer_locations ev))
                      (Some (or_default (location ev) "unknown")))
           (Dict.keys (observers d)).

(** Bob and Alice stand in the kitchen, Carol in the garden; each has one
    callback with the dispatcher. *)
Definition kitchen_registry : t :=
  register "Carol" 3%nat (register "Alice" 2%nat (register "Bob" 1%nat init)).

Definition where_they_are : Dict.t string :=
  [("Bob", "Kitchen"); ("Alice", "Kitchen"); ("Carol", "Garden")].

(** Bob, in the kitchen, says [You say: hello]. *)
Definition quoting_speech : data :=
  mk_data (Some "Bob") (Some "Kitchen") (Some "You say: hello")
          (Some "Bob speaks") None None where_they_are None None None None.

(** Bob, in the kitchen, says [Failed: the oven]. *)
Definition failing_speech : data :=
  mk_data (Some "Bob") (Some "Kitchen") (Some "Failed: the oven")
          (Some ("Bob says: " ++ quoted "Failed: the oven")%string) None None
          where_they_are None None None None.

(** Bob looks around in the kitchen. *)
Definition kitchen_observation : data :=
  mk_data (Some "Bob") (Some "Kitchen") (Some "looks around")
          (Some "Bob looks around") None None where_they_are
          (Some "looks around") None None None.

(** Bob moves from the kitchen to the garden. *)
Definition bob_moves : data :=
  mk_data (Some "Bob") (Some "Kitchen") None (Some "Bob moved") (Some "Kitchen")
          (Some "Garden") where_they_are None None None None.


End EventDispatcherNotions.

Module EventBusNotions.
Import Event EventBus.

(** Whether the per-observer record makes [publish] skip an observer. *)
Definition seen_by (bus : t) (observer fingerprint : string) (now : Z) : bool :=
  fst (observer_has_seen_event observer fingerprint now bus).

(** The calls for one observer: all its callbacks, in order. *)
Definition calls_for (event_type description : string) (ev : data) (bus : t)
           (observer : string) : list call :=
  map (fun cb => mk_call cb event_type
                   (formatted_description event_type description ev observer)
                   observer)
      (entries observer (observers bus)).

(** The calls of a publication that nothing holds back. *)
Definition full_delivery (event_type description : string) (ev : data) (bus : t)
  : list call :=
  flat_map (calls_for event_type (publish_description event_type description)
                      (publish_data event_type ev) bus)
           (observers_to_notify event_type (publish_data event_type ev) bus).


(** Each callback is registered once per observer, as [register] ensures. *)
Definition callbacks_once (bus : t) : Prop :=
  forall o, NoDup (entries o (observers bus)).

(** The same, as tests. *)
Fixpoint distinct (l : list callback) : bool :=
  match l with
  | [] => true
  | x :: r => negb (has_callback x r) && distinct r
  end.

Definition registry_ok (bus : t) : bool :=
  Dict.wf (observers bus) && forallb (fun ol => distinct (snd ol)) (observers bus).

(** The bus on which the notification loop of [publish] starts. *)
Definition recorded (fingerprint : string) (now : Z) (bus : t) : t :=
  cleanup_old_events now
    (mk (observers bus) (Dict.set fingerprint now (recent_events bus))
        (observer_recent_events bus) (event_expiry bus)).



Section Hash.
Variable md5_hexdigest : string -> string.

(** The fingerprint [publish] computes for an event at a clock reading. *)
Definition fingerprint_of (event_type description : string) (ev : data) (now : Z)
  : string :=
  create_fingerprint md5_hexdigest event_type
                     (publish_description event_type description)
                     (publish_data event_type ev) now.


End Hash.

(** The same three characters registered with the bus. *)
Definition kitchen_bus : t :=
  register "Carol" 3%nat (register "Alice" 2%nat (register "Bob" 1%nat init)).

(** Bob speaks in the kitchen. *)
Definition bob_speaks : data :=
  mk_data (Some "Bob") (Some "Kitchen") (Some "hi") None None None
          EventDispatcherNotions.where_they_are None None None None.

End EventBusNotions.

Module PyStrNotions.
Import PyStr.

(** Lines, each one closed by a line break. *)
Fixpoint lines_text (l : list string) : string :=
  match l with
  | [] => EmptyString
  | s :: r => (s ++ String newline (lines_text r))%string
  end.

(** ['\n' in s] *)
Definition has_newline (s : string) : bool := contains (str1 newline) s.

End PyStrNotions.

Module EventHandlerNotions.
Import PyStr EventHandler.

(** The text of one line break. *)
Definition line_break : string := str1 newline.

(** What [extract_command_from_buffer] returns for a line it accepts by its
    leading verb: the line, or its part before the first bar, and the reason
    after the bar. *)
Definition detected (line : string) : string * option string :=
  let line := strip line in
  if contains "|" line then split_reason line else (line, None).

(** The scan has started and found nothing yet. *)
Definition scanning : t :=
  handle_response_chunk "<think>plan</think>" (start "Bob").

(** The two states of a turn while its stream is running: nothing found
    yet, or a command found and its commit queued. *)
Definition quiet (h : t) : Prop :=
  command_detected h = false /\ has_early_stopped h = false
  /\ detected_command h = None /\ turn_in_progress h = true
  /\ pending h = []
  /\ resolutions (effects h) = 0%nat /\ commits (effects h) = [].

Definition stopped_early (h : t) : Prop :=
  command_detected h = true /\ has_early_stopped h = true
  /\ turn_in_progress h = true
  /\ (exists c r, pending h = [ProcessCommandSafely c r])
  /\ resolutions (effects h) = 0%nat /\ commits (effects h) = [].

(** What reaches the handler while the stream runs. *)
Definition streaming_input (i : input) : Prop :=
  match i with
  | Chunk _ | Cancel => True
  | _ => False
  end.

End EventHandlerNotions.

(* ================================================================== *)
(** * Notions for the further properties *)
(* ================================================================== *)

Module TextNotions.
Import PyStr.

(** A text of ASCII characters: every byte is below 128. *)
Fixpoint plain (s : string) : bool :=
  match s with
  | EmptyString => true
  | String c r => Nat.ltb (code c) 128 && plain r
  end.

(** A word none of whose letters has a namesake outside ASCII under
    [re.IGNORECASE]: no [s], [i] or [k]. *)
Fixpoint ordinary (w : string) : bool :=
  match w with
  | EmptyString => true
  | String p r =>
      negb (Ascii.eqb (lower_char p) "s") && negb (Ascii.eqb (lower_char p) "i")
      && negb (Ascii.eqb (lower_char p) "k") && ordinary r
  end.

End TextNotions.

Module TurnManagerInvariants.
Import TurnManager TurnManagerNotions.

(** A call that charges no negative cost. *)
Definition nonnegative_cost (c : call) : Prop :=
  match c with
  | AddTimeUnits _ tu_cost => 0 <= tu_cost
  | _ => True
  end.

(** A call that reports no negative number of new memories. *)
Definition nonnegative_count (c : call) : Prop :=
  match c with
  | IncrementMemory _ count => 0 <= count
  | _ => True
  end.

(** No counter of a table is negative. *)
Definition nonnegative (d : Dict.t Z) : Prop :=
  forall k v, In (k, v) d -> 0 <= v.

(** No character is recorded as having gone later than the history is
    long. *)
Definition stamped (tm : t) : Prop :=
  forall k v, In (k, v) (last_turn_time tm) ->
              0 <= v <= Z.of_nat (List.length (turn_history tm)).

(** Three characters, the player in God mode. *)
Definition three_with_god : t :=
  set_god_mode true
    (add_time_units "B" 4
       (register_character "B" false
          (register_character "P" true (register_character "A" false init)))).

End TurnManagerInvariants.

Module EventHandlerInvariants.
Import EventHandler.

(** The text of a stream: its chunks one after the other. *)
Definition whole (chunks : list string) : string :=
  fold_right String.append EmptyString chunks.

(** The closing tag of the thinking block. *)
Definition closing_tag : string := "</think>".

(** A stream of three chunks with a request to cancel in between. *)
Definition three_chunks : list input :=
  [ Chunk "<think>let me"; Chunk " see</think>go "; Cancel;
    Chunk ("to Kitchen" ++ PyStr.str1 PyStr.newline) ].

End EventHandlerInvariants.

(* ================================================================== *)
(** * turn_manager.py: the cost of a command *)
(* ================================================================== *)

(** [TurnManager.calculate_tu_cost] reads the attributes that
    [load_turn_rules] sets on the scheduler and nothing else of it; they are
    kept here in a record of their own.  The rules are integers, as the
    defaults are and as [parse_settings] makes of a value written in digits.
    [n / m] on integers is the binary64 number nearest to the quotient, and
    [math.ceil] rounds that number up, not the quotient.  A divisor of 0
    raises [ZeroDivisionError], modelled by [None].  [OverflowError] needs a
    quotient of 2^1024 or more; the dividends here are numbers of words of a
    text, of which no [str] holds that many, and the case is not singled
    out. *)

Module TurnRules.
Import PyStr.

Record t := mk {
  base_cost : Z;
  scale_with_content : bool;
  say_multiplier : Z;
  shout_multiplier : Z;
  note_multiplier : Z;
  dig_cost : Z;
  describe_cost : Z
}.

(** The values [load_turn_rules] falls back on. *)
Definition default : t := mk 1 true 3 2 7 5 3.

(** [s.split()]: the runs of characters that are not white space.
    [pending] counts the bytes of a white-space character still to be passed
    over. *)
Fixpoint words_from (pending : nat) (s : string) : list string :=
  match s with
  | EmptyString => []
  | String c r =>
      match pending with
      | S k => words_from k r
      | O =>
          match space_width s with
          | S k => words_from k r
          | O =>
              match r with
              | EmptyString => [str1 c]
              | String _ _ =>
                  if Nat.eqb (space_width r) 0 then
                    match words_from 0 r with
                    | w :: ws => String c w :: ws
                    | [] => [str1 c]
                    end
                  else str1 c :: words_from 0 r
              end
          end
      end
  end.

Definition split_whitespace (s : string) : list string := words_from 0 s.

(** [len(s.split())] *)
Definition word_count (s : string) : Z :=
  Z.of_nat (List.length (split_whitespace s)).

(** [a / b] for positive integers: the binary64 number nearest to the
    quotient, ties going to the even mantissa, as a mantissa and an exponent
    of 2.  The mantissa has 53 bits unless the number is subnormal. *)
Definition true_div (a b : Z) : Z * Z :=
  let d := Z.log2 a - Z.log2 b in
  let l := if b * 2 ^ Z.max 0 d <=? a * 2 ^ Z.max 0 (- d) then d else d - 1 in
  let e := Z.max (l - 52) (- 1074) in
  let num := a * 2 ^ Z.max 0 (- e) in
  let den := b * 2 ^ Z.max 0 e in
  let q0 := num / den in
  let rem := num mod den in
  let q := if 2 * rem <? den then q0
           else if den <? 2 * rem then q0 + 1
           else if Z.even q0 then q0 else q0 + 1 in
  (q, e).

(** [math.ceil(n / m)] *)
Definition ceil_div (n m : Z) : option Z :=
  if m =? 0 then None
  else if n =? 0 then Some 0
  else
    let sign := Z.sgn n * Z.sgn m in
    let (q, e) := true_div (Z.abs n) (Z.abs m) in
    Some (if 0 <=? e then sign * q * 2 ^ e
          else - ((- (sign * q)) / 2 ^ (- e))).

(** [cost += extra + math.ceil(word_count / multiplier)] *)
Definition add_words (cost extra : Z) (text : string) (multiplier : Z) : option Z :=
  match ceil_div (word_count text) multiplier with
  | Some k => Some (cost + (extra + k))
  | None => None
  end.

Definition calculate_tu_cost (rules : t) (command : string) : option Z :=
  let cost := base_cost rules in
  if negb (scale_with_content rules) then Some cost
  else
    let command_lower := strip (lower command) in
    if startswith "say " command_lower then
      let message := strip (skip_chars 4 command) in
      add_words cost 0 message (say_multiplier rules)
    else if startswith "emote " command_lower then
      let message := strip (skip_chars 6 command) in
      add_words cost 0 message (note_multiplier rules)
    else if startswith "shout " command_lower then
      let message := strip (skip_chars 6 command) in
      add_words cost 0 message (shout_multiplier rules)
    else if startswith "note " command_lower then
      match split_once colon (strip (skip_chars 5 command)) with
      | (_, Some after) =>
          let content := strip after in
          add_words cost 0 content (note_multiplier rules)
      | (_, None) => Some cost
      end
    else if startswith "dig " command_lower then Some (cost + dig_cost rules)
    else if startswith "describe " command_lower then
      let description := strip (skip_chars 9 command) in
      add_words cost (describe_cost rules) description (note_multiplier rules * 2)
    else if startswith "dream" command_lower then Some (cost + 14)
    else Some cost.

(** Rules under which no division fails and nothing is given away. *)
Definition sound (rules : t) : Prop :=
  0 < say_multiplier rules /\ 0 < shout_multiplier rules
  /\ 0 < note_multiplier rules
  /\ 0 <= dig_cost rules /\ 0 <= describe_cost rules.

(** No white-space character starts anywhere in [s]. *)
Fixpoint no_space (s : string) : bool :=
  match s with
  | EmptyString => true
  | String _ r => Nat.eqb (space_width s) 0 && no_space r
  end.

(** A word: a text that is not empty, starts with the first byte of a
    character and holds no white space. *)
Definition is_word (s : string) : bool :=
  match s with
  | EmptyString => false
  | String c _ => negb (is_continuation c) && no_space s
  end.

End TurnRules.

(* ================================================================== *)
(** * world.py: where characters are, and what they say *)
(* ================================================================== *)

(** Of the world only the table of locations is modelled, and of a command
    handler the reply (success and message) and the calls it makes through
    the dispatcher; the [data] entry of a reply repeats the event.  The keys
    of an event that no router reads ([original_reason], [type],
    [heard_by], [origin_location]) have no field in [Event.data]. *)

Module World.
Import Event.

(** One entry of [self.locations]. *)
Record place := mk_place {
  place_description : string;
  connections : list string;
  characters : list string;
  objects : Dict.t string
}.

Record t := mk {
  locations : Dict.t place
}.

(** The reply of a command handler. *)
Record reply := mk_reply {
  success : bool;
  reply_message : string
}.

Definition get_character_location (character : string) (w : t) : option string :=
  match find (fun kv => existsb (String.eqb character) (characters (snd kv)))
             (locations w) with
  | Some (location, _) => Some location
  | None => None
  end.

(** The dictionary [observer_locations] that [notify_location] builds: the
    locations in order, the characters of each in order, a later entry
    taking the place of an earlier one. *)
Definition observer_locations (w : t) : Dict.t string :=
  fold_left
    (fun acc kv =>
       fold_left (fun acc character => Dict.set character (fst kv) acc)
                 (characters (snd kv)) acc)
    (locations w) [].

(** The event as [notify_location] hands it to the dispatcher: the location
    and the description are set when the caller left them out, and the
    locations of the observers are added. *)
Definition event_for (location description : string) (ev : data) (w : t) : data :=
  mk_data (actor ev)
          (match Event.location ev with None => Some location | l => l end)
          (message ev)
          (match Event.description ev with None => Some description | x => x end)
          (origin ev) (destination ev)
          (observer_locations w)
          (action ev) (via ev) (origin_description ev)
          (destination_description ev).

(** [notify_location(location, event_type, description, data)]: the calls
    the dispatcher makes. *)
Definition notify_location (location event_type description : string) (ev : data)
           (w : t) (d : EventDispatcher.t) : list call :=
  EventDispatcher.dispatch_event event_type (event_for location description ev w) d.

(** [not location] for the result of [get_character_location]. *)
Definition nowhere (location : option string) : bool :=
  match location with
  | Some l => PyStr.is_empty l
  | None => true
  end.

Definition says (actor message : string) : string :=
  (actor ++ " says: " ++ EventDispatcher.quoted message)%string.

(** The dictionary [event_data] of [handle_say_command]. *)
Definition say_data (actor message location : string) : data :=
  mk_data (Some actor) (Some location) (Some message)
          (Some (says actor message)) None None [] None None None None.

Definition handle_say_command (actor message : string) (w : t) (d : EventDispatcher.t)
  : reply * list call :=
  let location := get_character_location actor w in
  if nowhere location then (mk_reply false "You are nowhere.", [])
  else
    let location := or_default location EmptyString in
    let self_msg := ("You say: " ++ EventDispatcher.quoted message)%string in
    let event_data := say_data actor message location in
    (mk_reply true self_msg,
     notify_location location "speech" (says actor message) event_data w d).

Definition handle_emote_command (actor action : string) (w : t) (d : EventDispatcher.t)
  : reply * list call :=
  let location := get_character_location actor w in
  if nowhere location then (mk_reply false "You are nowhere.", [])
  else
    let location := or_default location EmptyString in
    let emote_msg := (actor ++ " " ++ action)%string in
    let self_msg := (actor ++ " " ++ action)%string in
    let event_data :=
      mk_data (Some actor) (Some location) None None None None [] (Some action)
              None None None in
    (mk_reply true self_msg,
     notify_location location "emote" emote_msg event_data w d).

End World.

Module WorldNotions.
Import World.

(** The same locations taken from the last to the first. *)
Definition backwards (w : t) : t := mk (rev (locations w)).

(** Nobody is listed under two locations, and no location twice. *)
Definition placed_once (w : t) : Prop :=
  Dict.wf (locations w) = true
  /\ forall l1 p1 l2 p2 c,
       In (l1, p1) (locations w) -> In (l2, p2) (locations w) ->
       In c (characters p1) -> In c (characters p2) -> l1 = l2.

(** Bob and Alice in the kitchen, Carol in the garden. *)
Definition two_rooms : t :=
  mk [ ("Kitchen", mk_place "A kitchen." ["Garden"] ["Bob"; "Alice"] []);
       ("Garden", mk_place "A garden." ["Kitchen"] ["Carol"] []) ].

(** Bob listed in both rooms. *)
Definition bob_twice : t :=
  mk [ ("Kitchen", mk_place "A kitchen." ["Garden"] ["Bob"; "Alice"] []);
       ("Garden", mk_place "A garden." ["Kitchen"] ["Carol"; "Bob"] []) ].

End WorldNotions.

(* ================================================================== *)
(** * command_processor.py: the callback of the observers *)
(* ================================================================== *)

(** [register_minimind_observers] registers, for the player and for every
    minimind, a closure that calls [world_event_callback] with the name it
    was registered under.  What the callback does to the files of memories,
    to the player view and to the scheduler is recorded as a list of
    effects.  [data['message']] raises [KeyError] on an event without a
    message: [None] for the routines that make a memory, and for the
    callback the effects it had before together with a flag; the exception
    leaves the loop of the dispatcher. *)

Module CommandProcessor.
Import Event.

Inductive effect :=
| AddPlayerView (text : string)                      (* a line of the player view *)
| PlayerMemory (content reason : string)             (* player.add_memory("observed", ...) *)
| ObservationMemory (minimind actor action reason : string)
                                                     (* minimind.add_observation_memory *)
| IncrementMemoryCount (character : string).         (* turn_manager.increment_memory_count *)

(** What the callback reads of the GUI: the name of the player and the
    miniminds by name, each with its own [location] attribute. *)
Record gui := mk_gui {
  player : string;
  miniminds : Dict.t (option string)
}.

(** gui_utils.add_player_view *)
Definition add_player_view (text : string) : list effect :=
  if PyStr.is_empty text then [] else [AddPlayerView text].

Definition _create_player_memory (g : gui) (w : World.t) (event_type actor : string)
           (ev : data) : option (list effect) :=
  if String.eqb event_type "observation" then
    Some [PlayerMemory (actor ++ " " ++ or_default (action ev) "did something")
                       "Observed activity"]
  else if String.eqb event_type "speech" then
    match message ev with
    | Some m => Some [PlayerMemory (actor ++ " said: " ++ EventDispatcher.quoted m)
                                   "Heard someone speaking"]
    | None => None
    end
  else if String.eqb event_type "shout" then
    match message ev with
    | Some m => Some [PlayerMemory (actor ++ " shouted: " ++ EventDispatcher.quoted m)
                                   "Heard a shout"]
    | None => None
    end
  else if String.eqb event_type "emote" then
    Some [PlayerMemory (actor ++ " " ++ or_default (action ev) "did something")
                       "Observed an action"]
  else if String.eqb event_type "movement" then
    let origin := or_default (origin ev) "somewhere" in
    let destination := or_default (destination ev) "somewhere" in
    let via := or_default (via ev) "moved" in
    let player_location := World.get_character_location (player g) w in
    if opt_eqb player_location (Some origin) then
      Some [PlayerMemory (actor ++ " " ++ via ++ " to " ++ destination)
                         "Saw someone leave"]
    else if opt_eqb player_location (Some destination) then
      Some [PlayerMemory (actor ++ " " ++ via ++ " from " ++ origin)
                         "Saw someone arrive"]
    else Some []
  else Some [].

(** [origin_location] is the entry of that name of the event, which the
    routers do not read. *)
Definition _create_minimind_memory (name : string) (minimind_location : option string)
           (event_type actor : string) (ev : data) (origin_location : option string)
  : option (list effect) :=
  if String.eqb event_type "observation" then
    Some [ObservationMemory name actor (or_default (action ev) "did something")
                            "Noticed someone doing something in my location"]
  else if String.eqb event_type "speech" then
    match message ev with
    | Some m => Some [ObservationMemory name actor
                                        ("said: " ++ EventDispatcher.quoted m)
                                        "Someone used SAY in my location"]
    | None => None
    end
  else if String.eqb event_type "shout" then
    let origin_location :=
      or_default origin_location (or_default (location ev) "unknown location") in
    match message ev with
    | Some m => Some [ObservationMemory name actor
                                        ("shouted from " ++ origin_location ++ ": "
                                           ++ EventDispatcher.quoted m)
                                        "Someone used SHOUT"]
    | None => None
    end
  else if String.eqb event_type "emote" then
    Some [ObservationMemory name actor (or_default (action ev) "did something")
                            "Someone used EMOTE in my location"]
  else if String.eqb event_type "movement" then
    let origin := or_default (origin ev) "somewhere" in
    let destination := or_default (destination ev) "somewhere" in
    let via := or_default (via ev) "moved" in
    let text := (via ++ " to " ++ destination ++ " from " ++ origin)%string in
    if opt_eqb minimind_location (Some origin) then
      Some [ObservationMemory name actor text "Someone left my location"]
    else if opt_eqb minimind_location (Some destination) then
      Some [ObservationMemory name actor text "Someone entered my location"]
    else Some []
  else Some [].

(** [world_event_callback(character_name, event_type, description, data)];
    [observer] is the entry of that name of [data].  The result is the
    effects and whether the callback raised. *)
Definition world_event_callback (g : gui) (w : World.t)
           (character_name event_type description : string) (ev : data)
           (observer origin_location : option string) : list effect * bool :=
  let actor := or_default (actor ev) "unknown" in
  let observer := or_default observer character_name in
  if PyStr.contains warning_sign description
     && String.eqb character_name (player g)
     && negb (String.eqb actor character_name)
  then ([], false)
  else if PyStr.contains "You say:" description && negb (String.eqb observer actor)
  then ([], false)
  else if String.eqb character_name (player g) then
    if negb (String.eqb actor character_name) then
      match _create_player_memory g w event_type actor ev with
      | Some memories => (add_player_view description ++ memories, false)
      | None => (add_player_view description, true)
      end
    else (add_player_view description, false)
  else
    match Dict.get character_name (miniminds g) with
    | Some minimind_location =>
        if String.eqb actor character_name then ([], false)
        else
          match _create_minimind_memory character_name minimind_location
                                        event_type actor ev origin_location with
          | Some memories =>
              (memories ++ [IncrementMemoryCount character_name], false)
          | None => ([], true)
          end
    | None => ([], false)
    end.

(** [register_minimind_observers]: the player first, then the miniminds in
    the order of their table; the callbacks are numbered as they come. *)
Definition register_minimind_observers (g : gui) (d : EventDispatcher.t)
  : EventDispatcher.t :=
  let names := player g :: Dict.keys (miniminds g) in
  fold_left (fun d ic => EventDispatcher.register (snd ic) (fst ic) d)
            (combine (seq 0 (List.length names)) names) d.

(** The callbacks of a list of calls run one after the other on the event
    the calls were made for, until one raises: the effects, in order. *)
Fixpoint run_callbacks (g : gui) (w : World.t) (ev : data)
         (origin_location : option string) (calls : list call) : list effect :=
  match calls with
  | [] => []
  | c :: rest =>
      let (effects, raised) :=
        world_event_callback g w (call_observer c) (call_type c) (call_text c)
                             ev (Some (call_observer c)) origin_location in
      if raised then effects
      else effects ++ run_callbacks g w ev origin_location rest
  end.

(** The scheduler after the effects. *)
Definition settle (effects : list effect) (tm : TurnManager.t) : TurnManager.t :=
  fold_left (fun tm e =>
               match e with
               | IncrementMemoryCount c => TurnManager.increment_memory_count c 1 tm
               | _ => tm
               end)
            effects tm.

End CommandProcessor.

Module CommandProcessorNotions.
Import Event CommandProcessor.

(** A minimind that hears a speech of [actor] made in [location]: not the
    player, not the speaker, registered with the scheduler, and taken by the
    event to be in that location. *)
Definition hears (g : gui) (w : World.t) (tm : TurnManager.t)
           (actor location name : string) : bool :=
  Dict.mem name (miniminds g)
  && negb (String.eqb name (player g))
  && negb (String.eqb name actor)
  && opt_eqb (Dict.get name (World.observer_locations w)) (Some location)
  && Dict.mem name (TurnManager.new_memories_count tm).

(** The characters whose count of new memories the effects raise, in
    order. *)
Fixpoint increments (effects : list effect) : list string :=
  match effects with
  | [] => []
  | IncrementMemoryCount c :: r => c :: increments r
  | _ :: r => increments r
  end.

(** Tom plays; Bob, Alice and Carol are miniminds. *)
Definition household : gui :=
  mk_gui "Tom" [("Bob", Some "Kitchen"); ("Alice", Some "Kitchen");
                ("Carol", Some "Garden")].

(** Tom, Bob and Alice in the kitchen, Carol in the garden. *)
Definition home : World.t :=
  World.mk
    [ ("Kitchen", World.mk_place "A kitchen." ["Garden"] ["Tom"; "Bob"; "Alice"] []);
      ("Garden", World.mk_place "A garden." ["Kitchen"] ["Carol"] []) ].

(** The four of them registered with the scheduler. *)
Definition four_registered : TurnManager.t :=
  TurnManager.register_character "Carol" false
    (TurnManager.register_character "Alice" false
       (TurnManager.register_character "Bob" false
          (TurnManager.register_character "Tom" true TurnManager.init))).

End CommandProcessorNotions.

(* ================================================================== *)
(** * Facts about dictionaries and the built-ins *)
(* ================================================================== *)

Module DictFacts.

Section Facts.
Context {V : Type}.
Implicit Types (d : Dict.t V) (k : string) (v : V).

Lemma get_set_same k v d : Dict.get k (Dict.set k v d) = Some v.
Proof.
  induction d as [|[k' v'] r IH]; simpl.
  - now rewrite String.eqb_refl.
  - destruct (String.eqb k k') eqn:E; simpl; rewrite ?E, ?String.eqb_refl; auto.
Qed.

Lemma get_set_other k k' v d :
  k <> k' -> Dict.get k (Dict.set k' v d) = Dict.get k d.
Proof.
  intros Hne. induction d as [|[k0 v0] r IH]; simpl.
  - apply String.eqb_neq in Hne. now rewrite Hne.
  - destruct (String.eqb k' k0) eqn:E; simpl.
    + apply String.eqb_eq in E. subst k0.
      apply String.eqb_neq in Hne. now rewrite Hne.
    + now rewrite IH.
Qed.

Lemma mem_In k d : Dict.mem k d = true <-> In k (Dict.keys d).
Proof.
  unfold Dict.mem. induction d as [|[k' v'] r IH]; simpl.
  - split; [discriminate | tauto].
  - destruct (String.eqb k k') eqn:E.
    + apply String.eqb_eq in E. subst. split; auto.
    + apply String.eqb_neq in E. rewrite IH. split; [auto | intros [H|H]; congruence].
Qed.

Lemma keys_set_mem k v d :
  Dict.mem k d = true -> Dict.keys (Dict.set k v d) = Dict.keys d.
Proof.
  unfold Dict.mem. induction d as [|[k' v'] r IH]; simpl; [discriminate|].
  destruct (String.eqb k k') eqn:E; simpl; intros H.
  - apply String.eqb_eq in E. now subst.
  - f_equal. now apply IH.
Qed.

Lemma keys_set_new k v d :
  Dict.mem k d = false -> Dict.keys (Dict.set k v d) = Dict.keys d ++ [k].
Proof.
  unfold Dict.mem. induction d as [|[k' v'] r IH]; simpl; [reflexivity|].
  destruct (String.eqb k k') eqn:E; simpl; intros H; [discriminate|].
  f_equal. now apply IH.
Qed.

Lemma get_map_values (f : V -> V) k d :
  Dict.get k (Dict.map_values f d) = option_map f (Dict.get k d).
Proof.
  induction d as [|[k' v'] r IH]; simpl; [reflexivity|].
  now destruct (String.eqb k k').
Qed.

Lemma keys_map_values (f : V -> V) d :
  Dict.keys (Dict.map_values f d) = Dict.keys d.
Proof.
  unfold Dict.keys, Dict.map_values. rewrite map_map. reflexivity.
Qed.

Lemma get_In_values k v d : Dict.get k d = Some v -> In v (Dict.values d).
Proof.
  induction d as [|[k' v'] r IH]; simpl; [discriminate|].
  destruct (String.eqb k k'); intros H; [left; congruence | right; auto].
Qed.
End Facts.

Lemma existsb_eqb_In k l : existsb (String.eqb k) l = true <-> In k l.
Proof.
  rewrite existsb_exists. split.
  - intros [x [Hin E]]. apply String.eqb_eq in E. now subst.
  - intros H. exists k. split; [assumption | apply String.eqb_refl].
Qed.

Lemma uniq_NoDup l : Dict.uniq l = true <-> NoDup l.
Proof.
  induction l as [|k r IH]; simpl.
  - split; [constructor | reflexivity].
  - rewrite andb_true_iff, negb_true_iff, IH. split.
    + intros [Hn Hr]. constructor; [|assumption].
      intros Hin. apply existsb_eqb_In in Hin. congruence.
    + intros H. inversion H as [|? ? Hn Hr]; subst. split; [|assumption].
      destruct (existsb (String.eqb k) r) eqn:E; [|reflexivity].
      apply existsb_eqb_In in E. contradiction.
Qed.


(** Assignment and deletion keep one entry per key. *)
Lemma set_uniq {V : Type} k (v : V) d :
  Dict.wf d = true -> Dict.wf (Dict.set k v d) = true.
Proof.
  unfold Dict.wf. intros H.
  destruct (Dict.mem k d) eqn:E.
  - now rewrite keys_set_mem.
  - rewrite keys_set_new by assumption.
    apply uniq_NoDup. apply uniq_NoDup in H.
    apply NoDup_app; [assumption | repeat constructor; intros [] |].
    intros x Hx [<-|[]]. apply mem_In in Hx. congruence.
Qed.

Lemma keys_del_incl {V : Type} k x (d : Dict.t V) :
  In x (Dict.keys (Dict.del k d)) -> In x (Dict.keys d).
Proof.
  induction d as [|[k' v'] r IH]; simpl; [tauto|].
  destruct (String.eqb k k'); simpl; tauto.
Qed.

Lemma del_uniq {V : Type} k (d : Dict.t V) :
  Dict.wf d = true -> Dict.wf (Dict.del k d) = true.
Proof.
  unfold Dict.wf. rewrite !uniq_NoDup.
  induction d as [|[k' v'] r IH]; simpl; [auto|].
  intros H. inversion H as [|? ? Hn Hr]; subst.
  destruct (String.eqb k k'); simpl; [assumption|].
  constructor; [|auto]. intros Hin. apply Hn. now apply keys_del_incl in Hin.
Qed.

Lemma set_set {V : Type} k (v1 v2 : V) d :
  Dict.set k v2 (Dict.set k v1 d) = Dict.set k v2 d.
Proof.
  induction d as [|[k' v'] r IH]; simpl.
  - now rewrite String.eqb_refl.
  - destruct (String.eqb k k') eqn:E; simpl; rewrite ?String.eqb_refl, ?E; congruence.
Qed.

(** The keys after an assignment or a deletion depend on the keys only. *)
Lemma mem_keys {V W : Type} k (d : Dict.t V) (d' : Dict.t W) :
  Dict.keys d = Dict.keys d' -> Dict.mem k d = Dict.mem k d'.
Proof.
  intros E. destruct (Dict.mem k d) eqn:H1, (Dict.mem k d') eqn:H2; try reflexivity.
  - apply mem_In in H1. rewrite E in H1. apply mem_In in H1. congruence.
  - apply mem_In in H2. rewrite <- E in H2. apply mem_In in H2. congruence.
Qed.

Lemma keys_set {V W : Type} k (v : V) (w : W) (d : Dict.t V) (d' : Dict.t W) :
  Dict.keys d = Dict.keys d' ->
  Dict.keys (Dict.set k v d) = Dict.keys (Dict.set k w d').
Proof.
  intros E. pose proof (mem_keys k d d' E) as Hm.
  destruct (Dict.mem k d) eqn:H1.
  - rewrite !keys_set_mem by congruence. exact E.
  - rewrite !keys_set_new by congruence. now rewrite E.
Qed.

Lemma keys_del {V W : Type} k (d : Dict.t V) : forall (d' : Dict.t W),
  Dict.keys d = Dict.keys d' ->
  Dict.keys (Dict.del k d) = Dict.keys (Dict.del k d').
Proof.
  induction d as [|[k1 v1] r IH]; intros [|[k2 v2] r'] E; simpl in *;
    try discriminate; [reflexivity|].
  injection E as -> E. destruct (String.eqb k k2); simpl; [assumption|].
  f_equal. now apply IH.
Qed.

(** ** [min] of a list *)

Lemma fold_min_le l : forall a, fold_left Z.min l a <= a.
Proof.
  induction l as [|x r IH]; simpl; intros a; [lia|].
  specialize (IH (Z.min a x)). lia.
Qed.

Lemma fold_min_lower l : forall a x, In x l -> fold_left Z.min l a <= x.
Proof.
  induction l as [|y r IH]; simpl; intros a x Hin; [contradiction|].
  destruct Hin as [->|Hin].
  - pose proof (fold_min_le r (Z.min a x)). lia.
  - now apply IH.
Qed.

Lemma py_min_le l x : In x l -> py_min l <= x.
Proof.
  destruct l as [|a r]; simpl; [contradiction|].
  intros [->|Hin]; [apply fold_min_le | now apply fold_min_lower].
Qed.

(** ** The key order and [sorted] *)

Lemma key_leb_total a b : key_leb a b = false -> key_leb b a = true.
Proof.
  unfold key_leb. destruct a as [a1 a2], b as [b1 b2]; simpl.
  rewrite orb_false_iff, andb_false_iff, orb_true_iff, andb_true_iff.
  rewrite !Z.ltb_ge, !Z.ltb_lt, !Z.eqb_neq, !Z.eqb_eq, Z.leb_gt, Z.leb_le. lia.
Qed.

Lemma key_leb_trans a b c :
  key_leb a b = true -> key_leb b c = true -> key_leb a c = true.
Proof.
  unfold key_leb. destruct a as [a1 a2], b as [b1 b2], c as [c1 c2]; simpl.
  rewrite !orb_true_iff, !andb_true_iff.
  rewrite !Z.ltb_lt, !Z.eqb_eq, !Z.leb_le. lia.
Qed.

Lemma key_leb_fst a b : key_leb a b = true -> fst a <= fst b.
Proof.
  unfold key_leb. rewrite orb_true_iff, andb_true_iff, Z.ltb_lt, Z.eqb_eq. lia.
Qed.

Section Sorted.
Context {A : Type} (key : A -> Z * Z).

Lemma insert_by_perm x l : Permutation (insert_by key x l) (x :: l).
Proof.
  induction l as [|y r IH]; simpl; [reflexivity|].
  destruct (key_leb (key x) (key y)); [reflexivity|].
  rewrite IH. apply perm_swap.
Qed.

Lemma sorted_perm l : Permutation (sorted key l) l.
Proof.
  induction l as [|x r IH]; simpl; [reflexivity|].
  rewrite insert_by_perm. now constructor.
Qed.

Lemma insert_by_sorted x l :
  StronglySorted (key_le key) l -> StronglySorted (key_le key) (insert_by key x l).
Proof.
  induction 1 as [|y r Hr IH Hy]; simpl.
  - repeat constructor.
  - destruct (key_leb (key x) (key y)) eqn:E.
    + constructor; [now constructor|].
      constructor; [exact E|].
      eapply Forall_impl; [|exact Hy].
      intros z Hz. unfold key_le in *. eapply key_leb_trans; eassumption.
    + constructor; [exact IH|].
      apply key_leb_total in E.
      assert (Hall : Forall (key_le key y) (x :: r)) by (constructor; assumption).
      rewrite Forall_forall in *. intros z Hz. apply Hall.
      eapply Permutation_in; [apply insert_by_perm | exact Hz].
Qed.

(** [sorted] sorts. *)
Lemma sorted_sorted l : StronglySorted (key_le key) (sorted key l).
Proof.
  induction l as [|x r IH]; simpl; [constructor | now apply insert_by_sorted].
Qed.

(** The first element of [sorted] has the least key. *)
Lemma sorted_head_least l h t x :
  sorted key l = h :: t -> In x l -> fst (key h) <= fst (key x).
Proof.
  intros E Hin.
  pose proof (sorted_sorted l) as Hs. rewrite E in Hs.
  apply StronglySorted_inv in Hs. destruct Hs as [_ Hh].
  assert (Hx : In x (h :: t)).
  { rewrite <- E. eapply Permutation_in; [symmetry; apply sorted_perm | exact Hin]. }
  destruct Hx as [->|Hx]; [lia|].
  rewrite Forall_forall in Hh. now apply key_leb_fst, Hh.
Qed.
End Sorted.

End DictFacts.

(* ================================================================== *)
(** * The turn scheduler *)
(* ================================================================== *)

Module TurnManagerFacts.
Import TurnManager TurnManagerNotions DictFacts.

Lemma item_get k d v : Dict.get k d = Some v -> item k d = v.
Proof. unfold item. now intros ->. Qed.

Lemma mem_get k (d : Dict.t Z) : Dict.mem k d = true -> exists v, Dict.get k d = Some v.
Proof. unfold Dict.mem. destruct (Dict.get k d); [eauto | discriminate]. Qed.

Lemma item_set_same k v d : item k (Dict.set k v d) = v.
Proof. apply item_get, get_set_same. Qed.

Lemma item_set_other k k' v d : k <> k' -> item k (Dict.set k' v d) = item k d.
Proof. intros H. unfold item. now rewrite get_set_other. Qed.

Lemma normalize_keys d : Dict.keys (normalize_values d) = Dict.keys d.
Proof.
  unfold normalize_values. destruct d as [|e r]; [reflexivity|].
  destruct (0 <? _); [apply keys_map_values | reflexivity].
Qed.

Lemma item_normalize k d :
  Dict.mem k d = true -> item k (normalize_values d) = item k d - offset d.
Proof.
  intros Hm. unfold normalize_values, offset.
  destruct d as [|e r]; [discriminate|].
  destruct (0 <? py_min (Dict.values (e :: r))); [|lia].
  destruct (mem_get _ _ Hm) as [v Hv].
  unfold item. now rewrite get_map_values, Hv.
Qed.

Lemma mem_keys_eq k (d d' : Dict.t Z) :
  Dict.keys d = Dict.keys d' -> Dict.mem k d = Dict.mem k d'.
Proof.
  intros E. destruct (Dict.mem k d) eqn:H1, (Dict.mem k d') eqn:H2; try reflexivity.
  - apply mem_In in H1. rewrite E in H1. apply mem_In in H1. congruence.
  - apply mem_In in H2. rewrite <- E in H2. apply mem_In in H2. congruence.
Qed.

Lemma god_player_name tm p : god_player tm = Some p -> player_name tm = Some p.
Proof.
  unfold god_player. destruct (player_name tm) as [q|]; [|discriminate].
  destruct (god_mode tm && Dict.mem q (time_units tm)); congruence.
Qed.

Lemma god_player_first key tm p :
  god_player tm = Some p -> exists r, _get_turn_order_by key tm = p :: r.
Proof. unfold _get_turn_order_by. intros ->. eauto. Qed.

(** In God mode the registered player heads the turn order in both modes. *)
Lemma god_player_heads_turn_order tm p :
  god_player tm = Some p -> exists r, get_turn_order tm = p :: r.
Proof.
  intros H. unfold get_turn_order, _get_turn_order_by_memories, _get_turn_order_by_tu.
  destruct (String.eqb (turn_mode tm) "memories"); now apply god_player_first.
Qed.

(** In memories mode the registered player in God mode is the next character. *)
Lemma god_player_next_by_memories tm p :
  god_player tm = Some p -> _get_next_character_by_memories tm = Some p.
Proof. unfold _get_next_character_by_memories. now intros ->. Qed.

(** The counters after [add_time_units] for a character that is charged. *)
Lemma add_time_units_units c raw tm :
  Dict.mem c (time_units tm) = true ->
  god_mode tm && is_name (player_name tm) c = false ->
  time_units (add_time_units c raw tm)
  = normalize_values
      (Dict.set c (item c (time_units tm) + adjusted_cost c raw tm) (time_units tm)).
Proof.
  intros Hm Hg. unfold add_time_units. rewrite Hm, Hg. reflexivity.
Qed.

Lemma add_time_units_keys c raw tm :
  Dict.keys (time_units (add_time_units c raw tm)) = Dict.keys (time_units tm).
Proof.
  unfold add_time_units.
  destruct (Dict.mem c (time_units tm)) eqn:Hm; simpl; [|reflexivity].
  rewrite normalize_keys.
  destruct (god_mode tm && is_name (player_name tm) c); [reflexivity|].
  now apply keys_set_mem.
Qed.

Lemma add_time_units_frame c raw tm :
  player_name (add_time_units c raw tm) = player_name tm
  /\ god_mode (add_time_units c raw tm) = god_mode tm
  /\ turn_mode (add_time_units c raw tm) = turn_mode tm.
Proof.
  unfold add_time_units. destruct (negb (Dict.mem c (time_units tm))); auto.
Qed.

Lemma god_player_add_time_units c raw tm :
  god_player (add_time_units c raw tm) = god_player tm.
Proof.
  unfold god_player.
  destruct (add_time_units_frame c raw tm) as (-> & -> & _).
  destruct (player_name tm) as [p|]; [|reflexivity].
  now rewrite (mem_keys_eq p _ _ (add_time_units_keys c raw tm)).
Qed.

(** The cost charged to a character other than the player that heads the
    order in front of [n]. *)
Lemma adjusted_cost_first c n rest raw tm :
  get_turn_order tm = c :: n :: rest ->
  is_name (player_name tm) c = false ->
  adjusted_cost c raw tm
  = Z.max raw (item n (time_units tm) - item c (time_units tm) + 1).
Proof.
  intros Ho Hp.
  assert (Hi : index_of c (c :: n :: rest) = 0)
    by (simpl; now rewrite String.eqb_refl).
  assert (Hl : (1 <? Z.of_nat (List.length (c :: n :: rest))) = true)
    by (apply Z.ltb_lt; simpl List.length; lia).
  unfold adjusted_cost. rewrite Ho, Hp, Hi, Hl. reflexivity.
Qed.

(** The cost charged to the player that heads the order in front of [n]. *)
Lemma adjusted_cost_player c n rest raw tm :
  get_turn_order tm = c :: n :: rest ->
  is_name (player_name tm) c = true ->
  adjusted_cost c raw tm
  = Z.min raw (Z.max 1 (item n (time_units tm) - item c (time_units tm) + 1)).
Proof.
  intros Ho Hp.
  assert (Hi : index_of c (c :: n :: rest) = 0)
    by (simpl; now rewrite String.eqb_refl).
  assert (Hl : (1 <? Z.of_nat (List.length (c :: n :: rest))) = true)
    by (apply Z.ltb_lt; simpl List.length; lia).
  unfold adjusted_cost. rewrite Ho, Hp, Hi, Hl. reflexivity.
Qed.

(** A character that does not head the order pays the cost as it is (for
    any other than the player, a negative cost counts as none). *)
Lemma adjusted_cost_not_first c x rest raw tm :
  get_turn_order tm = x :: rest -> x <> c ->
  adjusted_cost c raw tm
  = if is_name (player_name tm) c then raw else Z.max raw 0.
Proof.
  intros Ho Hx.
  assert (E : String.eqb c x = false) by (apply String.eqb_neq; congruence).
  assert (Hi : (index_of c (x :: rest) =? 0) = false).
  { simpl. rewrite E. destruct (index_of c rest <? 0) eqn:Ei; [reflexivity|].
    apply Z.eqb_neq. apply Z.ltb_ge in Ei. lia. }
  unfold adjusted_cost. rewrite Ho, Hi, andb_false_r. reflexivity.
Qed.

Lemma adjusted_cost_ge c raw tm :
  is_name (player_name tm) c = false -> raw <= adjusted_cost c raw tm.
Proof. intros Hp. unfold adjusted_cost. rewrite Hp. cbv zeta. lia. Qed.

Lemma turn_order_tu tm :
  turn_mode tm = "time_units" -> get_turn_order tm = _get_turn_order_by_tu tm.
Proof. unfold get_turn_order. now intros ->. Qed.

(** Without a God-mode player the order is the sorted key list, so its
    members are registered and pairwise distinct. *)
Lemma turn_order_members tm c n rest :
  Dict.wf (time_units tm) = true ->
  god_player tm = None ->
  _get_turn_order_by_tu tm = c :: n :: rest ->
  c <> n /\ Dict.mem c (time_units tm) = true /\ Dict.mem n (time_units tm) = true.
Proof.
  intros Hwf Hg Ho. unfold _get_turn_order_by_tu, _get_turn_order_by in Ho.
  rewrite Hg in Ho.
  pose proof (sorted_perm (tu_key tm) (Dict.keys (time_units tm))) as Hp.
  rewrite Ho in Hp.
  apply uniq_NoDup in Hwf.
  assert (Hnd : NoDup (c :: n :: rest))
    by (eapply Permutation_NoDup; [symmetry|]; eassumption).
  inversion Hnd as [|? ? Hc _]; subst.
  repeat split.
  - intros ->. apply Hc. now left.
  - apply mem_In. eapply Permutation_in; [exact Hp | now left].
  - apply mem_In. eapply Permutation_in; [exact Hp | right; now left].
Qed.


(** C3, as amended.  In time-units mode, when a registered character other
    than the player heads the turn order in front of another character and
    is charged any cost, its counter afterwards is strictly above the counter
    of the one that was second, and it no longer heads the order. *)
Theorem acting_first_falls_behind tm c n rest raw :
  Dict.wf (time_units tm) = true ->
  turn_mode tm = "time_units" ->
  get_turn_order tm = c :: n :: rest ->
  is_name (player_name tm) c = false ->
  item n (time_units (add_time_units c raw tm))
  < item c (time_units (add_time_units c raw tm))
  /\ (forall rest', get_turn_order (add_time_units c raw tm) <> c :: rest').
Proof.
  intros Hwf Hmode Ho Hp.
  assert (Hg : god_player tm = None).
  { destruct (god_player tm) as [p|] eqn:Eg; [|reflexivity].
    destruct (god_player_heads_turn_order tm p Eg) as [r Hr].
    rewrite Ho in Hr. injection Hr as -> _.
    apply god_player_name in Eg. rewrite Eg in Hp. simpl in Hp.
    now rewrite String.eqb_refl in Hp. }
  pose proof Ho as Ho'. rewrite (turn_order_tu tm Hmode) in Ho'.
  destruct (turn_order_members tm c n rest Hwf Hg Ho') as (Hcn & Hc & Hn).
  assert (Hgm : god_mode tm && is_name (player_name tm) c = false)
    by (rewrite Hp; apply andb_false_r).
  pose proof (add_time_units_units c raw tm Hc Hgm) as Hu.
  rewrite (adjusted_cost_first c n rest raw tm Ho Hp) in Hu.
  set (tm' := add_time_units c raw tm) in *.
  set (charged := Dict.set c _ (time_units tm)) in Hu.
  assert (Hkeys : Dict.keys charged = Dict.keys (time_units tm))
    by (apply keys_set_mem; exact Hc).
  assert (Hlt : item n (time_units tm') < item c (time_units tm')).
  { rewrite Hu, !item_normalize by (rewrite (mem_keys_eq _ _ _ Hkeys); assumption).
    unfold charged.
    rewrite item_set_same, item_set_other by congruence. lia. }
  split; [exact Hlt|].
  intros rest' Ho2.
  destruct (add_time_units_frame c raw tm) as (_ & _ & Hm').
  fold tm' in Hm'. rewrite Hmode in Hm'.
  rewrite (turn_order_tu tm' Hm') in Ho2.
  unfold _get_turn_order_by_tu, _get_turn_order_by in Ho2.
  assert (Hg' : god_player tm' = None)
    by (unfold tm'; rewrite god_player_add_time_units; exact Hg).
  rewrite Hg' in Ho2.
  assert (Hin : In n (Dict.keys (time_units tm'))).
  { unfold tm'. rewrite add_time_units_keys. now apply mem_In. }
  pose proof (sorted_head_least (tu_key tm') _ _ _ n Ho2 Hin) as Hle.
  simpl in Hle. lia.
Qed.

Lemma acting_first_falls_behind_witness :
  let tm := add_time_units "P" 1
              (register_character "A" false (register_character "P" true init)) in
  get_turn_order tm = ["A"; "P"]
  /\ item "P" (time_units (add_time_units "A" 2 tm))
     < item "A" (time_units (add_time_units "A" 2 tm))
  /\ (forall rest', get_turn_order (add_time_units "A" 2 tm) <> "A" :: rest').
Proof.
  split; [reflexivity|].
  apply (acting_first_falls_behind _ "A" "P" [] 2); reflexivity.
Defined.

(** C3 as stated fails for the player: with ["A"] five units behind, the
    player pays [min 1 (max 1 6) = 1] and still heads the order. *)
Lemma player_acting_first_stays_first : ~ falls_behind_whenever_unprivileged.
Proof.
  intros H.
  specialize (H player_ahead "P" "A" [] 1 eq_refl eq_refl eq_refl eq_refl).
  vm_compute in H. discriminate H.
Qed.

(** The player's side of the rule: the cost is capped, and the order can be
    left as it was. *)
Lemma player_keeps_the_lead :
  get_turn_order player_ahead = ["P"; "A"]
  /\ adjusted_cost "P" 1 player_ahead = 1
  /\ get_turn_order (add_time_units "P" 1 player_ahead) = ["P"; "A"].
Proof. repeat split. Qed.

(** C2.  The code at the failing input: after the player has acted once and
    God mode is switched on, in time-units mode the turn order starts with
    the player while [get_next_character] answers ["A"]. *)
Theorem next_character_by_tu_ignores_god_mode :
  let tm := set_god_mode true
              (add_time_units "P" 3
                 (register_character "A" false
                    (register_character "P" true init))) in
  god_player tm = Some "P"
  /\ turn_mode tm = "time_units"
  /\ get_turn_order tm = ["P"; "A"]
  /\ get_next_character tm = Some "A".
Proof. repeat split. Qed.

(** The time-units rule for the next character does not read the God-mode
    flag at all. *)
Lemma next_character_by_tu_blind_to_god_mode enabled tm :
  _get_next_character_by_tu (set_god_mode enabled tm) = _get_next_character_by_tu tm.
Proof. reflexivity. Qed.

(** What does hold of a God-mode player: first in the turn order in both
    modes, and next character in memories mode. *)
Lemma god_player_privileges tm p :
  god_player tm = Some p ->
  (exists r, get_turn_order tm = p :: r)
  /\ (turn_mode tm = "memories" -> get_next_character tm = Some p).
Proof.
  intros Hg. split; [now apply god_player_heads_turn_order|].
  intros Hm. unfold get_next_character. rewrite Hm. simpl.
  destruct (time_units tm) eqn:E.
  - unfold god_player in Hg. rewrite E in Hg.
    destruct (player_name tm); [|discriminate].
    rewrite andb_false_r in Hg. discriminate.
  - now apply god_player_next_by_memories.
Qed.

(** C4.  The code at the failing input: in memories mode ["A"], second in
    the order behind ["B"], passes with success and loses its count. *)
Theorem pass_out_of_turn_in_memories_mode :
  get_turn_order second_by_memories = ["B"; "A"; "P"]
  /\ item "A" (new_memories_count second_by_memories) = 1
  /\ fst (pass_turn "A" second_by_memories) = true
  /\ item "A" (new_memories_count (snd (pass_turn "A" second_by_memories))) = 0.
Proof. repeat split. Qed.

(** In memories mode every registered character other than a God-mode
    player passes with success whenever two characters are registered,
    wherever it stands in the order. *)
Lemma pass_turn_by_memories_unchecked c tm :
  turn_mode tm = "memories" ->
  god_mode tm && is_name (player_name tm) c = false ->
  Dict.mem c (time_units tm) = true ->
  1 < Z.of_nat (List.length (time_units tm)) ->
  fst (pass_turn c tm) = true
  /\ item c (new_memories_count (snd (pass_turn c tm))) = 0.
Proof.
  intros Hm Hg Hc Hl. unfold pass_turn. rewrite Hg, Hc, Hm.
  apply Z.ltb_lt in Hl. rewrite Hl. simpl. rewrite Hm. simpl.
  split; [reflexivity | apply item_set_same].
Qed.

(** Example scenario 2 of the specification: the character with new
    memories is next; once it has passed, all counts are 0 and the one that
    went longest ago is next. *)
Example most_memories_goes_first :
  get_next_character two_by_memories = Some "B"
  /\ fst (pass_turn "B" two_by_memories) = true
  /\ get_next_character (snd (pass_turn "B" two_by_memories)) = Some "A".
Proof. repeat split. Qed.

(** A refused pass leaves the scheduler as it was, in every mode. *)
Lemma pass_turn_refused c tm :
  fst (pass_turn c tm) = false -> snd (pass_turn c tm) = tm.
Proof.
  unfold pass_turn.
  destruct (god_mode tm && is_name (player_name tm) c); [reflexivity|].
  destruct (Dict.mem c (time_units tm) && _); [|reflexivity].
  destruct (String.eqb (turn_mode tm) "memories"); [discriminate|].
  destruct (negb _); [reflexivity | discriminate].
Qed.

(** The player in God mode never passes. *)
Lemma pass_turn_privileged c tm :
  god_mode tm && is_name (player_name tm) c = true -> pass_turn c tm = (false, tm).
Proof. unfold pass_turn. now intros ->. Qed.

Lemma turn_order_nonempty c tm :
  Dict.mem c (time_units tm) = true -> get_turn_order tm <> [].
Proof.
  intros Hc Ho.
  assert (H : forall key, _get_turn_order_by key tm <> []).
  { intros key. unfold _get_turn_order_by.
    destruct (god_player tm); [discriminate|]. intros E.
    pose proof (sorted_perm key (Dict.keys (time_units tm))) as Hp.
    rewrite E in Hp. apply Permutation_nil in Hp.
    apply mem_In in Hc. rewrite Hp in Hc. exact Hc. }
  unfold get_turn_order in Ho.
  destruct (String.eqb (turn_mode tm) "memories"); now apply H in Ho.
Qed.

(** X28.  Outside memories mode only the head of the order passes, and
    never the player in God mode. *)
Lemma pass_turn_by_tu_only_first c tm :
  String.eqb (turn_mode tm) "memories" = false ->
  fst (pass_turn c tm) = true ->
  (exists r, get_turn_order tm = c :: r)
  /\ god_mode tm && is_name (player_name tm) c = false.
Proof.
  unfold pass_turn. intros Hm.
  destruct (god_mode tm && is_name (player_name tm) c); [discriminate|].
  destruct (Dict.mem c (time_units tm)) eqn:Hc; [|discriminate].
  destruct (1 <? _); [|discriminate]. simpl. rewrite Hm.
  pose proof (turn_order_nonempty c tm Hc) as Hne.
  destruct (get_turn_order tm) as [|x r] eqn:Ho; [contradiction|]. simpl.
  destruct (String.eqb x c) eqn:E; simpl; [|discriminate].
  apply String.eqb_eq in E. subst x. eauto.
Qed.

(** C10.  In memories mode a charged character still takes the adjusted
    cost on its time-unit counter and the table is renormalised, by the same
    assignment as in time-units mode (the cost being adjusted against the
    order of the mode in force); its count of new memories goes to 0; and
    switching back to time-units mode keeps the table, which then decides
    the turn order. *)
Theorem cost_in_memories_mode_carries_over tm c raw :
  turn_mode tm = "memories" ->
  Dict.mem c (time_units tm) = true ->
  god_mode tm && is_name (player_name tm) c = false ->
  let tm' := add_time_units c raw tm in
  let twin := snd (set_turn_mode "time_units" tm) in
  let charged cost :=
    Dict.set c (item c (time_units tm) + cost) (time_units tm) in
  time_units tm' = normalize_values (charged (adjusted_cost c raw tm))
  /\ time_units (add_time_units c raw twin)
     = normalize_values (charged (adjusted_cost c raw twin))
  /\ (forall k, Dict.mem k (time_units tm) = true ->
        item k (time_units tm')
        = (if String.eqb k c
           then item c (time_units tm) + adjusted_cost c raw tm
           else item k (time_units tm))
          - offset (charged (adjusted_cost c raw tm)))
  /\ (is_name (player_name tm) c = false -> raw <= adjusted_cost c raw tm)
  /\ Dict.get c (new_memories_count tm') = Some 0
  /\ time_units (snd (set_turn_mode "time_units" tm')) = time_units tm'
  /\ get_turn_order (snd (set_turn_mode "time_units" tm'))
     = _get_turn_order_by_tu tm'.
Proof.
  intros Hmode Hc Hg tm' twin charged.
  assert (Hu : time_units tm' = normalize_values (charged (adjusted_cost c raw tm)))
    by (apply add_time_units_units; assumption).
  split; [exact Hu|].
  split; [apply (add_time_units_units c raw twin); assumption|].
  split.
  { intros k Hk. rewrite Hu.
    assert (Hkeys : Dict.keys (charged (adjusted_cost c raw tm))
                    = Dict.keys (time_units tm))
      by (apply keys_set_mem; exact Hc).
    rewrite item_normalize by (rewrite (mem_keys_eq _ _ _ Hkeys); assumption).
    unfold charged. destruct (String.eqb k c) eqn:E.
    - apply String.eqb_eq in E. subst k. now rewrite item_set_same.
    - apply String.eqb_neq in E. now rewrite item_set_other. }
  split; [apply adjusted_cost_ge|].
  split.
  { unfold tm', add_time_units. rewrite Hc. simpl. apply get_set_same. }
  split; reflexivity.
Qed.

Lemma cost_in_memories_mode_carries_over_witness :
  let tm := snd (set_turn_mode "memories"
                   (register_character "B" false
                      (register_character "A" false init))) in
  let tm' := add_time_units "A" 4 tm in
  Dict.get "A" (new_memories_count tm') = Some 0
  /\ time_units (snd (set_turn_mode "time_units" tm')) = time_units tm'
  /\ get_turn_order (snd (set_turn_mode "time_units" tm')) = ["B"; "A"].
Proof.
  pose proof (cost_in_memories_mode_carries_over
                (snd (set_turn_mode "memories"
                        (register_character "B" false
                           (register_character "A" false init))))
                "A" 4 eq_refl eq_refl eq_refl) as H.
  cbv zeta in H. destruct H as (_ & _ & _ & _ & Hm & Hs & Ho).
  split; [exact Hm|]. split; [exact Hs|]. rewrite Ho. reflexivity.
Defined.

(** ** The tables of the scheduler stay aligned *)

Lemma aligned_init : aligned init.
Proof. repeat split. Qed.

Lemma normalize_tu_aligned tm : aligned tm -> aligned (normalize_tu tm).
Proof.
  intros (Hw & Hl & Hm). unfold aligned, normalize_tu, Dict.wf. simpl.
  rewrite normalize_keys. auto.
Qed.

Lemma perform_aligned tm c : aligned tm -> aligned (perform tm c).
Proof.
  intros Ha. pose proof Ha as (Hw & Hl & Hm).
  destruct c as [name is_player | name | enabled | mode | character count
                | character tu_cost | character]; simpl.
  - unfold register_character.
    destruct (Dict.mem name (time_units tm)); [exact Ha|].
    unfold aligned. simpl. split; [now apply set_uniq|].
    split; now apply keys_set.
  - unfold remove_character.
    destruct (Dict.mem name (time_units tm)); [|exact Ha].
    unfold aligned. simpl. split; [now apply del_uniq|].
    split; now apply keys_del.
  - exact Ha.
  - unfold set_turn_mode. destruct (_ || _); exact Ha.
  - unfold increment_memory_count.
    destruct (Dict.get character (new_memories_count tm)) as [v|] eqn:E; [|exact Ha].
    unfold aligned. simpl. repeat split; try assumption.
    rewrite keys_set_mem; [assumption|]. unfold Dict.mem. now rewrite E.
  - unfold add_time_units.
    destruct (Dict.mem character (time_units tm)) eqn:E; simpl; [|exact Ha].
    apply normalize_tu_aligned. unfold aligned. simpl.
    assert (Hk : Dict.keys (if god_mode tm && is_name (player_name tm) character
                            then time_units tm
                            else Dict.set character
                                   (item character (time_units tm)
                                    + adjusted_cost character tu_cost tm)
                                   (time_units tm))
                 = Dict.keys (time_units tm)).
    { destruct (god_mode tm && _); [reflexivity | now apply keys_set_mem]. }
    unfold Dict.wf. rewrite Hk. split; [exact Hw|].
    rewrite !keys_set_mem; auto.
    + now rewrite (mem_keys _ _ (time_units tm)).
    + now rewrite (mem_keys _ _ (time_units tm)).
  - unfold pass_turn.
    destruct (god_mode tm && _); [exact Ha|].
    destruct (Dict.mem character (time_units tm)) eqn:E; [|exact Ha].
    destruct (1 <? _); [|exact Ha]. simpl.
    assert (Hlm : Dict.mem character (last_turn_time tm) = true)
      by now rewrite (mem_keys _ _ (time_units tm)).
    assert (Hmm : Dict.mem character (new_memories_count tm) = true)
      by now rewrite (mem_keys _ _ (time_units tm)).
    destruct (String.eqb (turn_mode tm) "memories") eqn:Em.
    + apply String.eqb_eq in Em.
      assert (Et : String.eqb (turn_mode tm) "time_units" = false)
        by (rewrite Em; reflexivity).
      simpl. rewrite Et. unfold aligned. simpl.
      rewrite !keys_set_mem by assumption. auto.
    + destruct (negb _); [exact Ha|]. simpl.
      assert (Hk : forall v, Dict.keys (Dict.set character v (time_units tm))
                             = Dict.keys (time_units tm))
        by (intros v; now apply keys_set_mem).
      assert (Hal : forall v,
                 aligned (mk (Dict.set character v (time_units tm))
                             (turn_history tm ++ [character])
                             (Dict.set character
                                (Z.of_nat (List.length (turn_history tm ++ [character])))
                                (last_turn_time tm))
                             (player_name tm) (god_mode tm) (turn_mode tm)
                             (new_memories_count tm))).
      { intros v. unfold aligned, Dict.wf. simpl.
        rewrite Hk, keys_set_mem by assumption. auto. }
      destruct (1 <? _); destruct (String.eqb (turn_mode tm) "time_units");
        try apply normalize_tu_aligned; apply Hal.
Qed.

(** X1.  Every state the scheduler reaches from its creation, by whatever
    calls, is aligned: the three tables hold the same characters, in the
    same order, once each. *)
Lemma reachable_aligned calls : aligned (fold_left perform calls init).
Proof.
  assert (H : forall tm, aligned tm -> aligned (fold_left perform calls tm)).
  { induction calls as [|c l IH]; intros tm Ha; [exact Ha|].
    simpl. apply IH. now apply perform_aligned. }
  apply H, aligned_init.
Qed.

End TurnManagerFacts.

(* ================================================================== *)
(** * The event dispatcher *)
(* ================================================================== *)

Module EventDispatcherFacts.
Import Event EventDispatcher EventDispatcherNotions DictFacts.

Lemma is_empty_app a b :
  PyStr.is_empty (a ++ b)%string = PyStr.is_empty a && PyStr.is_empty b.
Proof. destruct a; reflexivity. Qed.

Lemma notify_one_observer etype ev d o c :
  In c (notify_one etype ev d o) -> call_observer c = o.
Proof.
  unfold notify_one.
  destruct (String.eqb o _ && _); [contradiction|].
  destruct (PyStr.is_empty _); [contradiction|].
  destruct (Dict.get o (observers d)); [|contradiction].
  intros [<-|[]]. reflexivity.
Qed.

Lemma dispatch_event_observer etype ev d c :
  In c (dispatch_event etype ev d) ->
  In (call_observer c) (observers_to_notify etype ev d).
Proof.
  unfold dispatch_event. rewrite in_flat_map. intros (o & Ho & Hc).
  now rewrite (notify_one_observer _ _ _ _ _ Hc).
Qed.

Lemma observers_to_notify_registered etype ev d o :
  In o (observers_to_notify etype ev d) -> In o (Dict.keys (observers d)).
Proof.
  unfold observers_to_notify.
  destruct (is_error ev).
  - destruct (Dict.mem _ (observers d)) eqn:E; [|contradiction].
    intros [<-|[]]. now apply mem_In.
  - destruct (String.eqb etype "shout"); [auto|].
    destruct (String.eqb etype "movement"); intros H; apply filter_In in H; tauto.
Qed.

Lemma observers_to_notify_NoDup etype ev d :
  Dict.wf (observers d) = true -> NoDup (observers_to_notify etype ev d).
Proof.
  intros Hwf. apply uniq_NoDup in Hwf. unfold observers_to_notify.
  destruct (is_error ev).
  - destruct (Dict.mem _ (observers d)); repeat constructor. intros [].
  - destruct (String.eqb etype "shout"); [assumption|].
    destruct (String.eqb etype "movement"); now apply NoDup_filter.
Qed.

(** One call per observer at most. *)
Lemma flat_map_notify_NoDup etype ev d l :
  NoDup l -> NoDup (map call_observer (flat_map (notify_one etype ev d) l)).
Proof.
  induction 1 as [|o l Hn Hl IH]; simpl; [constructor|].
  rewrite map_app.
  assert (Hone : map call_observer (notify_one etype ev d o) = []
                 \/ map call_observer (notify_one etype ev d o) = [o]).
  { unfold notify_one.
    destruct (String.eqb o _ && _); [now left|].
    destruct (PyStr.is_empty _); [now left|].
    destruct (Dict.get o (observers d)); [now right | now left]. }
  destruct Hone as [-> | ->]; simpl; [assumption|].
  constructor; [|assumption].
  rewrite in_map_iff. intros (c & Hc & Hin).
  apply in_flat_map in Hin. destruct Hin as (o' & Ho' & Hc').
  apply notify_one_observer in Hc'. congruence.
Qed.

(** The registry keeps one entry per name. *)
Lemma register_wf name cb d :
  Dict.wf (observers d) = true -> Dict.wf (observers (register name cb d)) = true.
Proof. apply set_uniq. Qed.

Lemma unregister_wf name d :
  Dict.wf (observers d) = true -> Dict.wf (observers (unregister name d)) = true.
Proof.
  intros H. unfold unregister.
  destruct (Dict.mem name (observers d)); [now apply del_uniq | exact H].
Qed.

Lemma first_person_cases etype :
  existsb (String.eqb etype) first_person_types = true ->
  etype = "speech" \/ etype = "shout" \/ etype = "emote" \/ etype = "observation".
Proof.
  intros H. apply existsb_eqb_In in H. simpl in H.
  intuition (subst; auto).
Qed.


(** The text for a bystander is not empty once the two filters on the
    message have let it through. *)
Lemma bystander_text_not_empty etype ev o :
  existsb (String.eqb etype) first_person_types = true ->
  o <> or_default (actor ev) "unknown" ->
  PyStr.contains warning_sign (or_default (message ev) EmptyString) = false ->
  PyStr.contains "You say:" (or_default (message ev) EmptyString) = false ->
  PyStr.is_empty (_format_for_observer etype ev o) = false.
Proof.
  intros Ht Ho Hw Hy.
  apply String.eqb_neq in Ho.
  unfold _format_for_observer. rewrite Hw, Hy, Ho. simpl.
  destruct (first_person_cases etype Ht) as [-> | [-> | [-> | ->]]]; simpl;
    rewrite !is_empty_app; simpl; now rewrite andb_false_r.
Qed.

(** The actor of an event of one of the four types gets no call for it. *)
Lemma own_echo_held_back etype ev d :
  existsb (String.eqb etype) first_person_types = true ->
  notify_one etype ev d (or_default (actor ev) "unknown") = [].
Proof.
  intros Ht. unfold notify_one. rewrite String.eqb_refl.
  destruct (first_person_cases etype Ht) as [-> | [-> | [-> | ->]]];
    try reflexivity.
  simpl. unfold _format_for_observer. rewrite String.eqb_refl. simpl.
  rewrite !andb_false_r. reflexivity.
Qed.

(** C5, as amended.  For an event of type speech, shout, emote or
    observation sent through [dispatch_event], the actor's own callback is
    never invoked.  Every other observer in the recipient set of the
    location and shout rules is called, with the text rendered for it,
    provided the event is not taken for an error (its description carries
    neither the warning sign nor [Failed:]) and its message carries neither
    the warning sign nor the words [You say:]. *)
Theorem own_echo_suppressed_bystanders_served etype ev d :
  existsb (String.eqb etype) first_person_types = true ->
  (forall c, In c (dispatch_event etype ev d) ->
             call_observer c <> or_default (actor ev) "unknown")
  /\ (is_error ev = false ->
      PyStr.contains warning_sign (or_default (message ev) EmptyString) = false ->
      PyStr.contains "You say:" (or_default (message ev) EmptyString) = false ->
      forall o, In o (recipients_by_rule etype ev d) ->
                o <> or_default (actor ev) "unknown" ->
                exists cb,
                  Dict.get o (observers d) = Some cb
                  /\ In (mk_call cb etype (_format_for_observer etype ev o) o)
                        (dispatch_event etype ev d)).
Proof.
  intros Ht. split.
  - intros c Hc Hactor.
    unfold dispatch_event in Hc. apply in_flat_map in Hc.
    destruct Hc as (o & Ho & Hc).
    pose proof (notify_one_observer _ _ _ _ _ Hc) as E.
    rewrite Hactor in E. subst o.
    now rewrite own_echo_held_back in Hc.
  - intros He Hw Hy o Hin Ho.
    assert (Hr : observers_to_notify etype ev d = recipients_by_rule etype ev d).
    { unfold observers_to_notify, recipients_by_rule. rewrite He.
      destruct (String.eqb etype "shout"); [reflexivity|].
      destruct (first_person_cases etype Ht) as [-> | [-> | [-> | ->]]];
        reflexivity. }
    rewrite <- Hr in Hin.
    pose proof (observers_to_notify_registered _ _ _ _ Hin) as Hreg.
    apply mem_In in Hreg. unfold Dict.mem in Hreg.
    destruct (Dict.get o (observers d)) as [cb|] eqn:Eg; [|discriminate].
    exists cb. split; [reflexivity|].
    unfold dispatch_event. apply in_flat_map. exists o. split; [assumption|].
    unfold notify_one.
    assert (E : String.eqb o (or_default (actor ev) "unknown") = false)
      by now apply String.eqb_neq.
    rewrite E. simpl.
    rewrite (bystander_text_not_empty etype ev o Ht Ho Hw Hy), Eg. now left.
Qed.

Lemma own_echo_suppressed_bystanders_served_witness :
  recipients_by_rule "observation" kitchen_observation kitchen_registry
  = ["Bob"; "Alice"]
  /\ ~ In (mk_call 1%nat "observation" "Bob looks around" "Bob")
          (dispatch_event "observation" kitchen_observation kitchen_registry)
  /\ exists cb,
       Dict.get "Alice" (observers kitchen_registry) = Some cb
       /\ In (mk_call cb "observation"
                (_format_for_observer "observation" kitchen_observation "Alice")
                "Alice")
             (dispatch_event "observation" kitchen_observation kitchen_registry).
Proof.
  destruct (own_echo_suppressed_bystanders_served
              "observation" kitchen_observation kitchen_registry eq_refl)
    as [H1 H2].
  split; [reflexivity|]. split.
  - intros Hc. now apply (H1 _ Hc).
  - apply (H2 eq_refl eq_refl eq_refl "Alice").
    + right. left. reflexivity.
    + discriminate.
Defined.

(** The proviso on errors is needed: Alice stands in the kitchen with Bob
    and is in the recipient set of the location rule, but a speech whose
    words read as a failure is taken for an error and reaches nobody. *)
Example failing_speech_not_heard :
  In "Alice" (recipients_by_rule "speech" failing_speech kitchen_registry)
  /\ PyStr.contains warning_sign "Failed: the oven" = false
  /\ PyStr.contains "You say:" "Failed: the oven" = false
  /\ dispatch_event "speech" failing_speech kitchen_registry = [].
Proof. repeat split. right. left. reflexivity. Qed.

(** C5 as stated fails: Alice stands in the kitchen with Bob, is in the list
    to notify, and gets no call for a speech whose message contains
    [You say:]. *)
Lemma quoting_speech_not_heard : ~ echo_held_back_and_bystanders_served.
Proof.
  intros H.
  destruct (H "speech" quoting_speech kitchen_registry eq_refl eq_refl) as [_ H2].
  destruct (H2 "Alice") as (c & Hc & _).
  - vm_compute. right. now left.
  - discriminate.
  - vm_compute in Hc. exact Hc.
Qed.

(** Example scenario 3 of the specification. *)
Example kitchen_observation_calls :
  dispatch_event "observation" kitchen_observation kitchen_registry
  = [mk_call 2%nat "observation" "Bob looks around" "Alice"].
Proof. reflexivity. Qed.

(** Example scenario 4 of the specification. *)
Example kitchen_movement_calls :
  dispatch_event "movement" bob_moves kitchen_registry
  = [ mk_call 2%nat "movement" "Bob moved to Garden." "Alice";
      mk_call 3%nat "movement" "Bob moved from Kitchen." "Carol" ].
Proof. reflexivity. Qed.



End EventDispatcherFacts.

(* ================================================================== *)
(** * The event bus *)
(* ================================================================== *)

Module EventBusFacts.
Import Event EventBus EventBusNotions DictFacts.

Lemma entries_set_same {A : Type} k (v : list A) d :
  entries k (Dict.set k v d) = v.
Proof. unfold entries. now rewrite get_set_same. Qed.

Lemma entries_set_other {A : Type} k k' (v : list A) d :
  k <> k' -> entries k (Dict.set k' v d) = entries k d.
Proof. intros H. unfold entries. now rewrite get_set_other. Qed.


Lemma get_filter_inv {V : Type} (keep : string * V -> bool) k v (d : Dict.t V) :
  Dict.get k (filter keep d) = Some v -> In (k, v) d /\ keep (k, v) = true.
Proof.
  induction d as [|[k' v'] r IH]; simpl; [discriminate|].
  destruct (keep (k', v')) eqn:Ek; simpl.
  - destruct (String.eqb k k') eqn:E.
    + apply String.eqb_eq in E. subst k'. intros [= ->]. auto.
    + intros H. destruct (IH H). auto.
  - intros H. destruct (IH H). auto.
Qed.

Lemma get_In {V : Type} k v (d : Dict.t V) : Dict.get k d = Some v -> In (k, v) d.
Proof.
  induction d as [|[k' v'] r IH]; simpl; [discriminate|].
  destruct (String.eqb k k') eqn:E; [|auto].
  apply String.eqb_eq in E. subst k'. intros [= ->]. auto.
Qed.

Lemma In_set {V : Type} k v k0 v0 (d : Dict.t V) :
  In (k, v) (Dict.set k0 v0 d) -> (k, v) = (k0, v0) \/ In (k, v) d.
Proof.
  induction d as [|[k' v'] r IH]; simpl.
  - intros [H|[]]; auto.
  - destruct (String.eqb k0 k'); simpl; intros [H|H]; auto.
    destruct (IH H); auto.
Qed.

Section Hash.
(** [hashlib.md5(s.encode()).hexdigest()], any function. *)
Variable md5 : string -> string.


Section Loop.
Variables (event_type description fingerprint : string) (ev : data) (now : Z).

Let body := notify_one event_type description fingerprint ev now.

Lemma notify_one_eq bus calls o :
  body (bus, calls) o
  = (if seen_by bus o fingerprint now
     then snd (observer_has_seen_event o fingerprint now bus)
     else record_observer_event o fingerprint now
            (snd (observer_has_seen_event o fingerprint now bus)),
     if seen_by bus o fingerprint now then calls
     else calls ++ calls_for event_type description ev bus o).
Proof.
  unfold body, notify_one, seen_by, calls_for.
  destruct (observer_has_seen_event o fingerprint now bus) as [seen b] eqn:E.
  simpl. destruct seen; [reflexivity|].
  unfold observer_has_seen_event in E. injection E as _ <-. reflexivity.
Qed.

Lemma notify_one_frame bus calls o :
  let bus' := fst (body (bus, calls) o) in
  observers bus' = observers bus
  /\ recent_events bus' = recent_events bus
  /\ event_expiry bus' = event_expiry bus
  /\ (forall o', o' <> o ->
        entries o' (observer_recent_events bus')
        = entries o' (observer_recent_events bus)).
Proof.
  rewrite notify_one_eq. simpl.
  destruct (seen_by bus o fingerprint now); simpl; repeat split; auto;
    intros o' Ho'; rewrite ?entries_set_other by assumption; reflexivity.
Qed.

Lemma seen_by_frame bus bus' o :
  event_expiry bus' = event_expiry bus ->
  entries o (observer_recent_events bus') = entries o (observer_recent_events bus) ->
  seen_by bus' o fingerprint now = seen_by bus o fingerprint now.
Proof.
  intros He Ho. unfold seen_by, observer_has_seen_event, fresh. simpl.
  now rewrite He, Ho.
Qed.

Lemma calls_for_frame bus bus' o :
  observers bus' = observers bus ->
  calls_for event_type description ev bus' o
  = calls_for event_type description ev bus o.
Proof. unfold calls_for. now intros ->. Qed.

(** The loop leaves the registry and the global record alone. *)
Lemma loop_frame l : forall bus calls,
  let bus' := fst (fold_left body l (bus, calls)) in
  observers bus' = observers bus
  /\ recent_events bus' = recent_events bus
  /\ event_expiry bus' = event_expiry bus.
Proof.
  induction l as [|o l IH]; intros bus calls; cbn [fold_left]; [auto|].
  destruct (body (bus, calls) o) as [b1 c1] eqn:E.
  pose proof (notify_one_frame bus calls o) as F. rewrite E in F. simpl in F.
  destruct F as (F1 & F2 & F3 & _).
  destruct (IH b1 c1) as (G1 & G2 & G3).
  cbv zeta. repeat split; congruence.
Qed.

(** When no observer has the event on record, everyone is served. *)
Lemma loop_all_served l : forall bus calls,
  NoDup l ->
  (forall o, In o l -> seen_by bus o fingerprint now = false) ->
  snd (fold_left body l (bus, calls))
  = calls ++ flat_map (calls_for event_type description ev bus) l.
Proof.
  induction l as [|o l IH]; intros bus calls Hnd Hseen; cbn [fold_left flat_map snd].
  - now rewrite app_nil_r.
  - inversion Hnd as [|? ? Ho Hl]; subst.
    pose proof (notify_one_frame bus calls o) as F.
    rewrite notify_one_eq in F |- *. rewrite (Hseen o) in F |- * by now left.
    cbv zeta in F. cbn [fst snd] in F |- *.
    set (b1 := record_observer_event _ _ _ _) in *.
    destruct F as (F1 & _ & F3 & F4).
    rewrite IH; [| assumption |].
    + rewrite <- app_assoc. reflexivity.
    + intros o' Ho'.
      rewrite (seen_by_frame bus b1); [apply Hseen; now right | assumption |].
      apply F4. intros ->. contradiction.
Qed.

End Loop.


Lemma distinct_NoDup l : distinct l = true -> NoDup l.
Proof.
  induction l as [|x r IH]; simpl; [constructor|].
  rewrite andb_true_iff, negb_true_iff. intros [Hx Hr].
  constructor; [|auto]. intros Hin.
  assert (has_callback x r = true); [|congruence].
  unfold has_callback. apply existsb_exists. exists x.
  split; [assumption | apply Nat.eqb_refl].
Qed.

Lemma registry_ok_spec bus :
  registry_ok bus = true ->
  NoDup (Dict.keys (observers bus)) /\ callbacks_once bus.
Proof.
  unfold registry_ok. rewrite andb_true_iff. intros [Hwf Hall].
  split; [now apply uniq_NoDup|].
  intros o. unfold entries.
  destruct (Dict.get o (observers bus)) as [l|] eqn:E; [|constructor].
  apply get_In in E. rewrite forallb_forall in Hall.
  apply distinct_NoDup. apply (Hall _ E).
Qed.

Lemma recipients_NoDup etype ev bus :
  NoDup (Dict.keys (observers bus)) -> NoDup (observers_to_notify etype ev bus).
Proof.
  intros H. unfold observers_to_notify.
  destruct (String.eqb etype "shout"); [assumption|].
  destruct (String.eqb etype "movement").
  - destruct (truthy (origin ev) && truthy (destination ev));
      [now apply NoDup_filter | constructor].
  - now apply NoDup_filter.
Qed.

Lemma observers_to_notify_frame etype ev bus bus' :
  observers bus' = observers bus ->
  observers_to_notify etype ev bus' = observers_to_notify etype ev bus.
Proof. unfold observers_to_notify. now intros ->. Qed.

(** Instantiate a lemma about the notification loop at the loop in the goal. *)
Ltac with_loop lemma k :=
  match goal with
  | |- context [fold_left (notify_one ?a ?b ?c ?d ?e) ?l (?b0, ?c0)] =>
      k (lemma a b c d e l b0 c0)
  end.

Lemma publish_dropped etype description ev now bus :
  is_recent_duplicate (fingerprint_of md5 etype description ev now) now bus = true ->
  EventBus.publish md5 etype description ev now bus = (bus, []).
Proof. unfold EventBus.publish, fingerprint_of. now intros ->. Qed.

Lemma publish_passed etype description ev now bus :
  is_recent_duplicate (fingerprint_of md5 etype description ev now) now bus = false ->
  EventBus.publish md5 etype description ev now bus
  = fold_left
      (notify_one etype (publish_description etype description)
                  (fingerprint_of md5 etype description ev now)
                  (publish_data etype ev) now)
      (observers_to_notify etype (publish_data etype ev) bus)
      (recorded (fingerprint_of md5 etype description ev now) now bus, []).
Proof. unfold EventBus.publish, fingerprint_of. now intros ->. Qed.

Lemma publish_frame etype description ev now bus :
  observers (fst (EventBus.publish md5 etype description ev now bus))
  = observers bus
  /\ event_expiry (fst (EventBus.publish md5 etype description ev now bus))
     = event_expiry bus.
Proof.
  destruct (is_recent_duplicate (fingerprint_of md5 etype description ev now) now bus)
    eqn:E.
  - rewrite publish_dropped by assumption. auto.
  - rewrite publish_passed by assumption.
    with_loop loop_frame ltac:(fun F => destruct F as (F1 & _ & F3)).
    cbv zeta in F1, F3. rewrite F1, F3. auto.
Qed.





(** ** Time stamps *)











End Hash.


(** Unlike the dispatcher, the bus holds nothing back from the actor: Bob's
    callback gets his own speech, put in the first person. *)
Example bus_echoes_to_the_actor :
  snd (EventBus.publish (fun s => s) "speech" "Bob says: hi" bob_speaks 0 kitchen_bus)
  = [ mk_call 1%nat "speech" "You say: hi" "Bob";
      mk_call 2%nat "speech" "Bob says: hi" "Alice" ].
Proof. reflexivity. Qed.

End EventBusFacts.

(* ================================================================== *)
(** * The two observer registries *)
(* ================================================================== *)

Module RegistryFacts.
Import Event EventBusNotions DictFacts.

Lemma has_callback_app c l l' :
  EventBus.has_callback c (l ++ l')
  = EventBus.has_callback c l || EventBus.has_callback c l'.
Proof. unfold EventBus.has_callback. apply existsb_app. Qed.

Lemma bus_register_has name c bus :
  EventBus.has_callback c
    (EventBus.entries name (EventBus.observers (EventBus.register name c bus))) = true.
Proof.
  unfold EventBus.register.
  destruct (EventBus.has_callback c (EventBus.entries name (EventBus.observers bus)))
    eqn:E; [exact E|]. simpl.
  rewrite EventBusFacts.entries_set_same, has_callback_app. simpl.
  now rewrite Nat.eqb_refl, orb_true_r.
Qed.

Lemma bus_register_keeps name c c' bus :
  EventBus.has_callback c (EventBus.entries name (EventBus.observers bus)) = true ->
  EventBus.has_callback c
    (EventBus.entries name (EventBus.observers (EventBus.register name c' bus))) = true.
Proof.
  intros H. unfold EventBus.register.
  destruct (EventBus.has_callback c' (EventBus.entries name (EventBus.observers bus)));
    [exact H|]. simpl.
  rewrite EventBusFacts.entries_set_same, has_callback_app. now rewrite H.
Qed.

Lemma bus_register_twice name c bus :
  EventBus.register name c (EventBus.register name c bus)
  = EventBus.register name c bus.
Proof.
  unfold EventBus.register at 1. now rewrite bus_register_has.
Qed.

(** ** The registry of the bus stays well formed *)

Lemma forallb_set {V : Type} (p : string * V -> bool) k v (d : Dict.t V) :
  forallb p d = true -> p (k, v) = true -> forallb p (Dict.set k v d) = true.
Proof.
  intros Hd Hk. induction d as [|[k' v'] r IH]; simpl in *.
  - now rewrite Hk.
  - apply andb_true_iff in Hd. destruct Hd as [H1 H2].
    destruct (String.eqb k k'); simpl; rewrite ?Hk, ?H1; auto.
Qed.

Lemma forallb_del {V : Type} (p : string * V -> bool) k (d : Dict.t V) :
  forallb p d = true -> forallb p (Dict.del k d) = true.
Proof.
  induction d as [|[k' v'] r IH]; simpl; [auto|].
  rewrite andb_true_iff. intros [H1 H2].
  destruct (String.eqb k k'); simpl; rewrite ?H1; auto.
Qed.

Lemma entries_distinct name bus :
  registry_ok bus = true ->
  distinct (EventBus.entries name (EventBus.observers bus)) = true.
Proof.
  unfold registry_ok. rewrite andb_true_iff. intros [_ H].
  unfold EventBus.entries.
  destruct (Dict.get name (EventBus.observers bus)) as [l|] eqn:E; [|reflexivity].
  apply EventBusFacts.get_In in E. rewrite forallb_forall in H. apply (H _ E).
Qed.

Lemma distinct_snoc c l :
  distinct l = true -> EventBus.has_callback c l = false ->
  distinct (l ++ [c]) = true.
Proof.
  induction l as [|x r IH]; simpl; [reflexivity|].
  rewrite andb_true_iff, negb_true_iff, orb_false_iff. intros [Hx Hr] [Hc Hcr].
  rewrite has_callback_app, Hx, IH by assumption. simpl.
  rewrite Nat.eqb_sym, Hc. reflexivity.
Qed.

Lemma has_callback_remove_first x c l :
  EventBus.has_callback x l = false ->
  EventBus.has_callback x (EventBus.remove_first c l) = false.
Proof.
  induction l as [|y r IH]; simpl; [auto|].
  rewrite orb_false_iff. intros [H1 H2].
  destruct (Nat.eqb c y); simpl; rewrite ?H1; auto.
Qed.

Lemma distinct_remove_first c l :
  distinct l = true -> distinct (EventBus.remove_first c l) = true.
Proof.
  induction l as [|x r IH]; simpl; [auto|].
  rewrite andb_true_iff, negb_true_iff. intros [Hx Hr].
  destruct (Nat.eqb c x); simpl; [assumption|].
  now rewrite has_callback_remove_first, IH.
Qed.

Lemma registry_ok_init : registry_ok EventBus.init = true.
Proof. reflexivity. Qed.

Lemma register_ok name c bus :
  registry_ok bus = true -> registry_ok (EventBus.register name c bus) = true.
Proof.
  intros Hok. pose proof (entries_distinct name bus Hok) as Hd.
  unfold EventBus.register.
  destruct (EventBus.has_callback c (EventBus.entries name (EventBus.observers bus)))
    eqn:E; [exact Hok|].
  unfold registry_ok in *. simpl. apply andb_true_iff in Hok.
  destruct Hok as [Hw Hf]. apply andb_true_iff. split.
  - now apply set_uniq.
  - apply forallb_set; [assumption|]. simpl. now apply distinct_snoc.
Qed.

Lemma unregister_ok name c bus :
  registry_ok bus = true -> registry_ok (EventBus.unregister name c bus) = true.
Proof.
  intros Hok. pose proof (entries_distinct name bus Hok) as Hd.
  unfold registry_ok in Hok. apply andb_true_iff in Hok. destruct Hok as [Hw Hf].
  unfold EventBus.unregister. destruct c as [c|].
  - destruct (Dict.mem name (EventBus.observers bus) && _);
      unfold registry_ok; simpl; apply andb_true_iff; split; auto.
    + now apply set_uniq.
    + apply forallb_set; [assumption|]. simpl. now apply distinct_remove_first.
  - destruct (Dict.mem name (EventBus.observers bus));
      unfold registry_ok; simpl; apply andb_true_iff; split; auto.
    + now apply del_uniq.
    + now apply forallb_del.
Qed.

(** C8, as amended.  The registry of the dispatcher has replace semantics:
    registering [c1] and then [c2] under a name leaves it as registering
    [c2] alone does, it keeps one entry per name, and a dispatched event
    calls at most one callback per observer.  The registry of the event bus
    keeps a list per name: [c1] is still registered after [c2] has been, and
    registering the same callback again changes nothing. *)
Theorem registry_semantics name c1 c2 etype ev
        (d : EventDispatcher.t) (bus : EventBus.t) :
  Dict.wf (EventDispatcher.observers d) = true ->
  EventDispatcher.register name c2 (EventDispatcher.register name c1 d)
  = EventDispatcher.register name c2 d
  /\ Dict.wf (EventDispatcher.observers (EventDispatcher.register name c2 d)) = true
  /\ NoDup (map call_observer
                (EventDispatcher.dispatch_event
                   etype ev (EventDispatcher.register name c2 d)))
  /\ EventBus.has_callback c1
       (EventBus.entries name
          (EventBus.observers
             (EventBus.register name c2 (EventBus.register name c1 bus)))) = true
  /\ EventBus.register name c2 (EventBus.register name c2 bus)
     = EventBus.register name c2 bus.
Proof.
  intros Hwf.
  assert (Hwf2 : Dict.wf (EventDispatcher.observers (EventDispatcher.register name c2 d))
                 = true) by now apply EventDispatcherFacts.register_wf.
  split.
  { unfold EventDispatcher.register. simpl. f_equal.
    apply set_set. }
  split; [exact Hwf2|]. split.
  { unfold EventDispatcher.dispatch_event.
    apply EventDispatcherFacts.flat_map_notify_NoDup.
    now apply EventDispatcherFacts.observers_to_notify_NoDup. }
  split; [apply bus_register_keeps, bus_register_has | apply bus_register_twice].
Qed.

Lemma registry_semantics_witness :
  let d := EventDispatcherNotions.kitchen_registry in
  EventDispatcher.register "Alice" 8%nat (EventDispatcher.register "Alice" 7%nat d)
  = EventDispatcher.register "Alice" 8%nat d
  /\ Dict.wf (EventDispatcher.observers (EventDispatcher.register "Alice" 8%nat d)) = true
  /\ NoDup (map call_observer
                (EventDispatcher.dispatch_event
                   "shout" EventDispatcherNotions.kitchen_observation
                   (EventDispatcher.register "Alice" 8%nat d)))
  /\ EventBus.has_callback 7%nat
       (EventBus.entries "Alice"
          (EventBus.observers
             (EventBus.register "Alice" 8%nat
                (EventBus.register "Alice" 7%nat EventBus.init)))) = true
  /\ EventBus.register "Alice" 8%nat (EventBus.register "Alice" 8%nat EventBus.init)
     = EventBus.register "Alice" 8%nat EventBus.init.
Proof.
  apply (registry_semantics "Alice" 7%nat 8%nat "shout"
           EventDispatcherNotions.kitchen_observation
           EventDispatcherNotions.kitchen_registry EventBus.init).
  reflexivity.
Defined.

(** C8 as stated fails on the event bus: after [register] of callback 1 and
    then of callback 2 for Alice the registry differs from the one with
    callback 2 alone, and a speech in her room calls both. *)
Lemma event_bus_keeps_both_callbacks :
  let both := EventBus.register "Alice" 2%nat
                (EventBus.register "Alice" 1%nat EventBus.init) in
  both <> EventBus.register "Alice" 2%nat EventBus.init
  /\ snd (EventBus.publish (fun s => s) "speech" "Bob says: hi"
                           EventBusNotions.bob_speaks 0 both)
     = [ mk_call 1%nat "speech" "Bob says: hi" "Alice";
         mk_call 2%nat "speech" "Bob says: hi" "Alice" ].
Proof. split; [discriminate | reflexivity]. Qed.

End RegistryFacts.

(* ================================================================== *)
(** * Lines of text *)
(* ================================================================== *)

Module PyStrFacts.
Import PyStr PyStrNotions.

Lemma append_assoc (a b c : string) : ((a ++ b) ++ c = a ++ (b ++ c))%string.
Proof. induction a as [|x a IH]; simpl; [reflexivity | now rewrite IH]. Qed.

Lemma append_empty_r (a : string) : (a ++ EmptyString)%string = a.
Proof. induction a as [|x a IH]; simpl; [reflexivity | now rewrite IH]. Qed.

Lemma prefix_empty s : String.prefix EmptyString s = true.
Proof. now destruct s. Qed.

Lemma prefix_cons a s1 b s2 :
  String.prefix (String a s1) (String b s2)
  = if Ascii.eqb a b then String.prefix s1 s2 else false.
Proof.
  cbn [String.prefix].
  destruct (ascii_dec a b) as [->|Hne].
  - now rewrite Ascii.eqb_refl.
  - apply Ascii.eqb_neq in Hne. now rewrite Hne.
Qed.

Lemma has_newline_cons c r :
  has_newline (String c r) = Ascii.eqb c newline || has_newline r.
Proof.
  unfold has_newline, str1. cbn [contains].
  rewrite prefix_cons, prefix_empty, Ascii.eqb_sym.
  now destruct (Ascii.eqb c newline).
Qed.

Lemma split_no_newline s : has_newline s = false -> split newline s = [s].
Proof.
  induction s as [|c r IH]; [reflexivity|].
  rewrite has_newline_cons, orb_false_iff. intros [Hc Hr].
  simpl. rewrite Hc, IH by assumption. reflexivity.
Qed.

Lemma split_line s rest :
  has_newline s = false ->
  split newline (s ++ String newline rest) = s :: split newline rest.
Proof.
  induction s as [|c r IH].
  - intros _. reflexivity.
  - rewrite has_newline_cons, orb_false_iff. intros [Hc Hr].
    simpl. rewrite Hc, IH by assumption. reflexivity.
Qed.

Lemma lines_text_app l partial :
  (lines_text l ++ partial)%string
  = match l with
    | [] => partial
    | s :: r => (s ++ String newline (lines_text r ++ partial))%string
    end.
Proof. destruct l as [|s r]; [reflexivity|]. simpl. now rewrite append_assoc. Qed.

(** Splitting gives the lines back, and the unfinished text last. *)
Lemma split_lines l : forall partial,
  Forall (fun s => has_newline s = false) l ->
  has_newline partial = false ->
  split newline (lines_text l ++ partial) = l ++ [partial].
Proof.
  induction l as [|s r IH]; intros partial Hl Hp.
  - simpl. now apply split_no_newline.
  - inversion Hl as [|? ? Hs Hr]; subst.
    rewrite lines_text_app, split_line by assumption.
    simpl. now rewrite IH.
Qed.

Lemma endswith_app c a b :
  is_empty b = false -> endswith_char c (a ++ b) = endswith_char c b.
Proof.
  intros Hb. induction a as [|x a IH]; [reflexivity|].
  simpl. destruct (a ++ b)%string eqn:E; [|exact IH].
  destruct a; simpl in E; [subst b; discriminate | discriminate].
Qed.

Lemma endswith_no_newline s : has_newline s = false -> endswith_char newline s = false.
Proof.
  induction s as [|c r IH]; [reflexivity|].
  rewrite has_newline_cons, orb_false_iff. intros [Hc Hr].
  simpl. destruct r; [exact Hc | now apply IH].
Qed.

Lemma endswith_cons c x r :
  is_empty r = false -> endswith_char c (String x r) = endswith_char c r.
Proof. destruct r; [discriminate | reflexivity]. Qed.

Lemma lines_not_empty l partial :
  l <> [] -> is_empty (lines_text l ++ partial) = false.
Proof.
  destruct l as [|s r]; [congruence|]. intros _.
  rewrite lines_text_app. now destruct s.
Qed.

Lemma endswith_lines_text l :
  l <> [] -> endswith_char newline (lines_text l) = true.
Proof.
  induction l as [|s r IH]; [congruence|]. intros _.
  cbn [lines_text]. rewrite endswith_app by reflexivity.
  destruct r as [|s' r']; [reflexivity|].
  rewrite endswith_cons.
  - apply IH. discriminate.
  - rewrite <- (append_empty_r (lines_text (s' :: r'))).
    apply lines_not_empty. discriminate.
Qed.

(** A text of complete lines followed by unfinished text ends with a line
    break exactly when nothing is unfinished. *)
Lemma endswith_lines l partial :
  l <> [] -> has_newline partial = false ->
  endswith_char newline (lines_text l ++ partial) = is_empty partial.
Proof.
  intros Hl Hp. destruct partial as [|c p].
  - rewrite append_empty_r. now apply endswith_lines_text.
  - rewrite endswith_app by reflexivity. now apply endswith_no_newline.
Qed.

Lemma has_newline_lines l partial :
  l <> [] -> has_newline (lines_text l ++ partial) = true.
Proof.
  destruct l as [|s r]; [congruence|]. intros _.
  rewrite lines_text_app. induction s as [|c s IH]; cbn [String.append].
  - now rewrite has_newline_cons, Ascii.eqb_refl.
  - rewrite has_newline_cons, IH. apply orb_true_r.
Qed.

End PyStrFacts.

(* ================================================================== *)
(** * White space *)
(* ================================================================== *)

Module WhiteSpaceFacts.
Import PyStr PyStrNotions PyStrFacts.

Lemma lstrip_unfold s :
  lstrip s = match space_width s with
             | O => s
             | S _ => lstrip (skip (space_width s) s)
             end.
Proof.
  destruct s as [|c [|d [|e r]]]; cbn [lstrip space_width]; try reflexivity.
  - destruct (space1 c); reflexivity.
  - destruct (space1 c); [reflexivity|]. destruct (space2 c d); reflexivity.
  - destruct (space1 c); [reflexivity|]. destruct (space2 c d); [reflexivity|].
    destruct (space3 c d e); reflexivity.
Qed.

Lemma lstrip_fixed s : space_width s = 0%nat -> lstrip s = s.
Proof. intros H. rewrite lstrip_unfold. now rewrite H. Qed.

Lemma space_width_le s : (space_width s <= String.length s)%nat.
Proof.
  destruct s as [|c [|d [|e r]]]; cbn [space_width String.length]; try lia.
  - destruct (space1 c); lia.
  - destruct (space1 c); [lia|]. destruct (space2 c d); lia.
  - destruct (space1 c); [lia|]. destruct (space2 c d); [lia|].
    destruct (space3 c d e); lia.
Qed.

Lemma length_skip n s : String.length (skip n s) = (String.length s - n)%nat.
Proof.
  revert s. induction n as [|n IH]; intros [|c s]; simpl; try reflexivity.
  apply IH.
Qed.

(** Induction on a text along the white-space characters at its head. *)
Lemma lstrip_ind (P : string -> Prop) :
  (forall s, space_width s = 0%nat -> P s) ->
  (forall s, space_width s <> 0%nat -> P (skip (space_width s) s) -> P s) ->
  forall s, P s.
Proof.
  intros H0 HS s.
  remember (String.length s) as n eqn:En.
  revert s En. induction n as [n IH] using lt_wf_ind. intros s En.
  destruct (space_width s) as [|k] eqn:Ew; [now apply H0|].
  apply HS; [congruence|].
  apply (IH (String.length (skip (space_width s) s))); [|reflexivity].
  rewrite length_skip. pose proof (space_width_le s). lia.
Qed.

Lemma space_width_lstrip s : space_width (lstrip s) = 0%nat.
Proof.
  induction s as [s H0 | s Hn IH] using lstrip_ind.
  - now rewrite lstrip_fixed.
  - rewrite lstrip_unfold. destruct (space_width s); [congruence | exact IH].
Qed.

Lemma lstrip_lstrip s : lstrip (lstrip s) = lstrip s.
Proof. apply lstrip_fixed, space_width_lstrip. Qed.

(** The white-space character at the head of a text is at the head of every
    text that goes on from it. *)
Lemma space_width_app a b :
  space_width a <> 0%nat -> space_width (a ++ b) = space_width a.
Proof.
  destruct a as [|c [|d [|e r]]]; cbn [space_width String.append];
    try congruence.
  - destruct (space1 c); [reflexivity | congruence].
  - destruct (space1 c); [reflexivity|].
    destruct (space2 c d); [reflexivity | congruence].
Qed.

Lemma rstrip_prefix s : exists b, s = (rstrip s ++ b)%string.
Proof.
  induction s as [|c s [b IH]]; [now exists EmptyString|].
  cbn [rstrip]. destruct (blank (String c s)).
  - now exists (String c s).
  - exists b. cbn [String.append]. now rewrite <- IH.
Qed.

Lemma space_width_prefix a b : space_width (a ++ b) = 0%nat -> space_width a = 0%nat.
Proof.
  intros H. destruct (space_width a) eqn:E; [reflexivity|].
  rewrite space_width_app in H by congruence. congruence.
Qed.

Lemma space_width_rstrip s : space_width s = 0%nat -> space_width (rstrip s) = 0%nat.
Proof.
  intros H. destruct (rstrip_prefix s) as [b E]. rewrite E in H.
  now apply space_width_prefix in H.
Qed.

(** A trimmed text starts with no white space. *)
Lemma space_width_strip s : space_width (strip s) = 0%nat.
Proof. apply space_width_rstrip, space_width_lstrip. Qed.

Lemma lstrip_strip s : lstrip (strip s) = strip s.
Proof. apply lstrip_fixed, space_width_strip. Qed.

Lemma blank_fixed s : space_width s = 0%nat -> blank s = is_empty s.
Proof. intros H. unfold blank. now rewrite lstrip_fixed. Qed.

Lemma strip_first_char c r :
  space_width (String c r) = 0%nat -> is_empty (strip (String c r)) = false.
Proof.
  intros H. unfold strip. rewrite lstrip_fixed by assumption.
  cbn [rstrip]. now rewrite blank_fixed.
Qed.

(** A byte below 128 is a character of its own. *)
Lemma space_width_ascii c r :
  Nat.ltb (code c) 128 = true ->
  space_width (String c r) = if space1 c then 1%nat else 0%nat.
Proof.
  intros H. cbn [space_width]. destruct (space1 c); [reflexivity|].
  assert (E2 : forall d, space2 c d = false).
  { intros d. unfold space2. apply Nat.ltb_lt in H.
    replace (Nat.eqb (code c) 194) with false; [reflexivity|].
    symmetry. apply Nat.eqb_neq. lia. }
  assert (E3 : forall d e, space3 c d e = false).
  { intros d e. unfold space3. apply Nat.ltb_lt in H.
    replace (Nat.eqb (code c) 225) with false
      by (symmetry; apply Nat.eqb_neq; lia).
    replace (Nat.eqb (code c) 226) with false
      by (symmetry; apply Nat.eqb_neq; lia).
    replace (Nat.eqb (code c) 227) with false
      by (symmetry; apply Nat.eqb_neq; lia).
    reflexivity. }
  destruct r as [|d [|e r]]; rewrite ?E2, ?E3; reflexivity.
Qed.

(** The bytes after the first of a white-space character continue it. *)
Lemma space2_continuation c d : space2 c d = true -> is_continuation d = true.
Proof.
  unfold space2, is_continuation. rewrite andb_true_iff, orb_true_iff.
  intros [_ [H|H]]; apply Nat.eqb_eq in H; rewrite H; reflexivity.
Qed.

Lemma space3_continuation c d e :
  space3 c d e = true -> is_continuation d = true /\ is_continuation e = true.
Proof.
  unfold space3, is_continuation.
  rewrite !orb_true_iff, !andb_true_iff, !orb_true_iff, !andb_true_iff.
  rewrite !Nat.eqb_eq, !Nat.leb_le, !Nat.ltb_lt. lia.
Qed.

Lemma space1_not_continuation c : space1 c = true -> is_continuation c = false.
Proof.
  unfold space1, is_continuation.
  rewrite orb_true_iff, !andb_true_iff, !Nat.leb_le. intros H.
  apply andb_false_iff. left. apply Nat.leb_gt. lia.
Qed.

End WhiteSpaceFacts.

(* ================================================================== *)
(** * The streaming turn handler *)
(* ================================================================== *)

Module EventHandlerFacts.
Import PyStr PyStrNotions PyStrFacts WhiteSpaceFacts EventHandler EventHandlerNotions.

(** A line that starts with a verb starts with a letter: not with white
    space, a bar or one of the marks of formatting. *)
Lemma verb_first_char c r :
  starts_with_verb (lower (String c r)) = true ->
  Nat.ltb (code c) 128 = true /\ space1 c = false
  /\ Ascii.eqb c pipe = false
  /\ existsb (Ascii.eqb c) marks5 = false.
Proof.
  intros H. destruct c as [b0 b1 b2 b3 b4 b5 b6 b7].
  destruct b0, b1, b2, b3, b4, b5, b6, b7;
    first [ repeat split; reflexivity | exfalso; vm_compute in H; discriminate H ].
Qed.

Lemma verb_no_space c r :
  starts_with_verb (lower (String c r)) = true ->
  forall r', space_width (String c r') = 0%nat.
Proof.
  intros H r'. destruct (verb_first_char c r H) as (Ha & Hs & _).
  now rewrite space_width_ascii, Hs.
Qed.

Lemma detected_not_empty line :
  starts_with_verb (lower (strip line)) = true ->
  is_empty (fst (detected line)) = false.
Proof.
  intros H. unfold detected. cbv zeta.
  destruct (strip line) as [|c r] eqn:E; [discriminate H|].
  destruct (verb_first_char c r H) as (_ & _ & Hp & _).
  destruct (contains "|" (String c r)); [|reflexivity].
  unfold split_reason. cbn [split_once]. rewrite Hp.
  destruct (split_once pipe r) as [a b]. cbn [fst].
  apply strip_first_char. now apply (verb_no_space c r).
Qed.

Lemma line_command_verb line :
  starts_with_verb (lower (strip line)) = true ->
  contains "command" (lower (strip line)) = false ->
  line_command line = Some (detected line).
Proof.
  intros Hv Hf. unfold line_command, detected. cbv zeta.
  destruct (strip line) as [|c r] eqn:E; [discriminate Hv|].
  destruct (verb_first_char c r Hv) as (_ & _ & _ & Hm).
  unfold looks_like_formatting. rewrite Hm, Hf, Hv.
  cbn [is_empty orb]. now destruct (contains "|" (String c r)).
Qed.

Lemma first_command_skips before rest :
  Forall (fun s => line_command s = None) before ->
  first_command (before ++ rest) = first_command rest.
Proof.
  induction 1 as [|s l Hs Hl IH]; [reflexivity|].
  simpl. now rewrite Hs.
Qed.

(** Extraction reads the complete lines only. *)
Lemma extract_reads_complete_lines l partial :
  l <> [] ->
  Forall (fun s => has_newline s = false) l ->
  has_newline partial = false ->
  extract_command_from_buffer (lines_text l ++ partial)
  = first_command l.
Proof.
  intros Hne Hl Hp. unfold extract_command_from_buffer.
  rewrite lines_not_empty by assumption.
  fold (has_newline (lines_text l ++ partial)).
  rewrite has_newline_lines, endswith_lines, split_lines by assumption.
  cbn [negb andb].
  destruct partial as [|c p]; cbn [is_empty negb].
  - clear. induction l as [|s r IH]; [reflexivity|].
    simpl. destruct (line_command s); [reflexivity | exact IH].
  - unfold but_last. now rewrite removelast_last.
Qed.

Lemma extract_needs_line_break partial :
  has_newline partial = false -> extract_command_from_buffer partial = None.
Proof.
  intros Hp. unfold extract_command_from_buffer.
  destruct (is_empty partial); [reflexivity|].
  fold (has_newline partial).
  now rewrite Hp, endswith_no_newline.
Qed.

(** After a command has been detected further chunks change nothing, and
    neither does the end of the stream. *)
Lemma chunk_after_detection h text :
  command_detected h = true -> handle_response_chunk text h = h.
Proof. unfold handle_response_chunk. now intros ->. Qed.

Lemma complete_after_early_stop h full :
  has_early_stopped h = true -> handle_response_complete full h = h.
Proof. unfold handle_response_complete. now intros ->. Qed.

(** A chunk that brings a command while the scan is on. *)
Lemma chunk_detects h chunk command reason :
  thinking_complete h = true ->
  command_detected h = false ->
  extract_command_from_buffer (post_thinking_buffer h ++ chunk)
  = Some (command, reason) ->
  is_empty command = false ->
  let h' := handle_response_chunk chunk h in
  let cleaned :=
    Event.clean_event_text command (Some (active_minimind h))
                           (Some (active_minimind h)) in
  command_detected h' = true
  /\ has_early_stopped h' = true
  /\ detected_command h' = Some cleaned
  /\ pending h' = pending h
                  ++ [ProcessCommandSafely cleaned (complete_response h ++ chunk)]
  /\ effects h' = effects h ++ [CancelStreaming].
Proof.
  intros Ht Hc He Hn. unfold handle_response_chunk.
  rewrite Hc, Ht. cbn [negb]. rewrite He, Hn. cbn. repeat split.
Qed.


(** Complete lines that yield no command, followed by unfinished text,
    yield nothing, whatever the unfinished text is. *)
Lemma unfinished_text_is_not_read before unfinished :
  Forall (fun s => has_newline s = false) before ->
  Forall (fun s => line_command s = None) before ->
  has_newline unfinished = false ->
  extract_command_from_buffer (lines_text before ++ unfinished) = None.
Proof.
  intros Hl Hb Hp. destruct before as [|s r].
  - now apply extract_needs_line_break.
  - rewrite extract_reads_complete_lines by (assumption || discriminate).
    rewrite <- (app_nil_r (s :: r)). now rewrite first_command_skips.
Qed.

(** A chunk that leaves the scan without a command changes no flag and
    queues nothing. *)
Lemma chunk_without_command h chunk :
  thinking_complete h = true ->
  command_detected h = false ->
  extract_command_from_buffer (post_thinking_buffer h ++ chunk) = None ->
  let h' := handle_response_chunk chunk h in
  command_detected h' = false
  /\ pending h' = pending h
  /\ effects h' = effects h.
Proof.
  intros Ht Hc He. unfold handle_response_chunk.
  rewrite Hc, Ht. cbn [negb]. rewrite He. cbn. repeat split.
Qed.

(** C9, as amended.  While the scan is on, take the buffer after a chunk as
    complete lines followed by unfinished text.  A line that, trimmed,
    starts with one of the verbs whatever the case of its letters and does
    not contain the word [command] yields a command, its text before the
    first bar.  If no line before it yields a command, extraction returns
    that command.  Unfinished text is never read: alone it yields nothing,
    and after the complete lines before the verb line it yields nothing
    either, whatever it is, so that a chunk which brings only that much
    detects and queues nothing.  The chunk that brings the verb line
    commits the command: the detection flags are raised, cancellation is
    asked for, one call of [process_command_safely] is queued, and later
    chunks and the end of the stream change nothing. *)
Theorem first_complete_verb_line_is_committed
        (before : list string) (line : string) (after : list string)
        (partial chunk : string) (h : t) :
  Forall (fun s => has_newline s = false) (before ++ line :: after) ->
  has_newline partial = false ->
  Forall (fun s => line_command s = None) before ->
  starts_with_verb (lower (strip line)) = true ->
  contains "command" (lower (strip line)) = false ->
  thinking_complete h = true ->
  command_detected h = false ->
  (post_thinking_buffer h ++ chunk)%string
  = (lines_text (before ++ line :: after) ++ partial)%string ->
  let h' := handle_response_chunk chunk h in
  let command :=
    Event.clean_event_text (fst (detected line)) (Some (active_minimind h))
                           (Some (active_minimind h)) in
  extract_command_from_buffer (lines_text (before ++ line :: after) ++ partial)
  = Some (detected line)
  /\ extract_command_from_buffer partial = None
  /\ (forall unfinished,
        has_newline unfinished = false ->
        extract_command_from_buffer (lines_text before ++ unfinished) = None
        /\ (forall h0 chunk0,
              thinking_complete h0 = true ->
              command_detected h0 = false ->
              (post_thinking_buffer h0 ++ chunk0)%string
              = (lines_text before ++ unfinished)%string ->
              command_detected (handle_response_chunk chunk0 h0) = false
              /\ pending (handle_response_chunk chunk0 h0) = pending h0
              /\ effects (handle_response_chunk chunk0 h0) = effects h0))
  /\ command_detected h' = true
  /\ has_early_stopped h' = true
  /\ detected_command h' = Some command
  /\ pending h' = pending h
                  ++ [ProcessCommandSafely command (complete_response h ++ chunk)]
  /\ effects h' = effects h ++ [CancelStreaming]
  /\ (forall more, handle_response_chunk more h' = h')
  /\ (forall full, handle_response_complete full h' = h').
Proof.
  intros Hl Hp Hb Hv Hf Ht Hc Hbuf h' command.
  assert (Hx : extract_command_from_buffer
                 (lines_text (before ++ line :: after) ++ partial)
               = Some (detected line)).
  { rewrite extract_reads_complete_lines; try assumption.
    - rewrite first_command_skips by assumption.
      simpl. now rewrite line_command_verb.
    - destruct before; discriminate. }
  split; [exact Hx|].
  split; [now apply extract_needs_line_break|].
  split.
  { intros unfinished Hu.
    assert (Hlb : Forall (fun s => has_newline s = false) before)
      by (apply Forall_app in Hl; tauto).
    pose proof (unfinished_text_is_not_read before unfinished Hlb Hb Hu) as Hn.
    split; [exact Hn|].
    intros h0 chunk0 Ht0 Hc0 Hbuf0. rewrite <- Hbuf0 in Hn.
    exact (chunk_without_command h0 chunk0 Ht0 Hc0 Hn). }
  rewrite <- Hbuf in Hx.
  destruct (detected line) as [cmd reason] eqn:Ed.
  assert (Hn : is_empty cmd = false).
  { pose proof (detected_not_empty line Hv) as Hn. now rewrite Ed in Hn. }
  destruct (chunk_detects h chunk cmd reason Ht Hc Hx Hn) as (D1 & D2 & D3 & D4 & D5).
  fold h' in D1, D2, D3, D4, D5.
  repeat split; try assumption.
  - intros more. now apply chunk_after_detection.
  - intros full. now apply complete_after_early_stop.
Qed.

(** Example scenario 5 of the specification. *)
Lemma first_complete_verb_line_is_committed_witness :
  let chunk := (line_break ++ "SAY hello" ++ line_break ++ "extra")%string in
  let h' := handle_response_chunk chunk scanning in
  extract_command_from_buffer chunk = Some ("SAY hello", None)
  /\ extract_command_from_buffer "extra" = None
  /\ extract_command_from_buffer (line_break ++ "SAY hello") = None
  /\ command_detected (handle_response_chunk (line_break ++ "SAY hello") scanning)
     = false
  /\ command_detected h' = true
  /\ has_early_stopped h' = true
  /\ detected_command h' = Some "SAY hello"
  /\ pending h' = [ProcessCommandSafely "SAY hello"
                     ("<think>plan</think>" ++ chunk)]
  /\ effects h' = [CancelStreaming]
  /\ (forall more, handle_response_chunk more h' = h')
  /\ (forall full, handle_response_complete full h' = h').
Proof.
  assert (Hl : Forall (fun s => has_newline s = false) [EmptyString; "SAY hello"])
    by (repeat constructor).
  assert (Hb : Forall (fun s => line_command s = None) [EmptyString])
    by (repeat constructor).
  destruct (first_complete_verb_line_is_committed
              [EmptyString] "SAY hello" [] "extra"
              (line_break ++ "SAY hello" ++ line_break ++ "extra")%string scanning
              Hl eq_refl Hb eq_refl eq_refl eq_refl eq_refl eq_refl)
    as (W1 & W2 & W3 & W4).
  destruct (W3 "SAY hello" eq_refl) as [U1 U2].
  destruct (U2 scanning (line_break ++ "SAY hello")%string eq_refl eq_refl eq_refl)
    as [U3 _].
  split; [exact W1|]. split; [exact W2|]. split; [exact U1|].
  split; [exact U3 | exact W4].
Defined.

(** C9 as stated fails: a complete line that starts with [say] and contains
    the word [command] is passed over, and the chunk that brings it commits
    nothing. *)
Lemma verb_line_with_command_word_passed_over :
  let line := "say the command is ready" in
  let h' := handle_response_chunk (line ++ line_break) scanning in
  starts_with_verb (lower line) = true
  /\ extract_command_from_buffer (line ++ line_break) = None
  /\ command_detected h' = false
  /\ pending h' = [].
Proof. repeat split. Qed.

(** The chunk that closes the thinking block has what follows it trimmed:
    the line break that ends a first line in that chunk is lost, and the
    line is joined to the text of the next chunk. *)
Lemma closing_chunk_loses_its_line_break :
  let h1 := handle_response_chunk
              ("<think>plan</think>" ++ line_break ++ "SAY hello" ++ line_break)
              (start "Bob") in
  let h2 := handle_response_chunk ("extra" ++ line_break) h1 in
  command_detected h1 = false
  /\ post_thinking_buffer h1 = "SAY hello"
  /\ detected_command h2 = Some "SAY helloextra".
Proof. repeat split. Qed.

(** C1.  The code at the failing input: a chunk brings a command, the
    streaming client then reports an error, and the queued callback runs.
    The error raises the completion signal, and the command is committed
    and the signal raised once more. *)
Theorem error_after_early_stop_resolves_twice :
  let h := run [ Chunk ("<think>plan</think>" ++ line_break ++ "SAY hello"
                          ++ line_break ++ "extra");
                 Error "connection lost";
                 Timer ] (start "Bob") in
  effects h = [CancelStreaming; Signal; Commit "SAY hello"; Signal]
  /\ resolutions (effects h) = 2%nat
  /\ commits (effects h) = ["SAY hello"].
Proof. repeat split. Qed.

(** The same sequence with the end of the stream in place of the error
    resolves once: the completion after the early stop does nothing. *)
Lemma completion_after_early_stop_resolves_once :
  let h := run [ Chunk ("<think>plan</think>" ++ line_break ++ "SAY hello"
                          ++ line_break ++ "extra");
                 Complete "ignored";
                 Timer ] (start "Bob") in
  effects h = [CancelStreaming; Commit "SAY hello"; Signal]
  /\ resolutions (effects h) = 1%nat.
Proof. repeat split. Qed.

(** An error always raises the completion signal, and the end of a stream
    that was not stopped early queues the callback that raises it. *)
Lemma error_signals h e :
  turn_completed (handle_response_error e h) = true
  /\ effects (handle_response_error e h) = effects h ++ [Signal].
Proof. split; reflexivity. Qed.

Lemma completion_queues_resolution h full :
  has_early_stopped h = false ->
  detected_command h = None ->
  exists action,
    pending (handle_response_complete full h)
    = pending h ++ [SafeProcessFullResponse action full; SetStopStreaming].
Proof.
  intros He Hd. unfold handle_response_complete. rewrite He, Hd. cbn.
  unfold clean_llm_response. rewrite Hd. cbn.
  destruct (first_cleaned _) as [[a r]|]; [eexists; reflexivity|].
  destruct (first_plain _); eexists; reflexivity.
Qed.

Lemma resolutions_app l l' :
  resolutions (l ++ l') = (resolutions l + resolutions l')%nat.
Proof.
  induction l as [|[ | | ] l IH]; simpl; rewrite ?IH; reflexivity.
Qed.

Lemma commits_app l l' : commits (l ++ l') = commits l ++ commits l'.
Proof.
  induction l as [|[ | | ] l IH]; simpl; rewrite ?IH; reflexivity.
Qed.

Lemma queued_resolution_signals h k :
  k <> SetStopStreaming ->
  turn_completed (run_task k h) = true
  /\ resolutions (effects (run_task k h)) = S (resolutions (effects h)).
Proof.
  destruct k as [c r | a r |]; [| |congruence]; intros _.
  - split; [reflexivity|]. simpl. rewrite resolutions_app. simpl. lia.
  - unfold run_task, safe_process_full_response.
    destruct (negb (has_early_stopped h) && turn_in_progress h);
      (split; [reflexivity|]); simpl; rewrite resolutions_app; simpl; lia.
Qed.

Lemma run_app l l' h : run (l ++ l') h = run l' (run l h).
Proof. unfold run. apply fold_left_app. Qed.

(** While the stream runs the turn is in one of the two states. *)
Lemma streaming_step h i :
  streaming_input i -> quiet h \/ stopped_early h ->
  quiet (step h i) \/ stopped_early (step h i).
Proof.
  intros Hi [Hq | Hs]; destruct i as [text | | | |]; try contradiction; simpl.
  - destruct Hq as (Q1 & Q2 & Q3 & Q4 & Q5 & Q6 & Q7).
    unfold handle_response_chunk. rewrite Q1.
    destruct (if negb (thinking_complete h) then _ else _) as [thinking buffer].
    destruct (if thinking then _ else None) as [[command reason]|].
    + destruct (is_empty command).
      * left. unfold quiet. simpl. auto 10.
      * right. unfold stopped_early. simpl.
        rewrite Q5, resolutions_app, commits_app, Q6, Q7. simpl.
        repeat split; try assumption. eauto.
    + left. unfold quiet. simpl. auto 10.
  - left. destruct Hq as (Q1 & Q2 & Q3 & Q4 & Q5 & Q6 & Q7).
    unfold quiet. simpl. rewrite resolutions_app, commits_app, Q6, Q7.
    repeat split; assumption.
  - right. now rewrite chunk_after_detection by apply Hs.
  - right. destruct Hs as (S1 & S2 & S3 & S4 & S5 & S6).
    unfold stopped_early. simpl. rewrite resolutions_app, commits_app, S5, S6.
    repeat split; assumption.
Qed.

Lemma streaming_run inputs : forall h,
  Forall streaming_input inputs -> quiet h \/ stopped_early h ->
  quiet (run inputs h) \/ stopped_early (run inputs h).
Proof.
  induction inputs as [|i l IH]; intros h Hl Hh; [exact Hh|].
  inversion Hl; subst. simpl. apply IH; [assumption|].
  now apply streaming_step.
Qed.

(** X23.  The part of the exactly-once rule the guards do enforce: a
    stream of chunks, with or without requests to cancel, that is ended by
    its completion resolves the turn once, with one command committed,
    whether or not a chunk stopped it early. *)
Lemma stream_ended_by_completion_resolves_once name inputs full :
  Forall streaming_input inputs ->
  let h := run (inputs ++ [Complete full; Timer; Timer]) (start name) in
  resolutions (effects h) = 1%nat
  /\ List.length (commits (effects h)) = 1%nat
  /\ turn_completed h = true.
Proof.
  intros Hl h. unfold h. rewrite run_app.
  destruct (streaming_run inputs (start name) Hl) as [Hq | Hs].
  { left. repeat split. }
  - destruct Hq as (Q1 & Q2 & Q3 & Q4 & Q5 & Q6 & Q7).
    set (h0 := run inputs (start name)) in *.
    destruct (completion_queues_resolution h0 full Q2 Q3) as (action & Hp).
    rewrite Q5 in Hp. cbn [run fold_left step]. rewrite Hp.
    assert (E : has_early_stopped (handle_response_complete full h0) = false
                /\ turn_in_progress (handle_response_complete full h0) = true
                /\ effects (handle_response_complete full h0) = effects h0).
    { unfold handle_response_complete. rewrite Q2, Q3. cbn.
      destruct (clean_llm_response full h0). cbn. auto. }
    destruct E as (E1 & E2 & E3).
    cbn [run_task safe_process_full_response has_early_stopped turn_in_progress].
    rewrite E1, E2. cbn. rewrite E3, resolutions_app, commits_app, Q6, Q7.
    repeat split.
  - destruct Hs as (S1 & S2 & S3 & (c & r & S4) & S5 & S6).
    set (h0 := run inputs (start name)) in *.
    cbn [run fold_left step]. rewrite (complete_after_early_stop h0 full S2), S4.
    cbn. rewrite resolutions_app, commits_app, S5, S6. repeat split.
Qed.

(** A stream ended by an error resolves once when no chunk has stopped it
    early, and twice when one has: the error path does not look at the
    detection flags. *)
Lemma stream_ended_by_error name inputs e :
  Forall streaming_input inputs ->
  let h0 := run inputs (start name) in
  let h := run (inputs ++ [Error e; Timer]) (start name) in
  (quiet h0 -> resolutions (effects h) = 1%nat /\ commits (effects h) = [])
  /\ (stopped_early h0 ->
      resolutions (effects h) = 2%nat /\ List.length (commits (effects h)) = 1%nat).
Proof.
  intros Hl h0 h. unfold h. rewrite run_app. fold h0. split.
  - intros (Q1 & Q2 & Q3 & Q4 & Q5 & Q6 & Q7).
    cbn [run fold_left step handle_response_error pending]. rewrite Q5.
    cbn. rewrite resolutions_app, commits_app, Q6, Q7. split; reflexivity.
  - intros (S1 & S2 & S3 & (c & r & S4) & S5 & S6).
    cbn [run fold_left step handle_response_error pending]. rewrite S4.
    cbn. rewrite !resolutions_app, !commits_app, S5, S6. split; reflexivity.
Qed.

End EventHandlerFacts.

(* ================================================================== *)
(** * The turn scheduler: order, next character and counters *)
(* ================================================================== *)

Module TurnManagerProperties.
Import TurnManager TurnManagerNotions TurnManagerInvariants DictFacts TurnManagerFacts.

(** ** Lists *)

Lemma filter_out_perm p l :
  NoDup l -> In p l ->
  Permutation (p :: filter (fun c => negb (String.eqb c p)) l) l.
Proof.
  induction 1 as [|x l Hx Hl IH]; intros Hin; [contradiction|].
  simpl. destruct (String.eqb x p) eqn:E; simpl.
  - apply String.eqb_eq in E. subst x. constructor.
    rewrite (proj2 (filter_ext_in_iff _ (fun _ => true) l)).
    + clear. induction l as [|y l IH]; simpl; [constructor | now constructor].
    + intros y Hy. apply negb_true_iff, String.eqb_neq. intros ->. contradiction.
  - destruct Hin as [->|Hin]; [now rewrite String.eqb_refl in E|].
    rewrite perm_swap. constructor. now apply IH.
Qed.

Lemma min_by_In {A : Type} (g : A -> Z) l y : min_by g l = Some y -> In y l.
Proof.
  revert y. induction l as [|x r IH]; simpl; intros y; [discriminate|].
  destruct (min_by g r) as [z|].
  - destruct (g x <=? g z); intros [= <-]; auto.
  - intros [= <-]. auto.
Qed.

Lemma min_by_nonempty {A : Type} (g : A -> Z) l : l <> [] -> min_by g l <> None.
Proof.
  destruct l as [|x r]; [congruence|]. intros _. simpl.
  destruct (min_by g r) as [z|]; [destruct (g x <=? g z)|]; discriminate.
Qed.

Lemma hd_insert_by {A : Type} (key : A -> Z * Z) x s :
  hd_error (insert_by key x s)
  = match hd_error s with
    | None => Some x
    | Some h => if key_leb (key x) (key h) then Some x else Some h
    end.
Proof.
  destruct s as [|h r]; simpl; [reflexivity|].
  now destruct (key_leb (key x) (key h)).
Qed.

Lemma hd_sorted_In {A : Type} (key : A -> Z * Z) l h :
  hd_error (sorted key l) = Some h -> In h l.
Proof.
  intros H. apply (Permutation_in h (sorted_perm key l)).
  destruct (sorted key l) as [|a s]; [discriminate|].
  simpl in H. injection H as ->. now left.
Qed.

(** The head of a list sorted by a pair of keys is the first element, among
    those with the least first key, that has the least second key: what
    [min] with the second key returns on the elements of least first key. *)
Lemma sorted_head_first_least {A : Type} (f g : A -> Z) m l :
  (forall x, In x l -> m <= f x) ->
  filter (fun c => f c =? m) l <> [] ->
  hd_error (sorted (fun c => (f c, g c)) l)
  = min_by g (filter (fun c => f c =? m) l).
Proof.
  induction l as [|x r IH]; intros Hm Hne; [now simpl in Hne|].
  cbn [sorted fold_right]. fold (sorted (fun c => (f c, g c)) r).
  rewrite hd_insert_by. cbn [filter] in *.
  assert (Hr : forall y, In y r -> m <= f y) by (intros y Hy; apply Hm; now right).
  destruct (f x =? m) eqn:Ex.
  - apply Z.eqb_eq in Ex. cbn [min_by].
    destruct (filter (fun c => f c =? m) r) as [|c0 cr] eqn:Ec.
    + cbn [min_by].
      destruct (hd_error (sorted (fun c => (f c, g c)) r)) as [h|] eqn:Eh;
        [|reflexivity].
      apply hd_sorted_In in Eh.
      assert (Hh : f h <> m).
      { intros E. assert (Hin : In h (filter (fun c => f c =? m) r)).
        { apply filter_In. split; [assumption | now apply Z.eqb_eq]. }
        rewrite Ec in Hin. contradiction. }
      pose proof (Hr h Eh) as Hle.
      unfold key_leb. simpl.
      replace (f x <? f h) with true by (symmetry; apply Z.ltb_lt; lia).
      reflexivity.
    + rewrite IH by (assumption || discriminate).
      destruct (min_by g (c0 :: cr)) as [y|] eqn:Ey.
      * assert (Hy : f y = m).
        { apply min_by_In in Ey. rewrite <- Ec in Ey.
          apply filter_In in Ey. now apply Z.eqb_eq. }
        unfold key_leb. simpl. rewrite Ex, Hy, Z.ltb_irrefl, Z.eqb_refl. reflexivity.
      * now apply min_by_nonempty in Ey.
  - apply Z.eqb_neq in Ex.
    rewrite IH by assumption.
    destruct (min_by g (filter (fun c => f c =? m) r)) as [y|] eqn:Ey.
    + assert (Hy : f y = m).
      { apply min_by_In in Ey. apply filter_In in Ey. now apply Z.eqb_eq. }
      pose proof (Hm x (or_introl eq_refl)) as Hle.
      unfold key_leb. simpl.
      replace (f x <? f y) with false by (symmetry; apply Z.ltb_ge; lia).
      replace (f x =? f y) with false by (symmetry; apply Z.eqb_neq; lia).
      reflexivity.
    + now apply min_by_nonempty in Ey.
Qed.

(** ** Tables with one entry per key *)

Lemma item_head k v (r : Dict.t Z) : item k ((k, v) :: r) = v.
Proof. unfold item. simpl. now rewrite String.eqb_refl. Qed.

Lemma item_tail c k v (r : Dict.t Z) : c <> k -> item c ((k, v) :: r) = item c r.
Proof. intros H. unfold item. simpl. apply String.eqb_neq in H. now rewrite H. Qed.

Lemma wf_cons {V : Type} k (v : V) r :
  Dict.wf ((k, v) :: r) = true -> ~ In k (Dict.keys r) /\ Dict.wf r = true.
Proof.
  unfold Dict.wf. simpl. rewrite andb_true_iff, negb_true_iff. intros [H1 H2].
  split; [|assumption]. intros Hin. apply existsb_eqb_In in Hin. congruence.
Qed.

(** Selecting entries by their value is selecting keys by their item. *)
Lemma filter_items (p : Z -> bool) d :
  Dict.wf d = true ->
  map fst (filter (fun kv => p (snd kv)) d)
  = filter (fun c => p (item c d)) (Dict.keys d).
Proof.
  induction d as [|[k v] r IH]; intros Hwf; [reflexivity|].
  apply wf_cons in Hwf. destruct Hwf as [Hk Hr].
  cbn [filter Dict.keys map fst snd]. rewrite item_head.
  assert (E : filter (fun c => p (item c ((k, v) :: r))) (map fst r)
              = filter (fun c => p (item c r)) (map fst r)).
  { apply filter_ext_in. intros c Hc. rewrite item_tail; [reflexivity|].
    intros ->. contradiction. }
  rewrite E. fold (Dict.keys r). rewrite <- IH by assumption.
  now destruct (p v).
Qed.

Lemma item_In k v d : Dict.wf d = true -> In (k, v) d -> item k d = v.
Proof.
  induction d as [|[k' v'] r IH]; intros Hwf Hin; [contradiction|].
  apply wf_cons in Hwf. destruct Hwf as [Hk Hr].
  destruct Hin as [[= -> ->]|Hin]; [apply item_head|].
  rewrite item_tail; [now apply IH|].
  intros ->. apply Hk. apply in_map_iff. now exists (k', v).
Qed.

Lemma In_item k d : In k (Dict.keys d) -> In (item k d) (Dict.values d).
Proof.
  intros H. apply mem_In in H. destruct (mem_get _ _ H) as [v Hv].
  rewrite (item_get _ _ _ Hv). now apply get_In_values in Hv.
Qed.

(** ** [min] and [max] of a list *)

Lemma fold_min_In l : forall a, fold_left Z.min l a = a \/ In (fold_left Z.min l a) l.
Proof.
  induction l as [|x r IH]; simpl; intros a; [now left|].
  destruct (IH (Z.min a x)) as [E|Hin]; [|auto].
  rewrite E. destruct (Z.min_spec a x) as [[_ ->]|[_ ->]]; auto.
Qed.

Lemma py_min_In l : l <> [] -> In (py_min l) l.
Proof.
  destruct l as [|a r]; [congruence|]. intros _. simpl.
  destruct (fold_min_In r a) as [->|H]; auto.
Qed.

Lemma fold_max_ge l : forall a, a <= fold_left Z.max l a.
Proof.
  induction l as [|x r IH]; simpl; intros a; [lia|].
  specialize (IH (Z.max a x)). lia.
Qed.

Lemma fold_max_upper l : forall a x, In x l -> x <= fold_left Z.max l a.
Proof.
  induction l as [|y r IH]; simpl; intros a x Hin; [contradiction|].
  destruct Hin as [->|Hin].
  - pose proof (fold_max_ge r (Z.max a x)). lia.
  - now apply IH.
Qed.

Lemma py_max_ge l x : In x l -> x <= py_max l.
Proof.
  destruct l as [|a r]; simpl; [contradiction|].
  intros [->|Hin]; [apply fold_max_ge | now apply fold_max_upper].
Qed.

Lemma fold_min_shift off l : forall a,
  fold_left Z.min (map (fun v => v - off) l) (a - off) = fold_left Z.min l a - off.
Proof.
  induction l as [|x r IH]; simpl; intros a; [reflexivity|].
  replace (Z.min (a - off) (x - off)) with (Z.min a x - off) by lia. apply IH.
Qed.

Lemma py_min_shift off l :
  l <> [] -> py_min (map (fun v => v - off) l) = py_min l - off.
Proof. destruct l as [|a r]; [congruence|]. intros _. simpl. apply fold_min_shift. Qed.

(** ** The order of [sorted] depends on the comparisons only *)

Lemma insert_by_ext {A : Type} (key key' : A -> Z * Z) x s :
  (forall y, In y s -> key_leb (key x) (key y) = key_leb (key' x) (key' y)) ->
  insert_by key x s = insert_by key' x s.
Proof.
  induction s as [|y r IH]; intros H; [reflexivity|].
  simpl. rewrite (H y) by now left.
  destruct (key_leb (key' x) (key' y)); [reflexivity|].
  f_equal. apply IH. intros z Hz. apply H. now right.
Qed.

Lemma sorted_ext_in {A : Type} (key key' : A -> Z * Z) l :
  (forall x y, In x l -> In y l ->
               key_leb (key x) (key y) = key_leb (key' x) (key' y)) ->
  sorted key l = sorted key' l.
Proof.
  induction l as [|x r IH]; intros H; [reflexivity|].
  cbn [sorted fold_right]. fold (sorted key r). fold (sorted key' r).
  rewrite IH by (intros; apply H; now right).
  apply insert_by_ext. intros y Hy. apply H; [now left|].
  right. eapply Permutation_in; [apply sorted_perm | exact Hy].
Qed.

Lemma key_leb_shift off a1 a2 b1 b2 :
  key_leb (a1 - off, a2) (b1 - off, b2) = key_leb (a1, a2) (b1, b2).
Proof.
  unfold key_leb. simpl.
  replace (a1 - off <? b1 - off) with (a1 <? b1)
    by (destruct (Z.ltb_spec a1 b1), (Z.ltb_spec (a1 - off) (b1 - off)); lia).
  replace (a1 - off =? b1 - off) with (a1 =? b1)
    by (destruct (Z.eqb_spec a1 b1), (Z.eqb_spec (a1 - off) (b1 - off)); lia).
  reflexivity.
Qed.

(** ** Normalisation *)

Lemma normalize_values_shift d :
  normalize_values d = Dict.map_values (fun v => v - offset d) d.
Proof.
  unfold normalize_values, offset. destruct d as [|e r]; [reflexivity|].
  destruct (0 <? py_min (Dict.values (e :: r))); [reflexivity|].
  unfold Dict.map_values. rewrite <- (map_id (e :: r)) at 1.
  apply map_ext. intros [k v]. simpl. f_equal. lia.
Qed.

Lemma values_map_values (f : Z -> Z) d :
  Dict.values (Dict.map_values f d) = map f (Dict.values d).
Proof. unfold Dict.values, Dict.map_values. now rewrite !map_map. Qed.

Lemma filter_shift off m (d : Dict.t Z) :
  map fst (filter (fun kv => snd kv =? m - off)
                  (Dict.map_values (fun v => v - off) d))
  = map fst (filter (fun kv => snd kv =? m) d).
Proof.
  induction d as [|[k v] d IH]; [reflexivity|].
  simpl. replace (v - off =? m - off) with (v =? m)
    by (destruct (Z.eqb_spec v m), (Z.eqb_spec (v - off) (m - off)); lia).
  destruct (v =? m); simpl; now rewrite IH.
Qed.

Lemma god_player_normalize tm : god_player (normalize_tu tm) = god_player tm.
Proof.
  unfold god_player, normalize_tu. simpl.
  destruct (player_name tm) as [p|]; [|reflexivity].
  now rewrite (mem_keys_eq p _ _ (normalize_keys (time_units tm))).
Qed.

Lemma turn_order_by_ext key key' tm tm' :
  god_player tm' = god_player tm ->
  Dict.keys (time_units tm') = Dict.keys (time_units tm) ->
  (forall x y, In x (Dict.keys (time_units tm)) -> In y (Dict.keys (time_units tm)) ->
               key_leb (key' x) (key' y) = key_leb (key x) (key y)) ->
  _get_turn_order_by key' tm' = _get_turn_order_by key tm.
Proof.
  intros Hg Hk H. unfold _get_turn_order_by. rewrite Hg, Hk.
  destruct (god_player tm) as [p|].
  - f_equal. apply sorted_ext_in. intros x y Hx Hy.
    apply filter_In in Hx. apply filter_In in Hy. apply H; tauto.
  - now apply sorted_ext_in.
Qed.

(** X3.  Normalising the counters changes neither the turn order nor the
    next character, in either mode and with God mode on or off. *)
Theorem normalize_tu_keeps_the_order tm :
  get_turn_order (normalize_tu tm) = get_turn_order tm
  /\ get_next_character (normalize_tu tm) = get_next_character tm.
Proof.
  pose proof (normalize_keys (time_units tm)) as Hk.
  split.
  - unfold get_turn_order. replace (turn_mode (normalize_tu tm)) with (turn_mode tm)
      by reflexivity.
    destruct (String.eqb (turn_mode tm) "memories").
    + unfold _get_turn_order_by_memories.
      apply turn_order_by_ext; [apply god_player_normalize | exact Hk | reflexivity].
    + unfold _get_turn_order_by_tu.
      apply turn_order_by_ext; [apply god_player_normalize | exact Hk |].
      intros x y Hx Hy. unfold tu_key, normalize_tu. simpl.
      rewrite !item_normalize by now apply mem_In.
      apply key_leb_shift.
  - unfold get_next_character.
    replace (turn_mode (normalize_tu tm)) with (turn_mode tm) by reflexivity.
    unfold normalize_tu at 1. cbn [time_units with_time_units].
    destruct (time_units tm) as [|e r] eqn:Ed; [reflexivity|].
    assert (Hne : normalize_values (e :: r) <> []).
    { intros E. rewrite E in Hk. discriminate. }
    destruct (normalize_values (e :: r)) as [|e' r'] eqn:En; [congruence|].
    clear e' r' En Hne Hk.
    destruct (String.eqb (turn_mode tm) "memories").
    + unfold _get_next_character_by_memories. rewrite god_player_normalize.
      unfold normalize_tu. simpl. now rewrite normalize_keys.
    + unfold _get_next_character_by_tu, pick, normalize_tu. simpl.
      rewrite normalize_values_shift, values_map_values.
      rewrite py_min_shift by (rewrite Ed; discriminate).
      now rewrite filter_shift.
Qed.

(** ** Every character, once *)

Lemma turn_order_perm tm :
  Dict.wf (time_units tm) = true ->
  Permutation (get_turn_order tm) (Dict.keys (time_units tm)).
Proof.
  intros Hwf. apply uniq_NoDup in Hwf.
  assert (H : forall key,
             Permutation (_get_turn_order_by key tm) (Dict.keys (time_units tm))).
  { intros key. unfold _get_turn_order_by.
    destruct (god_player tm) as [p|] eqn:Eg; [|apply sorted_perm].
    rewrite sorted_perm. apply filter_out_perm; [assumption|].
    unfold god_player in Eg. destruct (player_name tm) as [q|]; [|discriminate].
    destruct (Dict.mem q (time_units tm)) eqn:Em;
      [|rewrite andb_false_r in Eg; discriminate].
    destruct (god_mode tm); [|discriminate]. injection Eg as <-.
    now apply mem_In. }
  unfold get_turn_order. destruct (String.eqb (turn_mode tm) "memories"); apply H.
Qed.

(** X2.  The turn order lists the registered characters, each one once, in
    both modes and with God mode on or off. *)
Theorem turn_order_lists_everyone_once tm :
  Dict.wf (time_units tm) = true ->
  Permutation (get_turn_order tm) (Dict.keys (time_units tm))
  /\ NoDup (get_turn_order tm).
Proof.
  intros Hwf. pose proof (turn_order_perm tm Hwf) as Hp.
  split; [exact Hp|].
  eapply Permutation_NoDup; [symmetry; exact Hp | now apply uniq_NoDup].
Qed.

Lemma turn_order_lists_everyone_once_witness :
  Permutation (get_turn_order three_with_god) ["A"; "P"; "B"]
  /\ NoDup (get_turn_order three_with_god).
Proof. apply (turn_order_lists_everyone_once three_with_god). reflexivity. Defined.

(** ** The next character and the head of the order *)

Lemma pick_min_by tm l : pick tm l = min_by (fun c => item c (last_turn_time tm)) l.
Proof. destruct l as [|a [|b r]]; reflexivity. Qed.

(** X4.  In time-units mode, when no registered player is in God mode,
    [get_next_character] is the head of [get_turn_order] (and [None] when
    nobody is registered). *)
Theorem next_character_heads_the_order tm :
  Dict.wf (time_units tm) = true ->
  god_player tm = None ->
  String.eqb (turn_mode tm) "memories" = false ->
  get_next_character tm = hd_error (get_turn_order tm).
Proof.
  intros Hwf Hg Hm. unfold get_next_character, get_turn_order. rewrite Hm.
  unfold _get_turn_order_by_tu, _get_turn_order_by. rewrite Hg.
  destruct (time_units tm) as [|e r] eqn:Ed; [reflexivity|].
  rewrite <- Ed in Hwf |- *.
  unfold _get_next_character_by_tu. cbv zeta. rewrite pick_min_by.
  set (m := py_min (Dict.values (time_units tm))).
  rewrite (filter_items (fun v => v =? m)) by assumption.
  symmetry. unfold tu_key.
  apply (sorted_head_first_least (fun c => item c (time_units tm))
                                 (fun c => item c (last_turn_time tm)) m).
  - intros x Hx. apply py_min_le. now apply In_item.
  - assert (Hin : In m (Dict.values (time_units tm))).
    { apply py_min_In. rewrite Ed. discriminate. }
    unfold Dict.values in Hin. apply in_map_iff in Hin.
    destruct Hin as ([k v] & Ev & Hin). simpl in Ev. subst v.
    intros E.
    assert (Hk : In k (filter (fun c => item c (time_units tm) =? m)
                              (Dict.keys (time_units tm)))).
    { apply filter_In. split.
      - apply in_map_iff. now exists (k, m).
      - rewrite (item_In k m) by assumption. apply Z.eqb_refl. }
    rewrite E in Hk. contradiction.
Qed.

Lemma next_character_heads_the_order_witness :
  get_next_character player_ahead = hd_error (get_turn_order player_ahead).
Proof. apply (next_character_heads_the_order player_ahead); reflexivity. Defined.

End TurnManagerProperties.

(* ================================================================== *)
(** * The turn scheduler: memories mode, passing and the counters *)
(* ================================================================== *)

Module TurnManagerCounters.
Import TurnManager TurnManagerNotions TurnManagerInvariants DictFacts TurnManagerFacts.
Import TurnManagerProperties.

Lemma fold_max_In l : forall a, fold_left Z.max l a = a \/ In (fold_left Z.max l a) l.
Proof.
  induction l as [|x r IH]; simpl; intros a; [now left|].
  destruct (IH (Z.max a x)) as [E|Hin]; [|auto].
  rewrite E. destruct (Z.max_spec a x) as [[_ ->]|[_ ->]]; auto.
Qed.

Lemma py_max_In l : l <> [] -> In (py_max l) l.
Proof.
  destruct l as [|a r]; [congruence|]. intros _. simpl.
  destruct (fold_max_In r a) as [->|H]; auto.
Qed.

Lemma values_In (d : Dict.t Z) v : In v (Dict.values d) -> exists k, In (k, v) d.
Proof.
  unfold Dict.values. rewrite in_map_iff. intros ([k v'] & E & H).
  simpl in E. subst v'. eauto.
Qed.

Lemma In_keys {V : Type} k (v : V) d : In (k, v) d -> In k (Dict.keys d).
Proof. intros H. apply in_map_iff. now exists (k, v). Qed.

Lemma keys_In (d : Dict.t Z) k : In k (Dict.keys d) -> In (k, item k d) d.
Proof.
  intros H. apply mem_In in H. destruct (mem_get _ _ H) as [v Hv].
  rewrite (item_get _ _ _ Hv). now apply EventBusFacts.get_In.
Qed.

Lemma item_nonnegative d k : nonnegative d -> 0 <= item k d.
Proof.
  intros H. unfold item. destruct (Dict.get k d) as [v|] eqn:E; [|lia].
  apply EventBusFacts.get_In in E. now apply H in E.
Qed.

(** X5.  In memories mode, when the tables are aligned and no count of new
    memories is negative, [get_next_character] is the head of
    [get_turn_order], with God mode on or off. *)
Theorem next_character_heads_the_order_by_memories tm :
  aligned tm ->
  nonnegative (new_memories_count tm) ->
  turn_mode tm = "memories" ->
  get_next_character tm = hd_error (get_turn_order tm).
Proof.
  intros (Hwf & _ & Hkm) Hnn Hm.
  unfold get_next_character, get_turn_order. rewrite Hm. cbn [String.eqb Ascii.eqb].
  replace (String.eqb "memories" "memories") with true by reflexivity.
  unfold _get_turn_order_by_memories, _get_turn_order_by,
    _get_next_character_by_memories.
  destruct (time_units tm) as [|e r] eqn:Ed.
  { unfold god_player. rewrite Ed. destruct (player_name tm); [|reflexivity].
    now rewrite andb_false_r. }
  rewrite <- Ed in *.
  destruct (god_player tm) as [p|]; [reflexivity|].
  assert (Hwm : Dict.wf (new_memories_count tm) = true)
    by (unfold Dict.wf; now rewrite Hkm).
  assert (Hne : Dict.keys (time_units tm) <> []) by (rewrite Ed; discriminate).
  cbv zeta. rewrite pick_min_by. symmetry. unfold memories_key.
  destruct (existsb (fun count => 0 <? count) (Dict.values (new_memories_count tm)))
    eqn:Ex.
  - set (mx := py_max (Dict.values (new_memories_count tm))).
    assert (Hpos : 0 < mx).
    { apply existsb_exists in Ex. destruct Ex as (v & Hv & Hlt).
      apply Z.ltb_lt in Hlt. pose proof (py_max_ge _ _ Hv). fold mx in H. lia. }
    assert (E : map fst (filter (fun kv => (snd kv =? mx) && (0 <? snd kv))
                                (new_memories_count tm))
                = filter (fun c => - item c (new_memories_count tm) =? - mx)
                         (Dict.keys (time_units tm))).
    { rewrite <- Hkm.
      rewrite <- (filter_items (fun v => - v =? - mx)) by assumption.
      f_equal. apply filter_ext. intros [k v]. simpl.
      destruct (Z.eqb_spec v mx), (Z.eqb_spec (- v) (- mx)); try lia; simpl;
        first [reflexivity | apply Z.ltb_lt; lia]. }
    rewrite E.
    apply (sorted_head_first_least
             (fun c => - item c (new_memories_count tm))
             (fun c => item c (last_turn_time tm)) (- mx)).
    + intros x Hx. rewrite <- Hkm in Hx. apply In_item in Hx.
      pose proof (py_max_ge _ _ Hx). fold mx in H. lia.
    + assert (Hin : In mx (Dict.values (new_memories_count tm))).
      { apply py_max_In. intros En.
        rewrite En in Ex. discriminate. }
      apply values_In in Hin. destruct Hin as [k Hk]. intros En.
      assert (Hf : In k (filter (fun c => - item c (new_memories_count tm) =? - mx)
                                (Dict.keys (time_units tm)))).
      { apply filter_In. split.
        - rewrite <- Hkm. now apply In_keys in Hk.
        - rewrite (item_In k mx) by assumption. apply Z.eqb_refl. }
      rewrite En in Hf. contradiction.
  - assert (Hz : forall c, In c (Dict.keys (time_units tm)) ->
                           item c (new_memories_count tm) = 0).
    { intros c Hc. rewrite <- Hkm in Hc. apply keys_In in Hc.
      pose proof (Hnn _ _ Hc) as H0.
      assert (Hv : In (item c (new_memories_count tm))
                      (Dict.values (new_memories_count tm)))
        by (apply in_map_iff; now exists (c, item c (new_memories_count tm))).
      destruct (0 <? item c (new_memories_count tm)) eqn:El.
      - assert (existsb (fun count => 0 <? count)
                        (Dict.values (new_memories_count tm)) = true); [|congruence].
        apply existsb_exists. eauto.
      - apply Z.ltb_ge in El. lia. }
    assert (E : Dict.keys (time_units tm)
                = filter (fun c => - item c (new_memories_count tm) =? - 0)
                         (Dict.keys (time_units tm))).
    { symmetry. rewrite (filter_ext_in _ (fun _ => true)).
      - clear. induction (Dict.keys (time_units tm)) as [|x l IH];
          simpl; congruence.
      - intros c Hc. rewrite (Hz c Hc). reflexivity. }
    rewrite E at 2.
    apply (sorted_head_first_least
             (fun c => - item c (new_memories_count tm))
             (fun c => item c (last_turn_time tm)) (- 0)).
    + intros x Hx. rewrite (Hz x Hx). lia.
    + now rewrite <- E.
Qed.

Lemma next_character_heads_the_order_by_memories_witness :
  get_next_character second_by_memories
  = hd_error (get_turn_order second_by_memories).
Proof.
  apply (next_character_heads_the_order_by_memories second_by_memories).
  - repeat split.
  - intros k v Hin. simpl in Hin.
    repeat (destruct Hin as [[= <- <-]|Hin]; [lia|]). contradiction.
  - reflexivity.
Defined.

(** ** Passing in time-units mode *)

(** X6.  In time-units mode a character that heads the turn order in front
    of another one, and is not the player in God mode, passes with success;
    afterwards its counter is one above the counter of the one that was
    second, and it no longer heads the order.  The player is no exception
    here. *)
Theorem passing_puts_the_passer_behind tm c n rest :
  Dict.wf (time_units tm) = true ->
  turn_mode tm = "time_units" ->
  get_turn_order tm = c :: n :: rest ->
  god_mode tm && is_name (player_name tm) c = false ->
  fst (pass_turn c tm) = true
  /\ item c (time_units (snd (pass_turn c tm)))
     = item n (time_units (snd (pass_turn c tm))) + 1
  /\ (forall rest', get_turn_order (snd (pass_turn c tm)) <> c :: rest').
Proof.
  intros Hwf Hmode Ho Hgm.
  assert (Hg : god_player tm = None).
  { destruct (god_player tm) as [p|] eqn:Eg; [|reflexivity].
    destruct (god_player_heads_turn_order tm p Eg) as [r Hr].
    rewrite Ho in Hr. injection Hr as -> _.
    pose proof Eg as En. apply god_player_name in En.
    unfold god_player in Eg. rewrite En in Eg, Hgm. simpl in Hgm.
    rewrite String.eqb_refl, andb_true_r in Hgm. now rewrite Hgm in Eg. }
  pose proof Ho as Ho'. rewrite (turn_order_tu tm Hmode) in Ho'.
  destruct (turn_order_members tm c n rest Hwf Hg Ho') as (Hcn & Hc & Hn).
  assert (Hlen : (1 <? Z.of_nat (List.length (time_units tm))) = true).
  { pose proof (turn_order_perm tm Hwf) as Hp.
    apply Permutation_length in Hp. rewrite Ho in Hp.
    unfold Dict.keys in Hp. rewrite length_map in Hp. simpl in Hp.
    apply Z.ltb_lt. lia. }
  assert (E : pass_turn c tm
              = (true,
                 normalize_tu
                   (mk (Dict.set c (item n (time_units tm) + 1) (time_units tm))
                       (turn_history tm ++ [c])
                       (Dict.set c (Z.of_nat (List.length (turn_history tm ++ [c])))
                                 (last_turn_time tm))
                       (player_name tm) (god_mode tm) (turn_mode tm)
                       (new_memories_count tm)))).
  { unfold pass_turn. rewrite Hgm, Hc, Hlen, Ho, Hmode. cbn [andb].
    replace (String.eqb "time_units" "memories") with false by reflexivity.
    cbn [nth]. rewrite String.eqb_refl. cbn [negb List.length].
    replace (1 <? Z.of_nat (S (S (List.length rest)))) with true
      by (symmetry; apply Z.ltb_lt; lia).
    cbn [with_time_units time_units turn_history last_turn_time player_name
         god_mode turn_mode new_memories_count].
    rewrite Hmode.
    replace (String.eqb "time_units" "time_units") with true by reflexivity.
    reflexivity. }
  rewrite E. cbn [fst snd].
  set (charged := Dict.set c (item n (time_units tm) + 1) (time_units tm)).
  set (tm' := normalize_tu _).
  assert (Hu : time_units tm' = normalize_values charged) by reflexivity.
  assert (Hkeys : Dict.keys charged = Dict.keys (time_units tm))
    by (apply keys_set_mem; exact Hc).
  assert (Hitems : item c (time_units tm') = item n (time_units tm') + 1).
  { rewrite Hu, !item_normalize by (rewrite (mem_keys_eq _ _ _ Hkeys); assumption).
    unfold charged. rewrite item_set_same, item_set_other by congruence. lia. }
  split; [reflexivity|]. split; [exact Hitems|].
  intros rest' Ho2.
  assert (Hm' : turn_mode tm' = "time_units") by exact Hmode.
  rewrite (turn_order_tu tm' Hm') in Ho2.
  unfold _get_turn_order_by_tu, _get_turn_order_by in Ho2.
  assert (Hg' : god_player tm' = None).
  { unfold tm'. rewrite god_player_normalize. unfold god_player in *. simpl.
    destruct (player_name tm) as [p|]; [|reflexivity].
    now rewrite (mem_keys_eq p _ _ Hkeys). }
  rewrite Hg' in Ho2.
  assert (Hin : In n (Dict.keys (time_units tm'))).
  { rewrite Hu, normalize_keys, Hkeys. now apply mem_In. }
  pose proof (sorted_head_least (tu_key tm') _ _ _ n Ho2 Hin) as Hle.
  unfold tu_key in Hle. cbn [fst] in Hle. lia.
Qed.

Lemma passing_puts_the_passer_behind_witness :
  fst (pass_turn "P" player_ahead) = true
  /\ item "P" (time_units (snd (pass_turn "P" player_ahead)))
     = item "A" (time_units (snd (pass_turn "P" player_ahead))) + 1
  /\ (forall rest', get_turn_order (snd (pass_turn "P" player_ahead))
                    <> "P" :: rest').
Proof. apply (passing_puts_the_passer_behind player_ahead "P" "A" []); reflexivity. Defined.

Lemma pass_turn_by_tu_only_first_witness :
  (exists r, get_turn_order player_ahead = "P" :: r)
  /\ god_mode player_ahead && is_name (player_name player_ahead) "P" = false.
Proof. apply (pass_turn_by_tu_only_first "P" player_ahead); reflexivity. Defined.

End TurnManagerCounters.

(* ================================================================== *)
(** * The turn scheduler: what every reachable state satisfies *)
(* ================================================================== *)

Module TurnManagerReachable.
Import TurnManager TurnManagerNotions TurnManagerInvariants DictFacts TurnManagerFacts.
Import TurnManagerProperties TurnManagerCounters.

Lemma In_del {V : Type} k v k0 (d : Dict.t V) :
  In (k, v) (Dict.del k0 d) -> In (k, v) d.
Proof.
  induction d as [|[k' v'] r IH]; simpl; [tauto|].
  destruct (String.eqb k0 k'); simpl; tauto.
Qed.

Lemma del_set_new {V : Type} k (v : V) d :
  Dict.mem k d = false -> Dict.del k (Dict.set k v d) = d.
Proof.
  unfold Dict.mem. induction d as [|[k' v'] r IH]; simpl.
  - now rewrite String.eqb_refl.
  - destruct (String.eqb k k') eqn:E; [discriminate|]. simpl. rewrite E.
    intros H. f_equal. now apply IH.
Qed.

Lemma In_normalize k v d :
  In (k, v) (normalize_values d) -> exists v0, In (k, v0) d /\ v = v0 - offset d.
Proof.
  rewrite normalize_values_shift. unfold Dict.map_values.
  rewrite in_map_iff. intros ([k0 v0] & [= <- <-] & Hin). eauto.
Qed.

Lemma offset_le d k v : In (k, v) d -> 0 <= v -> offset d <= v.
Proof.
  intros Hin Hv. unfold offset.
  destruct (0 <? py_min (Dict.values d)); [|exact Hv].
  apply py_min_le. apply in_map_iff. now exists (k, v).
Qed.

Lemma normalize_nonnegative d : nonnegative d -> nonnegative (normalize_values d).
Proof.
  intros H k v Hin. apply In_normalize in Hin. destruct Hin as (v0 & Hin & ->).
  pose proof (H _ _ Hin). pose proof (offset_le _ _ _ Hin). lia.
Qed.

Lemma set_nonnegative k v d : nonnegative d -> 0 <= v -> nonnegative (Dict.set k v d).
Proof.
  intros H Hv k' v' Hin. apply EventBusFacts.In_set in Hin.
  destruct Hin as [[= -> ->]|Hin]; [assumption | eauto].
Qed.

(** The cost charged is not negative when the cost asked is not. *)
Lemma adjusted_cost_nonnegative c raw tm : 0 <= raw -> 0 <= adjusted_cost c raw tm.
Proof.
  intros H. unfold adjusted_cost. cbv zeta.
  destruct (is_name (player_name tm) c);
    destruct ((1 <? _) && _); lia.
Qed.

Lemma pass_turn_units c tm :
  fst (pass_turn c tm) = true ->
  String.eqb (turn_mode tm) "memories" = false ->
  exists v,
    (v = item (nth 1 (get_turn_order tm) EmptyString) (time_units tm) + 1
     \/ v = item c (time_units tm) + 1)
    /\ (time_units (snd (pass_turn c tm)) = Dict.set c v (time_units tm)
        \/ time_units (snd (pass_turn c tm))
           = normalize_values (Dict.set c v (time_units tm))).
Proof.
  unfold pass_turn. intros Hp Hm.
  destruct (god_mode tm && is_name (player_name tm) c); [discriminate|].
  destruct (Dict.mem c (time_units tm) && _); [|discriminate].
  rewrite Hm in *.
  destruct (negb _); [discriminate|].
  destruct (1 <? Z.of_nat (List.length (get_turn_order tm))).
  - eexists. split; [left; reflexivity|]. cbn.
    destruct (String.eqb (turn_mode tm) "time_units"); [right | left]; reflexivity.
  - eexists. split; [right; reflexivity|]. cbn.
    destruct (String.eqb (turn_mode tm) "time_units"); [right | left]; reflexivity.
Qed.

Lemma pass_turn_units_by_memories c tm :
  String.eqb (turn_mode tm) "memories" = true ->
  time_units (snd (pass_turn c tm)) = time_units tm.
Proof.
  unfold pass_turn. intros Hm.
  destruct (god_mode tm && is_name (player_name tm) c); [reflexivity|].
  destruct (Dict.mem c (time_units tm) && _); [|reflexivity].
  rewrite Hm. cbn.
  apply String.eqb_eq in Hm. rewrite Hm. reflexivity.
Qed.

Lemma perform_nonnegative tm c :
  nonnegative_cost c -> nonnegative (time_units tm) ->
  nonnegative (time_units (perform tm c)).
Proof.
  intros Hc Hn.
  destruct c as [name is_player | name | enabled | mode | character count
                | character tu_cost | character]; simpl in *.
  - unfold register_character.
    destruct (Dict.mem name (time_units tm)); [exact Hn|]. simpl.
    apply set_nonnegative; [assumption | destruct is_player; lia].
  - unfold remove_character.
    destruct (Dict.mem name (time_units tm)); [|exact Hn]. simpl.
    intros k v Hin. apply In_del in Hin. eauto.
  - exact Hn.
  - unfold set_turn_mode. destruct (_ || _); exact Hn.
  - unfold increment_memory_count.
    destruct (Dict.get character (new_memories_count tm)); exact Hn.
  - unfold add_time_units.
    destruct (negb (Dict.mem character (time_units tm))); [exact Hn|]. simpl.
    apply normalize_nonnegative.
    destruct (god_mode tm && is_name (player_name tm) character); [exact Hn|].
    apply set_nonnegative; [assumption|].
    pose proof (item_nonnegative _ character Hn).
    pose proof (adjusted_cost_nonnegative character tu_cost tm Hc). lia.
  - destruct (fst (pass_turn character tm)) eqn:Ep;
      [|now rewrite pass_turn_refused].
    destruct (String.eqb (turn_mode tm) "memories") eqn:Em;
      [now rewrite pass_turn_units_by_memories|].
    destruct (pass_turn_units character tm Ep Em) as (v & Hv & Hu).
    assert (H0 : 0 <= v).
    { pose proof (item_nonnegative _ character Hn).
      pose proof (item_nonnegative
                    _ (nth 1 (get_turn_order tm) EmptyString) Hn).
      destruct Hv; lia. }
    destruct Hu as [-> | ->];
      [|apply normalize_nonnegative]; now apply set_nonnegative.
Qed.

Lemma normalize_min_zero d :
  nonnegative d -> d <> [] -> py_min (Dict.values (normalize_values d)) = 0.
Proof.
  intros Hn Hne.
  assert (Hv : Dict.values d <> []) by (destruct d; [congruence | discriminate]).
  rewrite normalize_values_shift, values_map_values, py_min_shift by assumption.
  unfold offset. destruct (0 <? py_min (Dict.values d)) eqn:E; [lia|].
  apply Z.ltb_ge in E. apply py_min_In, values_In in Hv.
  destruct Hv as [k Hk]. apply Hn in Hk. lia.
Qed.

(** X7.  Over any run of calls from the creation of the scheduler in which
    no negative cost is charged, no time-unit counter is ever negative; and
    after such a state charges a registered character a cost that is not
    negative, the lowest counter is 0. *)
Theorem time_units_never_negative calls :
  Forall nonnegative_cost calls ->
  let tm := fold_left perform calls init in
  nonnegative (time_units tm)
  /\ (forall c raw,
        Dict.mem c (time_units tm) = true -> 0 <= raw ->
        py_min (Dict.values (time_units (add_time_units c raw tm))) = 0).
Proof.
  intros Hc tm.
  assert (Hn : nonnegative (time_units tm)).
  { unfold tm.
    assert (H : forall s, nonnegative (time_units s) ->
                          nonnegative (time_units (fold_left perform calls s))).
    { induction Hc as [|c l Hcost Hl IH]; intros s Hs; [exact Hs|].
      simpl. apply IH. now apply perform_nonnegative. }
    apply H. intros k v []. }
  split; [exact Hn|].
  intros c raw Hm Hraw. unfold add_time_units. rewrite Hm. simpl.
  apply normalize_min_zero.
  - destruct (god_mode tm && is_name (player_name tm) c); [exact Hn|].
    apply set_nonnegative; [assumption|].
    pose proof (item_nonnegative _ c Hn).
    pose proof (adjusted_cost_nonnegative c raw tm Hraw). lia.
  - assert (Hk : forall d : Dict.t Z, Dict.keys d <> [] -> d <> [])
      by (intros d H ->; now apply H).
    apply Hk.
    destruct (god_mode tm && is_name (player_name tm) c).
    + apply mem_In in Hm. intros E. now rewrite E in Hm.
    + rewrite keys_set_mem by assumption.
      apply mem_In in Hm. intros E. now rewrite E in Hm.
Qed.

Lemma time_units_never_negative_witness :
  let calls := [Register "P" true; Register "A" false; AddTimeUnits "A" 3;
                PassTurn "P"; Remove "P"] in
  let tm := fold_left perform calls init in
  nonnegative (time_units tm)
  /\ py_min (Dict.values (time_units (add_time_units "A" 2 tm))) = 0.
Proof.
  intros calls tm.
  assert (H : Forall nonnegative_cost calls) by (repeat constructor; simpl; lia).
  destruct (time_units_never_negative calls H) as [H1 H2].
  split; [exact H1|]. apply H2; [reflexivity | lia].
Defined.

(** ** Registration *)

(** X8.  Registering a name that is registered already changes nothing,
    whatever the player flag; and removing a character just registered as
    not the player gives back the scheduler as it was. *)
Theorem registration_is_undone_by_removal tm name :
  aligned tm ->
  Dict.mem name (time_units tm) = false ->
  (forall first again,
     register_character name again (register_character name first tm)
     = register_character name first tm)
  /\ remove_character name (register_character name false tm) = tm.
Proof.
  intros (Hwf & Hl & Hm) Hn. split.
  - intros first again. unfold register_character at 1.
    replace (Dict.mem name (time_units (register_character name first tm)))
      with true; [reflexivity|].
    unfold register_character. rewrite Hn. simpl.
    unfold Dict.mem. now rewrite get_set_same.
  - unfold register_character. rewrite Hn.
    unfold remove_character. cbn [time_units].
    replace (Dict.mem name (Dict.set name 1 (time_units tm))) with true
      by (unfold Dict.mem; now rewrite get_set_same).
    cbn. rewrite !del_set_new.
    + now destruct tm.
    + now rewrite (mem_keys _ _ (time_units tm)).
    + now rewrite (mem_keys _ _ (time_units tm)).
    + assumption.
Qed.

Lemma registration_is_undone_by_removal_witness :
  remove_character "C" (register_character "C" false player_ahead) = player_ahead.
Proof.
  apply (registration_is_undone_by_removal player_ahead "C");
    [repeat split | reflexivity].
Defined.

(** ** Who went last *)

Lemma set_stamped tm tm' c :
  stamped tm ->
  turn_history tm' = turn_history tm ++ [c] ->
  last_turn_time tm'
  = Dict.set c (Z.of_nat (List.length (turn_history tm ++ [c]))) (last_turn_time tm) ->
  stamped tm'.
Proof.
  intros Hs Hh Hl k v Hin. rewrite Hl in Hin. rewrite Hh.
  rewrite length_app in *. simpl in *.
  apply EventBusFacts.In_set in Hin. destruct Hin as [[= -> ->]|Hin]; [lia|].
  apply Hs in Hin. lia.
Qed.

Lemma stamped_frame tm tm' :
  stamped tm ->
  turn_history tm' = turn_history tm ->
  last_turn_time tm' = last_turn_time tm ->
  stamped tm'.
Proof. intros Hs Hh Hl k v Hin. rewrite Hl in Hin. rewrite Hh. exact (Hs k v Hin). Qed.

Lemma pass_turn_stamps c tm :
  fst (pass_turn c tm) = true ->
  turn_history (snd (pass_turn c tm)) = turn_history tm ++ [c]
  /\ last_turn_time (snd (pass_turn c tm))
     = Dict.set c (Z.of_nat (List.length (turn_history tm ++ [c])))
                (last_turn_time tm).
Proof.
  unfold pass_turn.
  destruct (god_mode tm && is_name (player_name tm) c); [discriminate|].
  destruct (Dict.mem c (time_units tm) && _); [|discriminate].
  destruct (String.eqb (turn_mode tm) "memories").
  - intros _. cbn. destruct (String.eqb (turn_mode tm) "time_units"); now split.
  - destruct (negb _); [discriminate|]. intros _. cbn.
    destruct (String.eqb (turn_mode tm) "time_units"); now split.
Qed.

Lemma perform_stamped tm c : stamped tm -> stamped (perform tm c).
Proof.
  intros Hs.
  destruct c as [name is_player | name | enabled | mode | character count
                | character tu_cost | character]; simpl.
  - unfold register_character.
    destruct (Dict.mem name (time_units tm)); [exact Hs|].
    intros k v Hin. simpl in *. apply EventBusFacts.In_set in Hin.
    destruct Hin as [[= -> ->]|Hin]; [lia | exact (Hs k v Hin)].
  - unfold remove_character.
    destruct (Dict.mem name (time_units tm)); [|exact Hs].
    intros k v Hin. simpl in *. apply In_del in Hin. exact (Hs k v Hin).
  - exact Hs.
  - unfold set_turn_mode. destruct (_ || _); exact Hs.
  - unfold increment_memory_count.
    destruct (Dict.get character (new_memories_count tm)); exact Hs.
  - unfold add_time_units.
    destruct (negb (Dict.mem character (time_units tm))); [exact Hs|].
    now apply (set_stamped tm _ character).
  - destruct (fst (pass_turn character tm)) eqn:Ep;
      [|now rewrite pass_turn_refused].
    destruct (pass_turn_stamps character tm Ep) as [Hh Hl].
    now apply (set_stamped tm _ character).
Qed.

Lemma reachable_stamped calls : stamped (fold_left perform calls init).
Proof.
  assert (H : forall s, stamped s -> stamped (fold_left perform calls s)).
  { induction calls as [|c l IH]; intros s Hs; [exact Hs|].
    simpl. apply IH. now apply perform_stamped. }
  apply H. intros k v [].
Qed.

Lemma item_stamped tm k :
  stamped tm -> 0 <= item k (last_turn_time tm) <= Z.of_nat (List.length (turn_history tm)).
Proof.
  intros Hs. unfold item.
  destruct (Dict.get k (last_turn_time tm)) as [v|] eqn:E; [|lia].
  apply EventBusFacts.get_In in E. exact (Hs k v E).
Qed.

(** X9.  In any state reached from the creation of the scheduler, a
    registered character that is charged becomes the one that went last:
    its turn stamp is above the stamp of every other character.  So in
    time-units mode, without a player in God mode, it cannot head the order
    while another registered character has the same counter. *)
Theorem last_to_act_goes_after_its_equals calls c raw :
  let tm := fold_left perform calls init in
  let tm' := add_time_units c raw tm in
  Dict.mem c (time_units tm) = true ->
  (forall k, k <> c ->
             item k (last_turn_time tm') < item c (last_turn_time tm'))
  /\ (forall k rest,
        k <> c -> Dict.mem k (time_units tm) = true ->
        god_player tm = None -> String.eqb (turn_mode tm) "memories" = false ->
        item k (time_units tm') = item c (time_units tm') ->
        get_turn_order tm' <> c :: rest).
Proof.
  intros tm tm' Hc.
  pose proof (reachable_stamped calls) as Hs. fold tm in Hs.
  assert (Hl : last_turn_time tm'
               = Dict.set c (Z.of_nat (List.length (turn_history tm ++ [c])))
                          (last_turn_time tm)).
  { unfold tm', add_time_units. now rewrite Hc. }
  assert (Hlt : forall k, k <> c ->
                  item k (last_turn_time tm') < item c (last_turn_time tm')).
  { intros k Hk. rewrite Hl, item_set_same, item_set_other by assumption.
    pose proof (item_stamped tm k Hs). rewrite length_app. simpl. lia. }
  split; [exact Hlt|].
  intros k rest Hk Hmem Hg Hm Heq Ho.
  destruct (add_time_units_frame c raw tm) as (_ & _ & Hmode). fold tm' in Hmode.
  unfold get_turn_order in Ho. rewrite Hmode, Hm in Ho.
  unfold _get_turn_order_by_tu, _get_turn_order_by in Ho.
  assert (Hg' : god_player tm' = None)
    by (unfold tm'; now rewrite god_player_add_time_units).
  rewrite Hg' in Ho.
  pose proof (sorted_sorted (tu_key tm') (Dict.keys (time_units tm'))) as Hsorted.
  rewrite Ho in Hsorted. apply StronglySorted_inv in Hsorted.
  destruct Hsorted as [_ Hall].
  assert (Hin : In k (c :: rest)).
  { rewrite <- Ho. eapply Permutation_in; [symmetry; apply sorted_perm|].
    unfold tm'. rewrite add_time_units_keys. now apply mem_In. }
  destruct Hin as [->|Hin]; [congruence|].
  rewrite Forall_forall in Hall. specialize (Hall k Hin).
  unfold key_le, key_leb, tu_key in Hall. cbn [fst snd] in Hall.
  specialize (Hlt k Hk).
  apply orb_true_iff in Hall. destruct Hall as [H|H].
  - apply Z.ltb_lt in H. lia.
  - apply andb_true_iff in H. destruct H as [_ H]. apply Z.leb_le in H. lia.
Qed.

Lemma last_to_act_goes_after_its_equals_witness :
  let tm := fold_left perform [Register "A" false; Register "B" false] init in
  let tm' := add_time_units "B" 0 tm in
  item "A" (last_turn_time tm') < item "B" (last_turn_time tm')
  /\ get_turn_order tm' <> ["B"; "A"].
Proof.
  intros tm tm'.
  destruct (last_to_act_goes_after_its_equals
              [Register "A" false; Register "B" false] "B" 0 eq_refl) as [H1 H2].
  split.
  - apply H1. discriminate.
  - apply (H2 "A" ["A"]); try reflexivity. discriminate.
Defined.

End TurnManagerReachable.

(* ================================================================== *)
(** * The cost of a command *)
(* ================================================================== *)

Module TurnRulesFacts.
Import PyStr PyStrFacts WhiteSpaceFacts TextNotions TurnRules.

(** ** Lower case and white space

    Lowering changes the letters A to Z only, and no byte of a white-space
    character is one of them. *)

Lemma lower_fixed c : (90 < code c)%nat -> lower_char c = c.
Proof.
  intros H. unfold lower_char. fold (code c).
  replace (Nat.leb (code c) 90) with false by (symmetry; apply Nat.leb_gt; lia).
  now rewrite andb_false_r.
Qed.

Lemma lower_low c : (code c <= 90)%nat -> (code (lower_char c) <= 122)%nat.
Proof.
  intros H. unfold lower_char. fold (code c).
  destruct (Nat.leb 65 (code c) && Nat.leb (code c) 90); [|lia].
  unfold code at 1. rewrite nat_ascii_embedding; lia.
Qed.

Lemma lower_space c : space1 c = true -> lower_char c = c.
Proof.
  unfold space1, lower_char. fold (code c).
  rewrite orb_true_iff, !andb_true_iff, !Nat.leb_le. intros H.
  replace (Nat.leb 65 (code c)) with false by (symmetry; apply Nat.leb_gt; lia).
  reflexivity.
Qed.

Lemma space1_lower c : space1 (lower_char c) = space1 c.
Proof.
  destruct (space1 c) eqn:E; [now rewrite lower_space|].
  destruct (Nat.le_gt_cases (code c) 90) as [H|H]; [|now rewrite lower_fixed].
  unfold lower_char. fold (code c).
  destruct (Nat.leb 65 (code c) && Nat.leb (code c) 90) eqn:Eu; [|exact E].
  apply andb_true_iff in Eu. destruct Eu as [Hu _]. apply Nat.leb_le in Hu.
  unfold space1, code. rewrite nat_ascii_embedding by (fold (code c); lia).
  fold (code c).
  replace (Nat.leb (code c + 32) 13) with false
    by (symmetry; apply Nat.leb_gt; lia).
  replace (Nat.leb (code c + 32) 32) with false
    by (symmetry; apply Nat.leb_gt; lia).
  now rewrite !andb_false_r.
Qed.

Lemma space2_high c d :
  space2 c d = true -> (128 <= code c)%nat /\ (128 <= code d)%nat.
Proof.
  unfold space2. rewrite andb_true_iff, orb_true_iff, !Nat.eqb_eq. lia.
Qed.

Lemma space3_high c d e :
  space3 c d e = true ->
  (128 <= code c)%nat /\ (128 <= code d)%nat /\ (128 <= code e)%nat.
Proof.
  unfold space3.
  rewrite !orb_true_iff, !andb_true_iff, !orb_true_iff, !andb_true_iff.
  rewrite !Nat.eqb_eq, !Nat.leb_le. lia.
Qed.

Lemma space2_lower c d : space2 (lower_char c) (lower_char d) = space2 c d.
Proof.
  destruct (Nat.le_gt_cases (code c) 90) as [Hc|Hc];
    [|destruct (Nat.le_gt_cases (code d) 90) as [Hd|Hd]].
  - pose proof (lower_low c Hc).
    destruct (space2 (lower_char c) (lower_char d)) eqn:E1;
      [apply space2_high in E1; lia|].
    destruct (space2 c d) eqn:E2; [apply space2_high in E2; lia | reflexivity].
  - pose proof (lower_low d Hd).
    destruct (space2 (lower_char c) (lower_char d)) eqn:E1;
      [apply space2_high in E1; lia|].
    destruct (space2 c d) eqn:E2; [apply space2_high in E2; lia | reflexivity].
  - now rewrite !lower_fixed.
Qed.

Lemma space3_lower c d e :
  space3 (lower_char c) (lower_char d) (lower_char e) = space3 c d e.
Proof.
  destruct (Nat.le_gt_cases (code c) 90) as [Hc|Hc];
    [|destruct (Nat.le_gt_cases (code d) 90) as [Hd|Hd];
      [|destruct (Nat.le_gt_cases (code e) 90) as [He|He]]];
    try (now rewrite !lower_fixed);
    [ pose proof (lower_low c Hc) | pose proof (lower_low d Hd)
    | pose proof (lower_low e He) ];
    (destruct (space3 (lower_char c) (lower_char d) (lower_char e)) eqn:E1;
       [apply space3_high in E1; lia|]);
    (destruct (space3 c d e) eqn:E2; [apply space3_high in E2; lia | reflexivity]).
Qed.

Lemma space_width_lower s : space_width (lower s) = space_width s.
Proof.
  destruct s as [|c [|d [|e r]]]; cbn [lower space_width];
    rewrite ?space1_lower, ?space2_lower, ?space3_lower; reflexivity.
Qed.

Lemma skip_lower n s : skip n (lower s) = lower (skip n s).
Proof.
  revert s. induction n as [|n IH]; intros [|c s]; simpl; try reflexivity.
  apply IH.
Qed.

Lemma lstrip_lower s : lstrip (lower s) = lower (lstrip s).
Proof.
  induction s as [s H0 | s Hn IH] using lstrip_ind.
  - rewrite !lstrip_fixed; [reflexivity | assumption |].
    now rewrite space_width_lower.
  - rewrite (lstrip_unfold s), (lstrip_unfold (lower s)), space_width_lower.
    destruct (space_width s) eqn:E; [congruence|].
    now rewrite skip_lower, IH.
Qed.

Lemma is_empty_lower s : is_empty (lower s) = is_empty s.
Proof. now destruct s. Qed.

Lemma blank_lower s : blank (lower s) = blank s.
Proof. unfold blank. now rewrite lstrip_lower, is_empty_lower. Qed.

Lemma rstrip_lower s : rstrip (lower s) = lower (rstrip s).
Proof.
  induction s as [|c s IH]; [reflexivity|].
  cbn [lower rstrip].
  change (String (lower_char c) (lower s)) with (lower (String c s)).
  rewrite blank_lower. destruct (blank (String c s)); [reflexivity|].
  cbn [lower]. now rewrite IH.
Qed.

(** Trimming and lowering can be done in either order. *)
Lemma strip_lower s : strip (lower s) = lower (strip s).
Proof. unfold strip. now rewrite lstrip_lower, rstrip_lower. Qed.

Lemma lower_app a b : lower (a ++ b) = (lower a ++ lower b)%string.
Proof. induction a as [|c a IH]; simpl; [reflexivity | now rewrite IH]. Qed.

Lemma length_lower s : String.length (lower s) = String.length s.
Proof. induction s as [|c s IH]; simpl; congruence. Qed.

Lemma plain_lower s : plain (lower s) = true -> plain s = true.
Proof.
  induction s as [|c s IH]; [reflexivity|].
  cbn [lower plain]. rewrite !andb_true_iff, !Nat.ltb_lt.
  intros [Hc Hs]. split; [|now apply IH].
  destruct (Nat.le_gt_cases (code c) 90) as [H|H]; [lia|].
  now rewrite lower_fixed in Hc.
Qed.

(** ** Words *)

Lemma word_parts w :
  is_word w = true ->
  exists c s, w = String c s /\ is_continuation c = false
              /\ no_space (String c s) = true.
Proof.
  destruct w as [|c s]; [discriminate|].
  unfold is_word. rewrite andb_true_iff, negb_true_iff. intros [Hc Hs].
  now exists c, s.
Qed.

Lemma no_space_head s : no_space s = true -> space_width s = 0%nat.
Proof.
  destruct s as [|c s]; [reflexivity|].
  cbn [no_space]. rewrite andb_true_iff. intros [H _]. now apply Nat.eqb_eq.
Qed.

Lemma no_space_tail c s : no_space (String c s) = true -> no_space s = true.
Proof. cbn [no_space]. rewrite andb_true_iff. tauto. Qed.

(** A white-space character does not end in a blank: what starts a text
    still starts it, and nothing more, when a blank and more text follow. *)
Lemma space_width_then_blank c s t :
  space_width (String c s ++ String " " t) = space_width (String c s).
Proof.
  destruct s as [|d [|e r]]; cbn [String.append space_width];
    destruct (space1 c); try reflexivity.
  - unfold space2. change (code " ") with 32%nat. cbn [Nat.eqb orb].
    rewrite andb_false_r.
    destruct t; [reflexivity|]. unfold space3.
    change (code " ") with 32%nat. cbn [Nat.eqb].
    now rewrite !andb_false_r.
  - destruct (space2 c d); [reflexivity|]. unfold space3.
    change (code " ") with 32%nat. cbn [Nat.eqb Nat.leb orb andb].
    now rewrite !andb_false_r.
Qed.

Lemma words_from_step c r :
  words_from 0 (String c r)
  = match space_width (String c r) with
    | S k => words_from k r
    | O =>
        match r with
        | EmptyString => [str1 c]
        | String _ _ =>
            if Nat.eqb (space_width r) 0 then
              match words_from 0 r with
              | w :: ws => String c w :: ws
              | [] => [str1 c]
              end
            else str1 c :: words_from 0 r
        end
    end.
Proof. reflexivity. Qed.

Lemma words_word c s :
  no_space (String c s) = true -> words_from 0 (String c s) = [String c s].
Proof.
  revert c. induction s as [|c' s IH]; intros c H.
  - rewrite words_from_step. now rewrite (no_space_head _ H).
  - rewrite words_from_step. rewrite (no_space_head _ H).
    pose proof (no_space_tail _ _ H) as Ht.
    rewrite (no_space_head _ Ht). cbn [Nat.eqb].
    now rewrite (IH c' Ht).
Qed.

Lemma words_blank t : words_from 0 (String " " t) = words_from 0 t.
Proof. reflexivity. Qed.

Lemma words_word_then c s t :
  no_space (String c s) = true ->
  words_from 0 (String c s ++ String " " t) = String c s :: words_from 0 t.
Proof.
  revert c. induction s as [|c' s IH]; intros c H.
  - pose proof (space_width_then_blank c EmptyString t) as E.
    rewrite (no_space_head _ H) in E.
    cbn [String.append] in *. rewrite words_from_step, E.
    change (space_width (String " " t)) with 1%nat. cbn [Nat.eqb].
    now rewrite words_blank.
  - pose proof (space_width_then_blank c (String c' s) t) as E.
    rewrite (no_space_head _ H) in E.
    pose proof (no_space_tail _ _ H) as Ht.
    pose proof (space_width_then_blank c' s t) as E'.
    rewrite (no_space_head _ Ht) in E'.
    pose proof (IH c' Ht) as Hw.
    cbn [String.append] in *. rewrite words_from_step, E, E'. cbn [Nat.eqb].
    now rewrite Hw.
Qed.

Lemma join_cons sep w w' r :
  join sep (w :: w' :: r) = (w ++ sep ++ join sep (w' :: r))%string.
Proof. reflexivity. Qed.

(** Splitting a text of words joined by single blanks gives the words
    back. *)
Lemma split_whitespace_join ws :
  Forall (fun w => is_word w = true) ws -> split_whitespace (join " " ws) = ws.
Proof.
  unfold split_whitespace.
  induction 1 as [|w r Hw Hr IH]; [reflexivity|].
  destruct (word_parts w Hw) as (c & s & -> & _ & Hs).
  destruct r as [|w' r'].
  - simpl join. now apply words_word.
  - rewrite join_cons.
    change (" " ++ join " " (w' :: r'))%string
      with (String " " (join " " (w' :: r'))).
    rewrite words_word_then by assumption. now rewrite IH.
Qed.

(** ** Trimming a text that ends with a word *)

Lemma rstrip_no_space s : no_space s = true -> rstrip s = s.
Proof.
  induction s as [|c s IH]; [reflexivity|]. intros H.
  cbn [rstrip]. rewrite blank_fixed by now apply no_space_head.
  cbn [is_empty]. now rewrite IH by now apply (no_space_tail c).
Qed.

(** No white-space character ends in the first byte of a word: a text that
    ends with a word is not blank. *)
Lemma not_blank_before_word w :
  is_word w = true ->
  forall n a, (String.length a <= n)%nat -> blank (a ++ w) = false.
Proof.
  intros Hw. destruct (word_parts w Hw) as (c0 & s0 & -> & Hc0 & Hs0).
  assert (H2 : forall c, space2 c c0 = false).
  { intros c. destruct (space2 c c0) eqn:E; [|reflexivity].
    apply space2_continuation in E. congruence. }
  assert (H3 : forall c e, space3 c c0 e = false).
  { intros c e. destruct (space3 c c0 e) eqn:E; [|reflexivity].
    apply space3_continuation in E. destruct E. congruence. }
  assert (H3' : forall c d, space3 c d c0 = false).
  { intros c d. destruct (space3 c d c0) eqn:E; [|reflexivity].
    apply space3_continuation in E. destruct E. congruence. }
  induction n as [|n IH]; intros a Ha.
  - destruct a; [|simpl in Ha; lia]. cbn [String.append].
    now rewrite blank_fixed by now apply no_space_head.
  - destruct a as [|c [|d [|e a]]]; cbn [String.append String.length] in *.
    + now rewrite blank_fixed by now apply no_space_head.
    + unfold blank. cbn [lstrip].
      destruct (space1 c); [apply (IH EmptyString); simpl; lia|].
      rewrite H2. destruct s0; [reflexivity|]. now rewrite H3.
    + unfold blank. cbn [lstrip].
      destruct (space1 c); [apply (IH (String d EmptyString)); simpl; lia|].
      destruct (space2 c d); [apply (IH EmptyString); simpl; lia|].
      now rewrite H3'.
    + unfold blank. cbn [lstrip].
      destruct (space1 c);
        [apply (IH (String d (String e a))); simpl; lia|].
      destruct (space2 c d); [apply (IH (String e a)); simpl; lia|].
      destruct (space3 c d e); [apply (IH a); lia | reflexivity].
Qed.

Lemma rstrip_app_word a w : is_word w = true -> rstrip (a ++ w) = (a ++ w)%string.
Proof.
  intros Hw. induction a as [|c a IH].
  - destruct (word_parts w Hw) as (c0 & s0 & -> & _ & Hs0).
    now apply rstrip_no_space.
  - cbn [String.append rstrip].
    change (String c (a ++ w)) with (String c a ++ w)%string.
    rewrite (not_blank_before_word w Hw _ (String c a) (Nat.le_refl _)).
    cbn [String.append]. now rewrite IH.
Qed.

Lemma rstrip_join ws : forall a,
  ws <> [] -> Forall (fun w => is_word w = true) ws ->
  rstrip (a ++ join " " ws) = (a ++ join " " ws)%string.
Proof.
  induction ws as [|w r IH]; intros a Hne Hall; [congruence|].
  inversion Hall as [|? ? Hw Hr]; subst.
  destruct r as [|w' r'].
  - simpl. now apply rstrip_app_word.
  - rewrite join_cons, <- !append_assoc. apply IH; [discriminate | assumption].
Qed.

Lemma join_first ws :
  ws <> [] -> Forall (fun w => is_word w = true) ws ->
  exists c s, join " " ws = String c s /\ is_continuation c = false
              /\ space_width (String c s) = 0%nat.
Proof.
  intros Hne Hall. destruct ws as [|w r]; [congruence|].
  inversion Hall as [|? ? Hw Hr]; subst.
  destruct (word_parts w Hw) as (c & s & -> & Hc & Hs).
  destruct r as [|w' r'].
  - cbn [join]. exists c, s. repeat split; [assumption | now apply no_space_head].
  - rewrite join_cons.
    change (" " ++ join " " (w' :: r'))%string
      with (String " " (join " " (w' :: r'))).
    exists c, (s ++ String " " (join " " (w' :: r')))%string.
    repeat split; [assumption|].
    change (String c (s ++ String " " (join " " (w' :: r'))))
      with (String c s ++ String " " (join " " (w' :: r')))%string.
    rewrite space_width_then_blank. now apply no_space_head.
Qed.

Lemma strip_join ws :
  ws <> [] -> Forall (fun w => is_word w = true) ws ->
  strip (join " " ws) = join " " ws.
Proof.
  intros Hne Hall. unfold strip.
  destruct (join_first ws Hne Hall) as (c & s & E & _ & Hw).
  rewrite E, lstrip_fixed by assumption. rewrite <- E.
  apply (rstrip_join ws EmptyString Hne Hall).
Qed.

Lemma word_count_join ws :
  ws <> [] -> Forall (fun w => is_word w = true) ws ->
  word_count (strip (join " " ws)) = Z.of_nat (List.length ws).
Proof.
  intros Hne Hall. unfold word_count.
  now rewrite strip_join, split_whitespace_join.
Qed.

(** A command made of a verb in ASCII letters and words: trimming changes
    nothing. *)
Lemma strip_command verb c v ws :
  verb = String c v -> plain verb = true -> space1 c = false ->
  ws <> [] -> Forall (fun w => is_word w = true) ws ->
  strip (verb ++ " " ++ join " " ws) = (verb ++ " " ++ join " " ws)%string.
Proof.
  intros -> Hp Hc Hne Hall. unfold strip.
  cbn [plain] in Hp. apply andb_true_iff in Hp. destruct Hp as [Ha _].
  rewrite lstrip_fixed.
  - rewrite <- append_assoc. now apply rstrip_join.
  - cbn [String.append]. now rewrite space_width_ascii, Hc.
Qed.

(** ** Slices *)

Lemma skip_chars_plain a rest i :
  plain a = true ->
  (forall c r, rest = String c r -> is_continuation c = false) ->
  skip_chars_from i (String.length a) (a ++ rest) = rest.
Proof.
  intros Ha Hr. revert i. induction a as [|c a IH]; intros i.
  - cbn [String.length String.append]. destruct rest as [|c r]; [reflexivity|].
    cbn [skip_chars_from]. rewrite (Hr c r eq_refl). now rewrite andb_false_r.
  - cbn [plain] in Ha. apply andb_true_iff in Ha. destruct Ha as [Hc Ha].
    cbn [String.length String.append skip_chars_from].
    replace (is_continuation c) with false.
    + rewrite andb_false_r. now apply IH.
    + symmetry. unfold is_continuation. apply Nat.ltb_lt in Hc.
      replace (Nat.leb 128 (code c)) with false; [reflexivity|].
      symmetry. apply Nat.leb_gt. lia.
Qed.

Lemma plain_app a b : plain a = true -> plain b = true -> plain (a ++ b) = true.
Proof.
  induction a as [|c a IH]; [auto|]. cbn [plain String.append].
  rewrite !andb_true_iff. intros [Hc Ha] Hb. auto.
Qed.

Lemma length_app a b :
  String.length (a ++ b) = (String.length a + String.length b)%nat.
Proof. induction a as [|c a IH]; simpl; congruence. Qed.

Lemma skip_verb verb ws :
  plain verb = true ->
  ws <> [] -> Forall (fun w => is_word w = true) ws ->
  skip_chars (String.length verb + 1) (verb ++ " " ++ join " " ws)
  = join " " ws.
Proof.
  intros Hp Hne Hall. unfold skip_chars.
  replace (String.length verb + 1)%nat with (String.length (verb ++ " "))
    by (rewrite length_app; reflexivity).
  rewrite <- append_assoc. apply skip_chars_plain.
  - now apply plain_app.
  - intros c r E. destruct (join_first ws Hne Hall) as (c' & s' & E' & Hc & _).
    congruence.
Qed.

(** ** Rounding the quotient *)

Lemma true_div_mantissa a b : 0 < a -> 0 < b -> 0 <= fst (true_div a b).
Proof.
  intros Ha Hb. unfold true_div. cbv zeta. cbn [fst].
  set (e := Z.max _ (- 1074)).
  set (num := a * 2 ^ Z.max 0 (- e)). set (den := b * 2 ^ Z.max 0 e).
  assert (Hn : 0 <= num) by (apply Z.mul_nonneg_nonneg; [lia|]; apply Z.pow_nonneg; lia).
  assert (Hd : 0 < den) by (apply Z.mul_pos_pos; [lia|]; apply Z.pow_pos_nonneg; lia).
  assert (Hq : 0 <= num / den) by (apply Z.div_pos; assumption).
  destruct (2 * (num mod den) <? den); [lia|].
  destruct (den <? 2 * (num mod den)); [lia|].
  destruct (Z.even (num / den)); lia.
Qed.

Lemma ceil_div_nonnegative n m :
  0 <= n -> 0 < m -> exists k, ceil_div n m = Some k /\ 0 <= k.
Proof.
  intros Hn Hm. unfold ceil_div.
  replace (m =? 0) with false by (symmetry; apply Z.eqb_neq; lia).
  destruct (Z.eqb_spec n 0) as [E|E]; [exists 0; split; [reflexivity | lia]|].
  rewrite Z.abs_eq, Z.abs_eq by lia.
  pose proof (true_div_mantissa n m ltac:(lia) Hm) as Hq.
  destruct (true_div n m) as [q e]. cbn [fst] in Hq.
  replace (Z.sgn n * Z.sgn m) with 1
    by (rewrite !Z.sgn_pos by lia; reflexivity).
  eexists. split; [reflexivity|].
  destruct (Z.leb_spec 0 e) as [He|He].
  - rewrite Z.mul_1_l. apply Z.mul_nonneg_nonneg; [lia|].
    apply Z.pow_nonneg. lia.
  - rewrite Z.mul_1_l.
    assert (0 < 2 ^ (- e)) by (apply Z.pow_pos_nonneg; lia).
    assert ((- q) / 2 ^ (- e) <= 0); [|lia].
    apply Z.div_le_upper_bound; lia.
Qed.

(** Rounding to the nearest of [q0] and [q0 + 1], on a grid fine enough for
    the divisor, and then up to a whole number gives the ceiling of the
    quotient. *)
Lemma round_then_ceil n m D q0 rem q :
  0 < n -> 0 < m -> 0 < D -> m < 2 * D ->
  n * D = q0 * m + rem -> 0 <= rem < m ->
  (q = q0 /\ 2 * rem <= m \/ q = q0 + 1 /\ m <= 2 * rem) ->
  - ((- q) / D) = (n + m - 1) / m.
Proof.
  intros Hn Hm HD HmD Hdiv Hrem Hq.
  set (K := (n + m - 1) / m).
  assert (HK : (K - 1) * m < n <= K * m).
  { pose proof (Z.div_mod (n + m - 1) m ltac:(lia)) as E.
    pose proof (Z.mod_pos_bound (n + m - 1) m Hm) as B.
    fold K in E. nia. }
  assert (Hlow : (K - 1) * D <= q0).
  { assert ((K - 1) * D * m < (q0 + 1) * m) by nia.
    assert ((K - 1) * D < q0 + 1) by nia. lia. }
  assert (Hup : q0 <= K * D).
  { assert (q0 * m <= K * D * m) by nia. nia. }
  assert (Hq' : (K - 1) * D < q <= K * D).
  { destruct Hq as [[-> Hr] | [-> Hr]].
    - split; [|exact Hup].
      assert (q0 <> (K - 1) * D); [|lia].
      intros E. subst q0. nia.
    - split; [lia|].
      assert (q0 <> K * D); [|lia].
      intros E. subst q0. nia. }
  assert (E : (- q) / D = - K); [|lia].
  symmetry. apply (Z.div_unique (- q) D (- K) (K * D - q)); [lia | nia].
Qed.

(** For fewer than 2^53 words and a positive divisor below 2^1022,
    [math.ceil(n / m)] is the quotient rounded up. *)
Lemma ceil_div_exact n m :
  0 <= n < 2 ^ 53 -> 0 < m < 2 ^ 1022 ->
  ceil_div n m = Some ((n + m - 1) / m).
Proof.
  intros Hn Hm. unfold ceil_div.
  replace (m =? 0) with false by (symmetry; apply Z.eqb_neq; lia).
  destruct (Z.eqb_spec n 0) as [E|E].
  { subst n. f_equal. symmetry. apply Z.div_small. lia. }
  rewrite Z.abs_eq, Z.abs_eq by lia.
  replace (Z.sgn n * Z.sgn m) with 1
    by (rewrite !Z.sgn_pos by lia; reflexivity).
  unfold true_div. cbv zeta.
  set (la := Z.log2 n). set (lb := Z.log2 m).
  assert (Hla : 0 <= la < 53).
  { split; [apply Z.log2_nonneg|]. apply Z.log2_lt_pow2; lia. }
  assert (Hlb : 0 <= lb < 1022).
  { split; [apply Z.log2_nonneg|]. apply Z.log2_lt_pow2; lia. }
  assert (Hmb : m < 2 ^ (lb + 1)).
  { pose proof (Z.log2_spec m ltac:(lia)) as S. fold lb in S.
    replace (lb + 1) with (Z.succ lb) by lia. tauto. }
  set (l := if _ <=? _ then la - lb else la - lb - 1).
  assert (Hl : la - lb - 1 <= l <= la - lb) by (subst l; destruct (_ <=? _); lia).
  clearbody l.
  rewrite (Z.max_l (l - 52) (- 1074)) by lia.
  destruct (Z.eq_dec l 52) as [El|El].
  - (* the quotient has 53 bits: the divisor is 1 *)
    subst l. assert (lb = 0) by lia. assert (m = 1).
    { replace (lb + 1) with 1 in Hmb by lia. change (2 ^ 1) with 2 in Hmb. lia. }
    subst m. change (52 - 52) with 0. change (- 0) with 0.
    change (Z.max 0 0) with 0. change (2 ^ 0) with 1.
    rewrite !Z.mul_1_r, Z.div_1_r, Z.mod_1_r.
    change (2 * 0 <? 1) with true. change (0 <=? 0) with true. cbv iota.
    rewrite ?Z.mul_1_l, ?Z.mul_1_r.
    f_equal. replace (n + 1 - 1) with n by lia. now rewrite Z.div_1_r.
  - assert (He : l - 52 < 0) by lia.
    rewrite (Z.max_r 0 (- (l - 52))) by lia.
    rewrite (Z.max_l 0 (l - 52)) by lia.
    change (2 ^ 0) with 1. rewrite Z.mul_1_r.
    set (D := 2 ^ (- (l - 52))).
    assert (HD : 0 < D) by (apply Z.pow_pos_nonneg; lia).
    assert (HmD : m < 2 * D).
    { assert (2 ^ (lb + 1) <= 2 * D); [|lia].
      replace (2 * D) with (2 ^ (1 + - (l - 52)))
        by (rewrite Z.pow_add_r by lia; reflexivity).
      apply Z.pow_le_mono_r; lia. }
    replace (0 <=? l - 52) with false by (symmetry; apply Z.leb_gt; lia).
    rewrite Z.mul_1_l. f_equal.
    pose proof (Z.div_mod (n * D) m ltac:(lia)) as Edm.
    pose proof (Z.mod_pos_bound (n * D) m ltac:(lia)) as Brem.
    apply (round_then_ceil n m D (n * D / m) ((n * D) mod m)); try lia.
    destruct (Z.ltb_spec (2 * ((n * D) mod m)) m) as [H1|H1]; [left; lia|].
    destruct (Z.ltb_spec m (2 * ((n * D) mod m))) as [H2|H2]; [right; lia|].
    destruct (Z.even (n * D / m)); [left | right]; lia.
Qed.

(** ** The cost *)

Lemma add_words_bound cost extra text m :
  0 <= extra -> 0 < m ->
  exists c, add_words cost extra text m = Some c /\ cost <= c.
Proof.
  intros He Hm. unfold add_words.
  destruct (ceil_div_nonnegative (word_count text) m) as (k & -> & Hk);
    [unfold word_count; lia | assumption |].
  eexists. split; [reflexivity | lia].
Qed.

(** X10.  Under rules with positive divisors and no negative surcharge,
    [calculate_tu_cost] raises no error and never returns less than the
    base cost, whatever the command. *)
Theorem no_command_is_cheaper_than_the_ante rules command :
  sound rules ->
  exists cost,
    calculate_tu_cost rules command = Some cost /\ base_cost rules <= cost.
Proof.
  intros (Hsay & Hshout & Hnote & Hdig & Hdesc).
  unfold calculate_tu_cost. cbv zeta.
  destruct (negb (scale_with_content rules));
    [eexists; split; [reflexivity | lia]|].
  destruct (startswith "say " _); [apply add_words_bound; lia|].
  destruct (startswith "emote " _); [apply add_words_bound; lia|].
  destruct (startswith "shout " _); [apply add_words_bound; lia|].
  destruct (startswith "note " _).
  { destruct (split_once colon _) as [before [after|]];
      [apply add_words_bound; lia | eexists; split; [reflexivity | lia]]. }
  destruct (startswith "dig " _); [eexists; split; [reflexivity | lia]|].
  destruct (startswith "describe " _); [apply add_words_bound; lia|].
  destruct (startswith "dream" _); eexists; split; try reflexivity; lia.
Qed.

Lemma no_command_is_cheaper_than_the_ante_witness :
  exists cost,
    calculate_tu_cost default "describe a quiet room with one window"
    = Some cost /\ 1 <= cost.
Proof.
  apply (no_command_is_cheaper_than_the_ante
           default "describe a quiet room with one window").
  unfold sound. simpl. lia.
Defined.

(** Decide the tests on a text whose first characters are known. *)
Ltac decide_startswith :=
  repeat match goal with
         | |- context [startswith ?p ?s] =>
             let b := eval cbv in (startswith p s) in
             match b with
             | true => idtac
             | false => idtac
             end;
             change (startswith p s) with b; cbv iota
         end.

(** The cost of a verb that charges by the word, for a command made of the
    verb, in any case of letters, and words separated by single blanks. *)
Lemma cost_by_the_word rules verb ws m :
  scale_with_content rules = true ->
  ws <> [] -> Forall (fun w => is_word w = true) ws ->
  (lower verb = "say" /\ m = say_multiplier rules
   \/ lower verb = "emote" /\ m = note_multiplier rules
   \/ lower verb = "shout" /\ m = shout_multiplier rules) ->
  calculate_tu_cost rules (verb ++ " " ++ join " " ws)
  = add_words (base_cost rules) 0 (join " " ws) m.
Proof.
  intros Hscale Hne Hall Hverb.
  assert (Hp : plain verb = true).
  { apply plain_lower.
    destruct Hverb as [[-> _] | [[-> _] | [-> _]]]; reflexivity. }
  assert (Hlen : String.length verb = String.length (lower verb))
    by (now rewrite length_lower).
  assert (Hv : exists c v, verb = String c v /\ space1 c = false).
  { destruct verb as [|c v];
      [destruct Hverb as [[E _] | [[E _] | [E _]]]; discriminate E|].
    exists c, v. split; [reflexivity|].
    rewrite <- space1_lower.
    destruct Hverb as [[E _] | [[E _] | [E _]]];
      cbn [lower] in E; injection E as -> _; reflexivity. }
  destruct Hv as (c & v & Ev & Hc).
  pose proof (skip_verb verb ws Hp Hne Hall) as Hskip.
  pose proof (strip_command verb c v ws Ev Hp Hc Hne Hall) as Hstrip.
  destruct (join_first ws Hne Hall) as (c0 & s0 & Ej & _).
  unfold calculate_tu_cost. rewrite Hscale. cbv zeta. cbn [negb].
  rewrite strip_lower, Hstrip, !lower_app.
  assert (Ejl : exists c1 s1, lower (join " " ws) = String c1 s1)
    by (rewrite Ej; cbn [lower]; eauto).
  destruct Ejl as (c1 & s1 & Ejl). rewrite Ejl.
  rewrite Hlen in Hskip.
  destruct Hverb as [[E ->] | [[E ->] | [E ->]]];
    rewrite E in *; cbn [String.length Nat.add] in Hskip; rewrite Hskip;
    decide_startswith; now rewrite strip_join.
Qed.

(** X11.  A SAY, EMOTE or SHOUT command, the verb in any case of letters
    followed by [n] words separated by single blanks, costs the base cost
    plus [math.ceil(n / m)] for the multiplier [m] of the verb: the say
    multiplier, the note multiplier for EMOTE, the shout multiplier.  The
    quotient is a floating-point number; for a multiplier that is positive
    and below 2^1022 and fewer than 2^53 words, the cost is the base cost
    plus [n] divided by [m], rounded up. *)
Theorem speech_is_charged_by_the_word rules verb ws m :
  scale_with_content rules = true ->
  ws <> [] -> Forall (fun w => is_word w = true) ws ->
  (lower verb = "say" /\ m = say_multiplier rules
   \/ lower verb = "emote" /\ m = note_multiplier rules
   \/ lower verb = "shout" /\ m = shout_multiplier rules) ->
  let n := Z.of_nat (List.length ws) in
  let command := (verb ++ " " ++ join " " ws)%string in
  calculate_tu_cost rules command
  = match ceil_div n m with
    | Some k => Some (base_cost rules + k)
    | None => None
    end
  /\ (0 < m < 2 ^ 1022 -> n < 2 ^ 53 ->
      calculate_tu_cost rules command
      = Some (base_cost rules + (n + m - 1) / m)).
Proof.
  intros Hscale Hne Hall Hverb n command.
  assert (E : calculate_tu_cost rules command
              = match ceil_div n m with
                | Some k => Some (base_cost rules + k)
                | None => None
                end).
  { unfold command. rewrite (cost_by_the_word rules verb ws m) by assumption.
    unfold add_words, word_count. rewrite split_whitespace_join by assumption.
    fold n. now destruct (ceil_div n m). }
  split; [exact E|].
  intros Hm Hn. rewrite E, ceil_div_exact; [reflexivity | lia | lia].
Qed.

Lemma speech_is_charged_by_the_word_witness :
  calculate_tu_cost default "Say hello there my old friend" = Some 3.
Proof.
  destruct (speech_is_charged_by_the_word
              default "Say" ["hello"; "there"; "my"; "old"; "friend"] 3)
    as [_ H].
  - reflexivity.
  - discriminate.
  - repeat constructor.
  - left. split; reflexivity.
  - apply H; [split; [lia | reflexivity] | reflexivity].
Defined.

End TurnRulesFacts.

(* ================================================================== *)
(** * The event dispatcher: who is told what *)
(* ================================================================== *)

Module EventDispatcherProperties.
Import Event EventDispatcher EventDispatcherNotions DictFacts EventDispatcherFacts.

Lemma opt_eqb_eq a b : opt_eqb a b = true -> a = b.
Proof.
  destruct a as [x|], b as [y|]; simpl; try discriminate; [|reflexivity].
  intros H. apply String.eqb_eq in H. now subst.
Qed.

Lemma opt_eqb_refl a : opt_eqb a a = true.
Proof. destruct a; simpl; [apply String.eqb_refl | reflexivity]. Qed.

(** What a call made by the loop of [dispatch_event] looks like. *)
Lemma notify_one_call etype ev d o c :
  In c (notify_one etype ev d o) ->
  call_observer c = o
  /\ call_type c = etype
  /\ call_text c = _format_for_observer etype ev o
  /\ PyStr.is_empty (call_text c) = false
  /\ Dict.get o (observers d) = Some (call_cb c)
  /\ (String.eqb o (or_default (actor ev) "unknown")
      && (String.eqb etype "speech" || String.eqb etype "shout"
          || String.eqb etype "emote")) = false.
Proof.
  unfold notify_one.
  destruct (String.eqb o _ && _); [contradiction|].
  destruct (PyStr.is_empty _) eqn:E; [contradiction|].
  destruct (Dict.get o (observers d)); [|contradiction].
  intros [<-|[]]. simpl. auto 10.
Qed.

Lemma dispatch_event_call etype ev d c :
  In c (dispatch_event etype ev d) ->
  In (call_observer c) (observers_to_notify etype ev d)
  /\ In c (notify_one etype ev d (call_observer c)).
Proof.
  unfold dispatch_event. rewrite in_flat_map. intros (o & Ho & Hc).
  pose proof (notify_one_observer _ _ _ _ _ Hc) as E. subst o. auto.
Qed.

(** X12.  An event that is neither an error, nor a shout, nor a movement
    is delivered in its own room only: every callback called belongs to an
    observer whose recorded location is the location of the event, and it is
    the callback registered for that observer. *)
Theorem standard_events_stay_in_the_room etype ev d c :
  is_error ev = false ->
  etype <> "shout" -> etype <> "movement" ->
  In c (dispatch_event etype ev d) ->
  Dict.get (call_observer c) (observer_locations ev)
  = Some (or_default (location ev) "unknown")
  /\ Dict.get (call_observer c) (observers d) = Some (call_cb c)
  /\ call_type c = etype.
Proof.
  intros He Hs Hm Hc. apply dispatch_event_call in Hc. destruct Hc as [Ho Hc].
  apply notify_one_call in Hc. destruct Hc as (_ & Ht & _ & _ & Hg & _).
  split; [|auto].
  unfold observers_to_notify in Ho. rewrite He in Ho.
  apply String.eqb_neq in Hs, Hm. rewrite Hs, Hm in Ho.
  apply filter_In in Ho. destruct Ho as [_ Ho]. now apply opt_eqb_eq in Ho.
Qed.

Lemma standard_events_stay_in_the_room_witness :
  let c := mk_call 2%nat "observation" "Bob looks around" "Alice" in
  In c (dispatch_event "observation" kitchen_observation kitchen_registry)
  /\ Dict.get (call_observer c) where_they_are = Some "Kitchen"
  /\ Dict.get (call_observer c) (observers kitchen_registry) = Some (call_cb c)
  /\ call_type c = "observation".
Proof.
  intros c.
  assert (Hc : In c (dispatch_event "observation" kitchen_observation
                                    kitchen_registry)) by (left; reflexivity).
  split; [exact Hc|].
  apply (standard_events_stay_in_the_room
           "observation" kitchen_observation kitchen_registry c);
    [reflexivity | discriminate | discriminate | exact Hc].
Defined.

(** The calls of a movement for observers that stand at its origin or at
    its destination. *)
Lemma movement_calls ev d from to l :
  origin ev = Some from -> destination ev = Some to ->
  (forall o, In o l ->
     In o (Dict.keys (observers d))
     /\ opt_eqb (Dict.get o (observer_locations ev)) (Some from)
        || opt_eqb (Dict.get o (observer_locations ev)) (Some to) = true) ->
  PyStr.contains warning_sign (or_default (message ev) EmptyString) = false ->
  PyStr.contains "You say:" (or_default (message ev) EmptyString) = false ->
  map call_observer (flat_map (notify_one "movement" ev d) l)
  = filter (fun o => negb (String.eqb o (or_default (actor ev) "unknown"))) l.
Proof.
  intros Hfrom Hto Hl Hw Hy. induction l as [|o l IH]; [reflexivity|].
  cbn [flat_map filter]. rewrite map_app, IH by (intros; apply Hl; now right).
  destruct (Hl o (or_introl eq_refl)) as [Hin Hloc].
  unfold notify_one at 1.
  replace (String.eqb "movement" "speech") with false by reflexivity.
  replace (String.eqb "movement" "shout") with false by reflexivity.
  replace (String.eqb "movement" "emote") with false by reflexivity.
  cbn [orb]. rewrite andb_false_r.
  unfold _format_for_observer. rewrite Hw, Hy, Hfrom, Hto.
  cbn [andb or_default].
  replace (String.eqb "movement" "speech") with false by reflexivity.
  replace (String.eqb "movement" "shout") with false by reflexivity.
  replace (String.eqb "movement" "emote") with false by reflexivity.
  replace (String.eqb "movement" "movement") with true by reflexivity.
  destruct (String.eqb o (or_default (actor ev) "unknown")) eqn:Eo; [reflexivity|].
  cbn [negb].
  apply mem_In in Hin. unfold Dict.mem in Hin.
  destruct (opt_eqb (Dict.get o (observer_locations ev)) (Some from)).
  - rewrite !is_empty_app. cbn [PyStr.is_empty andb]. rewrite andb_false_r.
    destruct (Dict.get o (observers d)); [reflexivity | discriminate].
  - cbn [orb] in Hloc. rewrite Hloc.
    rewrite !is_empty_app. cbn [PyStr.is_empty andb]. rewrite andb_false_r.
    destruct (Dict.get o (observers d)); [reflexivity | discriminate].
Qed.

(** X13.  A movement with an origin and a destination that is not an error
    is never told to the one who moves, and whoever is told is told from
    where they stand: an observer at the origin is told where the actor
    went, an observer at the destination where the actor came from.  When
    the message of the event carries neither the warning sign nor the words
    [You say:], the observers told are the registered observers recorded at
    the origin or at the destination, the actor left out, each once and in
    the order of registration. *)
Theorem movement_is_told_from_where_one_stands ev d from to :
  is_error ev = false ->
  origin ev = Some from -> destination ev = Some to ->
  let who := or_default (actor ev) "unknown" in
  let how := or_default (via ev) "moved" in
  let place := fun o => Dict.get o (observer_locations ev) in
  (forall c, In c (dispatch_event "movement" ev d) ->
     call_observer c <> who
     /\ (place (call_observer c) = Some from
         /\ call_text c = (who ++ " " ++ how ++ " to " ++ to ++ ".")%string
         \/ place (call_observer c) = Some to
            /\ place (call_observer c) <> Some from
            /\ call_text c
               = (who ++ " " ++ how ++ " from " ++ from ++ ".")%string))
  /\ (PyStr.contains warning_sign (or_default (message ev) EmptyString) = false ->
      PyStr.contains "You say:" (or_default (message ev) EmptyString) = false ->
      map call_observer (dispatch_event "movement" ev d)
      = filter (fun o => negb (String.eqb o who))
               (filter (fun o => opt_eqb (place o) (Some from)
                                 || opt_eqb (place o) (Some to))
                       (Dict.keys (observers d)))).
Proof.
  intros He Hfrom Hto who how place.
  assert (Eo : observers_to_notify "movement" ev d
               = filter (fun o => opt_eqb (place o) (Some from)
                                  || opt_eqb (place o) (Some to))
                        (Dict.keys (observers d))).
  { unfold observers_to_notify. rewrite He, Hfrom, Hto. reflexivity. }
  split.
  - intros c Hc.
    apply dispatch_event_call in Hc. destruct Hc as [Ho Hc].
    apply notify_one_call in Hc. destruct Hc as (_ & _ & Ht & Hn & _ & _).
    rewrite Eo in Ho. apply filter_In in Ho. destruct Ho as [_ Ho].
    rewrite Ht in Hn |- *. unfold _format_for_observer in *.
    fold who in Hn |- *. fold how in Hn |- *.
    fold (place (call_observer c)) in Hn |- *.
    rewrite Hfrom, Hto in Hn |- *. cbn [or_default] in Hn |- *.
    destruct (PyStr.contains warning_sign _ && _); [discriminate Hn|].
    destruct (PyStr.contains "You say:" (or_default (message ev) EmptyString) && _);
      [discriminate Hn|].
    replace (String.eqb "movement" "speech") with false in * by reflexivity.
    replace (String.eqb "movement" "shout") with false in * by reflexivity.
    replace (String.eqb "movement" "emote") with false in * by reflexivity.
    replace (String.eqb "movement" "movement") with true in * by reflexivity.
    destruct (String.eqb (call_observer c) who) eqn:Ew; [discriminate Hn|].
    apply String.eqb_neq in Ew. split; [exact Ew|].
    destruct (opt_eqb (place (call_observer c)) (Some from)) eqn:E1.
    + left. apply opt_eqb_eq in E1. auto.
    + right. rewrite orb_false_l in Ho. rewrite Ho.
      apply opt_eqb_eq in Ho. repeat split; [assumption|].
      intros E. rewrite E, opt_eqb_refl in E1. discriminate.
  - intros Hw Hy. unfold dispatch_event. rewrite Eo.
    apply (movement_calls ev d from to); try assumption.
    intros o Ho. apply filter_In in Ho. exact Ho.
Qed.

Lemma movement_is_told_from_where_one_stands_witness :
  let c := mk_call 3%nat "movement" "Bob moved from Kitchen." "Carol" in
  In c (dispatch_event "movement" bob_moves kitchen_registry)
  /\ call_observer c <> "Bob"
  /\ (Dict.get (call_observer c) where_they_are = Some "Kitchen"
      /\ call_text c = "Bob moved to Garden."
      \/ Dict.get (call_observer c) where_they_are = Some "Garden"
         /\ Dict.get (call_observer c) where_they_are <> Some "Kitchen"
         /\ call_text c = "Bob moved from Kitchen.")
  /\ map call_observer (dispatch_event "movement" bob_moves kitchen_registry)
     = ["Alice"; "Carol"].
Proof.
  intros c.
  assert (Hc : In c (dispatch_event "movement" bob_moves kitchen_registry))
    by (right; left; reflexivity).
  destruct (movement_is_told_from_where_one_stands
              bob_moves kitchen_registry "Kitchen" "Garden"
              eq_refl eq_refl eq_refl) as [H1 H2].
  split; [exact Hc|]. destruct (H1 c Hc) as [Ha Hb].
  split; [exact Ha|]. split; [exact Hb|].
  rewrite H2 by reflexivity. reflexivity.
Defined.

(** X14.  A confirmation of a command reaches nobody but the actor, and
    reads as the description of the event, whether or not the event counts
    as an error. *)
Theorem command_confirmation_goes_to_the_actor ev d c :
  In c (dispatch_event "command" ev d) ->
  call_observer c = or_default (actor ev) "unknown"
  /\ call_text c = or_default (description ev) EmptyString.
Proof.
  intros Hc. apply dispatch_event_call in Hc. destruct Hc as [_ Hc].
  apply notify_one_call in Hc. destruct Hc as (_ & _ & Ht & Hn & _ & _).
  rewrite Ht in Hn |- *. unfold _format_for_observer in *.
  destruct (String.eqb (call_observer c) (or_default (actor ev) "unknown")) eqn:Ew.
  - apply String.eqb_eq in Ew. split; [exact Ew|].
    cbn [negb andb] in *. rewrite !andb_false_r in *. reflexivity.
  - exfalso. cbn [negb] in Hn. rewrite !andb_true_r in Hn.
    destruct (PyStr.contains warning_sign _); [discriminate Hn|].
    destruct (PyStr.contains "You say:" (or_default (message ev) EmptyString));
      discriminate Hn.
Qed.

Lemma command_confirmation_goes_to_the_actor_witness :
  let c := mk_call 1%nat "command" "Bob looks around" "Bob" in
  dispatch_event "command" kitchen_observation kitchen_registry = [c]
  /\ call_observer c = "Bob"
  /\ call_text c = "Bob looks around".
Proof.
  intros c. split; [reflexivity|].
  apply (command_confirmation_goes_to_the_actor
           kitchen_observation kitchen_registry c).
  left. reflexivity.
Defined.

(** ** Leaving the registry *)

Lemma del_not_mem {V : Type} k (d : Dict.t V) :
  Dict.wf d = true -> ~ In k (Dict.keys (Dict.del k d)).
Proof.
  unfold Dict.wf. rewrite uniq_NoDup.
  induction d as [|[k' v'] r IH]; simpl; [tauto|].
  intros H. inversion H as [|? ? Hn Hr]; subst.
  destruct (String.eqb k k') eqn:E.
  - apply String.eqb_eq in E. now subst.
  - simpl. intros [->|Hin]; [now rewrite String.eqb_refl in E | now apply IH].
Qed.

(** X15.  Once a name is unregistered no event calls anything for it; and
    unregistering a name just registered, which was not registered before,
    gives back the registry as it was. *)
Theorem unregistered_observer_is_not_called name etype ev d :
  Dict.wf (observers d) = true ->
  (forall c, In c (dispatch_event etype ev (unregister name d)) ->
             call_observer c <> name)
  /\ (Dict.mem name (observers d) = false ->
      forall cb, unregister name (register name cb d) = d).
Proof.
  intros Hwf. split.
  - intros c Hc E. apply dispatch_event_observer in Hc.
    apply observers_to_notify_registered in Hc. rewrite E in Hc.
    unfold unregister in Hc.
    destruct (Dict.mem name (observers d)) eqn:Em.
    + simpl in Hc. now apply del_not_mem in Hc.
    + apply mem_In in Hc. congruence.
  - intros Hn cb. unfold unregister, register. cbn [observers recent_events].
    replace (Dict.mem name (Dict.set name cb (observers d))) with true
      by (unfold Dict.mem; now rewrite get_set_same).
    rewrite TurnManagerReachable.del_set_new by assumption. now destruct d.
Qed.

Lemma unregistered_observer_is_not_called_witness :
  (forall c, In c (dispatch_event "shout" kitchen_observation
                                  (unregister "Alice" kitchen_registry)) ->
             call_observer c <> "Alice")
  /\ unregister "Dave" (register "Dave" 4%nat kitchen_registry) = kitchen_registry.
Proof.
  destruct (unregistered_observer_is_not_called
              "Alice" "shout" kitchen_observation kitchen_registry eq_refl) as [H _].
  destruct (unregistered_observer_is_not_called
              "Dave" "shout" kitchen_observation kitchen_registry eq_refl) as [_ H'].
  split; [exact H | apply H'; reflexivity].
Defined.

(** ** Shouts *)

Lemma shout_text ev o :
  o <> or_default (actor ev) "unknown" ->
  PyStr.contains warning_sign (or_default (message ev) EmptyString) = false ->
  PyStr.contains "You say:" (or_default (message ev) EmptyString) = false ->
  _format_for_observer "shout" ev o
  = (or_default (actor ev) "unknown" ++ " shouts from "
       ++ or_default (location ev) "somewhere" ++ ": "
       ++ quoted (or_default (message ev) EmptyString))%string.
Proof.
  intros Ho Hw Hy. apply String.eqb_neq in Ho.
  unfold _format_for_observer. rewrite Hw, Hy, Ho. reflexivity.
Qed.

Lemma shout_calls ev d l :
  (forall o, In o l -> In o (Dict.keys (observers d))) ->
  PyStr.contains warning_sign (or_default (message ev) EmptyString) = false ->
  PyStr.contains "You say:" (or_default (message ev) EmptyString) = false ->
  map call_observer (flat_map (notify_one "shout" ev d) l)
  = filter (fun o => negb (String.eqb o (or_default (actor ev) "unknown"))) l.
Proof.
  intros Hl Hw Hy. induction l as [|o l IH]; [reflexivity|].
  cbn [flat_map filter]. rewrite map_app, IH by (intros; apply Hl; now right).
  unfold notify_one at 1.
  destruct (String.eqb o (or_default (actor ev) "unknown")) eqn:Eo; [reflexivity|].
  cbn [andb negb]. apply String.eqb_neq in Eo.
  rewrite (bystander_text_not_empty "shout" ev o eq_refl Eo Hw Hy).
  assert (Hin : In o (Dict.keys (observers d))) by (apply Hl; now left).
  apply mem_In in Hin. unfold Dict.mem in Hin.
  destruct (Dict.get o (observers d)); [reflexivity | discriminate].
Qed.

(** The same for the three types whose actor is passed over. *)
Lemma bystander_calls etype ev d l :
  In etype ["speech"; "shout"; "emote"] ->
  (forall o, In o l -> In o (Dict.keys (observers d))) ->
  PyStr.contains warning_sign (or_default (message ev) EmptyString) = false ->
  PyStr.contains "You say:" (or_default (message ev) EmptyString) = false ->
  map call_observer (flat_map (notify_one etype ev d) l)
  = filter (fun o => negb (String.eqb o (or_default (actor ev) "unknown"))) l.
Proof.
  intros Ht Hl Hw Hy.
  assert (Hf : existsb (String.eqb etype) first_person_types = true).
  { apply existsb_eqb_In. simpl in *. tauto. }
  assert (Hs : String.eqb etype "speech" || String.eqb etype "shout"
               || String.eqb etype "emote" = true).
  { simpl in Ht. destruct Ht as [<-|[<-|[<-|[]]]]; reflexivity. }
  induction l as [|o l IH]; [reflexivity|].
  cbn [flat_map filter]. rewrite map_app, IH by (intros; apply Hl; now right).
  unfold notify_one at 1. rewrite Hs, andb_true_r.
  destruct (String.eqb o (or_default (actor ev) "unknown")) eqn:Eo; [reflexivity|].
  cbn [negb]. apply String.eqb_neq in Eo.
  rewrite (bystander_text_not_empty etype ev o Hf Eo Hw Hy).
  assert (Hin : In o (Dict.keys (observers d))) by (apply Hl; now left).
  apply mem_In in Hin. unfold Dict.mem in Hin.
  destruct (Dict.get o (observers d)); [reflexivity | discriminate].
Qed.

(** X16.  A shout that is not an error, and whose message carries neither
    the warning sign nor the words [You say:], calls every registered
    observer but the shouter, once, in the order of registration and
    wherever the observer is; each is told who shouts from where. *)
Theorem shout_reaches_every_room ev d :
  is_error ev = false ->
  PyStr.contains warning_sign (or_default (message ev) EmptyString) = false ->
  PyStr.contains "You say:" (or_default (message ev) EmptyString) = false ->
  map call_observer (dispatch_event "shout" ev d)
  = filter (fun o => negb (String.eqb o (or_default (actor ev) "unknown")))
           (Dict.keys (observers d))
  /\ (forall c, In c (dispatch_event "shout" ev d) ->
        call_text c
        = (or_default (actor ev) "unknown" ++ " shouts from "
             ++ or_default (location ev) "somewhere" ++ ": "
             ++ quoted (or_default (message ev) EmptyString))%string).
Proof.
  intros He Hw Hy.
  assert (E : observers_to_notify "shout" ev d = Dict.keys (observers d))
    by (unfold observers_to_notify; now rewrite He).
  split.
  - unfold dispatch_event. rewrite E. now apply shout_calls.
  - intros c Hc. apply dispatch_event_call in Hc. destruct Hc as [_ Hc].
    apply notify_one_call in Hc. destruct Hc as (_ & _ & Ht & _ & _ & Hs).
    rewrite Ht. apply shout_text; try assumption.
    cbn in Hs. rewrite andb_true_r in Hs. now apply String.eqb_neq.
Qed.

Lemma shout_reaches_every_room_witness :
  map call_observer (dispatch_event "shout" kitchen_observation kitchen_registry)
  = ["Alice"; "Carol"]
  /\ (forall c, In c (dispatch_event "shout" kitchen_observation kitchen_registry) ->
        call_text c
        = ("Bob shouts from Kitchen: " ++ quoted "looks around")%string).
Proof.
  apply (shout_reaches_every_room kitchen_observation kitchen_registry);
    reflexivity.
Defined.

End EventDispatcherProperties.

(* ================================================================== *)
(** * The event bus: records, repeats and leaving the registry *)
(* ================================================================== *)

Module EventBusProperties.
Import Event EventBus EventBusNotions DictFacts EventBusFacts.

(** Every record an observer holds carries the fingerprint [fp]. *)
Lemma notify_one_fingerprints etype description fp ev now bus calls o :
  (forall o' l e, In (o', l) (observer_recent_events bus) -> In e l -> fst e = fp) ->
  forall o' l e,
    In (o', l)
       (observer_recent_events
          (fst (notify_one etype description fp ev now (bus, calls) o))) ->
    In e l -> fst e = fp.
Proof.
  intros H.
  assert (Hkept : forall e,
            In e (filter (fun e => fresh bus now (snd e))
                         (entries o (observer_recent_events bus))) -> fst e = fp).
  { intros e He. apply filter_In in He. destruct He as [He _].
    unfold entries in He.
    destruct (Dict.get o (observer_recent_events bus)) as [l|] eqn:E;
      [|contradiction].
    apply get_In in E. eauto. }
  rewrite notify_one_eq.
  destruct (seen_by bus o fp now); cbn [fst]; simpl.
  - intros o' l e Hin He. apply In_set in Hin.
    destruct Hin as [[= -> ->]|Hin]; eauto.
  - intros o' l e Hin He. apply In_set in Hin. destruct Hin as [[= -> ->]|Hin].
    + rewrite entries_set_same in He. apply in_app_or in He.
      destruct He as [He|[<-|[]]]; [auto | reflexivity].
    + apply In_set in Hin. destruct Hin as [[= -> ->]|Hin]; eauto.
Qed.

Lemma loop_fingerprints etype description fp ev now l : forall bus calls,
  (forall o' l e, In (o', l) (observer_recent_events bus) -> In e l -> fst e = fp) ->
  forall o' l' e,
    In (o', l')
       (observer_recent_events
          (fst (fold_left (notify_one etype description fp ev now) l (bus, calls)))) ->
    In e l' -> fst e = fp.
Proof.
  induction l as [|o l IH]; intros bus calls H; cbn [fold_left]; [exact H|].
  destruct (notify_one etype description fp ev now (bus, calls) o) as [b1 c1] eqn:E.
  apply IH.
  pose proof (notify_one_fingerprints etype description fp ev now bus calls o H) as G.
  now rewrite E in G.
Qed.

(** The calls of the loop are calls of registered callbacks. *)
Lemma loop_calls_registered etype description fp ev now l : forall bus calls c,
  In c (snd (fold_left (notify_one etype description fp ev now) l (bus, calls))) ->
  In c calls
  \/ In (call_observer c) l
     /\ In (call_cb c) (entries (call_observer c) (observers bus))
     /\ call_text c = formatted_description etype description ev (call_observer c).
Proof.
  induction l as [|o l IH]; intros bus calls c; cbn [fold_left snd]; [auto|].
  pose proof (notify_one_frame etype description fp ev now bus calls o) as F.
  rewrite notify_one_eq in F |- *. cbv zeta in F. cbn [fst] in F.
  destruct F as (F1 & _ & _ & _).
  intros Hc. apply IH in Hc. rewrite F1 in Hc.
  destruct Hc as [Hc | (H1 & H2 & H3)]; [|right; simpl; auto].
  destruct (seen_by bus o fp now); [now left|].
  apply in_app_or in Hc. destruct Hc as [Hc|Hc]; [now left|].
  right. unfold calls_for in Hc. apply in_map_iff in Hc.
  destruct Hc as (cb & <- & Hcb). simpl. auto.
Qed.

Section Hash.
Variable md5 : string -> string.

(** X17.  After a publication that is not dropped as a duplicate, every
    fingerprint the bus still remembers was recorded less than the expiry
    time ago: the table of recent events does not grow with the age of the
    bus. *)
Theorem publish_forgets_expired_events etype description ev now bus fp ts :
  is_recent_duplicate (fingerprint_of md5 etype description ev now) now bus = false ->
  In (fp, ts)
     (recent_events (fst (EventBus.publish md5 etype description ev now bus))) ->
  now - ts < event_expiry bus * second.
Proof.
  intros Hd Hin. rewrite publish_passed in Hin by assumption.
  match type of Hin with
  | context [fold_left (notify_one ?a ?b ?c ?d ?e) ?l (?b0, ?c0)] =>
      destruct (loop_frame a b c d e l b0 c0) as (_ & F2 & _)
  end.
  cbv zeta in F2. rewrite F2 in Hin.
  unfold recorded, cleanup_old_events in Hin. simpl in Hin.
  apply filter_In in Hin. destruct Hin as [_ Hf].
  unfold fresh in Hf. simpl in Hf. now apply Z.ltb_lt in Hf.
Qed.

(** X18.  The fingerprint decides what a repeat is.  On a bus without
    records, publish an event and publish it again at a time that gives it
    another fingerprint (the clock second is part of it): the second
    publication is delivered in full, however soon it comes. *)
Theorem repeat_with_another_fingerprint_is_delivered etype description ev t1 t2 bus :
  registry_ok bus = true ->
  recent_events bus = [] ->
  observer_recent_events bus = [] ->
  fingerprint_of md5 etype description ev t1
  <> fingerprint_of md5 etype description ev t2 ->
  let first := EventBus.publish md5 etype description ev t1 bus in
  snd first = full_delivery etype description ev bus
  /\ snd (EventBus.publish md5 etype description ev t2 (fst first))
     = full_delivery etype description ev bus.
Proof.
  intros Hok Hr Ho Hfp first.
  set (fp1 := fingerprint_of md5 etype description ev t1) in *.
  set (fp2 := fingerprint_of md5 etype description ev t2) in *.
  apply registry_ok_spec in Hok. destruct Hok as [Hk _].
  assert (Hd1 : is_recent_duplicate fp1 t1 bus = false)
    by (unfold is_recent_duplicate; now rewrite Hr).
  destruct (publish_frame md5 etype description ev t1 bus) as (Fo & Fe).
  fold first in Fo, Fe.
  assert (Hnone : forall b fp now o,
             observer_recent_events b = [] -> seen_by b o fp now = false).
  { intros b fp now o E. unfold seen_by, observer_has_seen_event, entries.
    now rewrite E. }
  split.
  { unfold first. rewrite publish_passed by assumption. fold fp1.
    rewrite loop_all_served.
    - reflexivity.
    - now apply recipients_NoDup.
    - intros o _. now apply Hnone. }
  assert (E1 : fst first
               = fst (fold_left
                        (notify_one etype (publish_description etype description)
                                    fp1 (publish_data etype ev) t1)
                        (observers_to_notify etype (publish_data etype ev) bus)
                        (recorded fp1 t1 bus, [])))
    by (unfold first; now rewrite publish_passed).
  assert (Hrec : forall k ts, In (k, ts) (recent_events (fst first)) -> k = fp1).
  { intros k ts Hin. rewrite E1 in Hin.
    match type of Hin with
    | context [fold_left (notify_one ?a ?b ?c ?d ?e) ?l (?b0, ?c0)] =>
        destruct (loop_frame a b c d e l b0 c0) as (_ & F2 & _)
    end.
    cbv zeta in F2. rewrite F2 in Hin.
    unfold recorded, cleanup_old_events in Hin. simpl in Hin. rewrite Hr in Hin.
    apply filter_In in Hin. destruct Hin as [[[= <- _]|[]] _]. reflexivity. }
  assert (Hobs : forall o l e,
             In (o, l) (observer_recent_events (fst first)) -> In e l -> fst e = fp1).
  { rewrite E1. apply loop_fingerprints.
    unfold recorded, cleanup_old_events. simpl. rewrite Ho. intros o l e []. }
  assert (Hd2 : is_recent_duplicate fp2 t2 (fst first) = false).
  { unfold is_recent_duplicate.
    destruct (Dict.get fp2 (recent_events (fst first))) as [ts|] eqn:E; [|reflexivity].
    apply get_In, Hrec in E. congruence. }
  rewrite publish_passed by assumption. fold fp2.
  rewrite loop_all_served.
  - simpl. unfold full_delivery.
    rewrite (observers_to_notify_frame _ _ bus (fst first) Fo).
    apply flat_map_ext. intros o. apply calls_for_frame. simpl. exact Fo.
  - apply recipients_NoDup. now rewrite Fo.
  - intros o _. unfold seen_by, observer_has_seen_event. simpl.
    destruct (existsb _ _) eqn:Ex; [|reflexivity].
    apply existsb_exists in Ex. destruct Ex as (e & He & Hfe).
    apply String.eqb_eq in Hfe.
    apply filter_In in He. destruct He as [He _].
    unfold entries in He.
    destruct (Dict.get o (observer_recent_events (fst first))) as [l|] eqn:Eg;
      [|contradiction].
    apply get_In in Eg. specialize (Hobs o l e Eg He). congruence.
Qed.

(** What [publish] calls is registered: every call is a call of a callback
    registered for the observer it is made for, with the text rendered for
    that observer, and the observer is one the recipient rules select. *)
Lemma publish_calls_registered_callbacks etype description ev now bus c :
  In c (snd (EventBus.publish md5 etype description ev now bus)) ->
  In (call_cb c) (entries (call_observer c) (observers bus))
  /\ In (call_observer c)
        (observers_to_notify etype (publish_data etype ev) bus)
  /\ call_text c
     = formatted_description etype (publish_description etype description)
                             (publish_data etype ev) (call_observer c).
Proof.
  destruct (is_recent_duplicate (fingerprint_of md5 etype description ev now) now bus)
    eqn:E.
  - rewrite publish_dropped by assumption. intros [].
  - rewrite publish_passed by assumption. intros Hc.
    apply loop_calls_registered in Hc.
    destruct Hc as [[] | (H1 & H2 & H3)]. auto.
Qed.

End Hash.

(** Nine tenths of a second before six seconds past midnight, and one tenth
    of a second later: the repeat is delivered again. *)
Lemma repeat_with_another_fingerprint_is_delivered_witness :
  let publish_at t b :=
    EventBus.publish (fun s => s) "speech" "Bob says: hi" bob_speaks t b in
  map call_observer (snd (publish_at 5900000 kitchen_bus)) = ["Bob"; "Alice"]
  /\ map call_observer
       (snd (publish_at 6000000 (fst (publish_at 5900000 kitchen_bus))))
     = ["Bob"; "Alice"].
Proof.
  intros publish_at.
  destruct (repeat_with_another_fingerprint_is_delivered
              (fun s => s) "speech" "Bob says: hi" bob_speaks 5900000 6000000
              kitchen_bus eq_refl eq_refl eq_refl) as [H1 H2].
  - vm_compute. discriminate.
  - unfold publish_at. rewrite H1, H2. split; reflexivity.
Defined.

Lemma publish_forgets_expired_events_witness :
  let first := EventBus.publish (fun s => s) "speech" "Bob says: hi" bob_speaks
                                5000000 kitchen_bus in
  let later := EventBus.publish (fun s => s) "emote" "Bob waves" bob_speaks
                                9000000 (fst first) in
  let fp := fingerprint_of (fun s => s) "emote" "Bob waves" bob_speaks 9000000 in
  map snd (recent_events (fst first)) = [5000000]
  /\ recent_events (fst later) = [(fp, 9000000)]
  /\ 9000000 - 9000000 < 3 * second.
Proof.
  intros first later fp. split; [reflexivity|]. split; [reflexivity|].
  apply (publish_forgets_expired_events
           (fun s => s) "emote" "Bob waves" bob_speaks 9000000 (fst first)
           fp 9000000).
  - reflexivity.
  - left. reflexivity.
Defined.

(** ** Leaving the registry of the bus *)

Lemma remove_first_gone c l :
  distinct l = true -> ~ In c (remove_first c l).
Proof.
  induction l as [|x r IH]; simpl; [tauto|].
  rewrite andb_true_iff, negb_true_iff. intros [Hx Hr].
  destruct (Nat.eqb c x) eqn:E.
  - apply Nat.eqb_eq in E. subst x. intros Hin.
    assert (has_callback c r = true); [|congruence].
    unfold has_callback. apply existsb_exists. exists c.
    split; [assumption | apply Nat.eqb_refl].
  - simpl. intros [->|Hin]; [now rewrite Nat.eqb_refl in E | now apply IH].
Qed.

Lemma entries_del {A : Type} k (d : Dict.t (list A)) :
  Dict.wf d = true -> entries k (Dict.del k d) = [].
Proof.
  intros Hwf. unfold entries.
  destruct (Dict.get k (Dict.del k d)) as [l|] eqn:E; [|reflexivity].
  apply get_In in E. exfalso.
  apply (EventDispatcherProperties.del_not_mem k d Hwf).
  apply in_map_iff. now exists (k, l).
Qed.

(** X19.  On a bus whose registry lists each callback once per name: after
    [unregister(name)] no publication calls anything for the name, and after
    [unregister(name, callback)] no publication calls that callback for the
    name. *)
Theorem unregistered_callback_is_not_called md5 name cb etype description ev
        now bus c :
  registry_ok bus = true ->
  (In c (snd (EventBus.publish md5 etype description ev now
                               (unregister name None bus))) ->
   call_observer c <> name)
  /\ (In c (snd (EventBus.publish md5 etype description ev now
                                  (unregister name (Some cb) bus))) ->
      ~ (call_observer c = name /\ call_cb c = cb)).
Proof.
  intros Hok. pose proof (RegistryFacts.entries_distinct name bus Hok) as Hd.
  unfold registry_ok in Hok. apply andb_true_iff in Hok. destruct Hok as [Hwf _].
  split; intros Hc; apply publish_calls_registered_callbacks in Hc;
    destruct Hc as (Hc & _ & _).
  - intros E. rewrite E in Hc. unfold unregister in Hc.
    destruct (Dict.mem name (observers bus)) eqn:Em.
    + simpl in Hc. now rewrite entries_del in Hc.
    + unfold entries, Dict.mem in *.
      destruct (Dict.get name (observers bus)); [discriminate | contradiction].
  - intros [E1 E2]. rewrite E1, E2 in Hc. unfold unregister in Hc.
    destruct (Dict.mem name (observers bus) && _) eqn:Em.
    + simpl in Hc. rewrite entries_set_same in Hc.
      now apply remove_first_gone in Hc.
    + apply andb_false_iff in Em. destruct Em as [Em|Em].
      * unfold entries, Dict.mem in *.
        destruct (Dict.get name (observers bus)); [discriminate | contradiction].
      * assert (has_callback cb (entries name (observers bus)) = true);
          [|congruence].
        unfold has_callback. apply existsb_exists. exists cb.
        split; [assumption | apply Nat.eqb_refl].
Qed.

Lemma unregistered_callback_is_not_called_witness :
  let c := mk_call 2%nat "speech" "Bob says: hi" "Alice" in
  In c (snd (EventBus.publish (fun s => s) "speech" "Bob says: hi" bob_speaks 0
                              kitchen_bus))
  /\ (In c (snd (EventBus.publish (fun s => s) "speech" "Bob says: hi" bob_speaks 0
                                  (unregister "Alice" None kitchen_bus))) ->
      call_observer c <> "Alice")
  /\ (In c (snd (EventBus.publish (fun s => s) "speech" "Bob says: hi" bob_speaks 0
                                  (unregister "Alice" (Some 2%nat) kitchen_bus))) ->
      ~ (call_observer c = "Alice" /\ call_cb c = 2%nat)).
Proof.
  intros c. split; [right; left; reflexivity|].
  apply (unregistered_callback_is_not_called
           (fun s => s) "Alice" 2%nat "speech" "Bob says: hi" bob_speaks 0
           kitchen_bus c).
  reflexivity.
Defined.

End EventBusProperties.

(* ================================================================== *)
(** * The streaming turn handler: thinking, cleaning and the fallback *)
(* ================================================================== *)

Module EventHandlerProperties.
Import PyStr PyStrNotions PyStrFacts WhiteSpaceFacts TextNotions.
Import EventHandler EventHandlerNotions EventHandlerInvariants EventHandlerFacts.

(** ** Text before the closing tag *)

Lemma prefix_app sub a b :
  String.prefix sub a = true -> String.prefix sub (a ++ b) = true.
Proof.
  revert a. induction sub as [|c sub IH]; intros a H.
  - apply prefix_empty.
  - destruct a as [|x a]; [discriminate H|].
    cbn [String.append]. rewrite prefix_cons in *.
    destruct (Ascii.eqb c x); [now apply IH | discriminate].
Qed.

Lemma contains_app_l sub a b :
  contains sub (a ++ b) = false -> contains sub a = false.
Proof.
  induction a as [|x a IH]; cbn [String.append contains].
  - intros H. destruct (String.prefix sub EmptyString) eqn:E; [|reflexivity].
    pose proof (prefix_app sub EmptyString b E) as Hp. simpl in Hp.
    destruct b; cbn [contains] in H; rewrite Hp in H; discriminate.
  - rewrite !orb_false_iff. intros [Hp Hc]. split; [|now apply IH].
    destruct (String.prefix sub (String x a)) eqn:E; [|reflexivity].
    pose proof (prefix_app sub (String x a) b E) as Hp'.
    cbn [String.append] in Hp'. congruence.
Qed.

Lemma partition_none sub s : contains sub s = false -> partition sub s = None.
Proof.
  induction s as [|x s IH]; cbn [contains partition].
  - rewrite orb_false_r. now intros ->.
  - rewrite orb_false_iff. intros [-> Hc]. now rewrite IH.
Qed.

Lemma whole_cons c l : whole (c :: l) = (c ++ whole l)%string.
Proof. reflexivity. Qed.

Lemma chunk_while_thinking h chunk :
  command_detected h = false -> thinking_complete h = false ->
  contains closing_tag (complete_response h ++ chunk) = false ->
  handle_response_chunk chunk h
  = mk (complete_response h ++ chunk) (post_thinking_buffer h) false false
       (detected_command h) (has_early_stopped h) (turn_in_progress h)
       (stop_streaming h) (turn_completed h) (active_minimind h)
       (last_command_reason h) (thought_chain h) (pending h) (effects h).
Proof.
  intros Hc Ht Hn. unfold handle_response_chunk. rewrite Hc, Ht. cbn [negb].
  unfold closing_tag in Hn. now rewrite (partition_none _ _ Hn).
Qed.

Lemma run_cons i l h : run (i :: l) h = run l (step h i).
Proof. reflexivity. Qed.

Lemma chunks_while_thinking chunks : forall h,
  command_detected h = false -> thinking_complete h = false ->
  contains closing_tag (complete_response h ++ whole chunks) = false ->
  let h' := run (map Chunk chunks) h in
  command_detected h' = false /\ thinking_complete h' = false
  /\ has_early_stopped h' = has_early_stopped h
  /\ complete_response h' = (complete_response h ++ whole chunks)%string
  /\ pending h' = pending h /\ effects h' = effects h
  /\ turn_completed h' = turn_completed h
  /\ turn_in_progress h' = turn_in_progress h.
Proof.
  induction chunks as [|c l IH]; intros h Hc Ht Hn.
  - simpl. rewrite append_empty_r. auto 10.
  - rewrite whole_cons, <- append_assoc in Hn.
    pose proof (contains_app_l _ _ _ Hn) as Hn1.
    cbn [map]. rewrite run_cons. cbn [step].
    rewrite (chunk_while_thinking h c Hc Ht Hn1).
    set (h1 := mk _ _ _ _ _ _ _ _ _ _ _ _ _ _).
    destruct (IH h1 eq_refl eq_refl Hn) as (I1 & I2 & I3 & I4 & I5 & I6 & I7 & I8).
    cbv zeta. rewrite I1, I2, I3, I4, I5, I6, I7, I8.
    rewrite whole_cons, <- append_assoc. repeat split.
Qed.

(** X20.  While the text received does not contain the closing tag of the
    thinking block, chunks only accumulate: no command is detected, nothing
    is queued, cancelled, committed or signalled, whatever the chunks
    contain and however they are cut. *)
Theorem nothing_is_committed_while_thinking name chunks :
  contains closing_tag (whole chunks) = false ->
  let h := run (map Chunk chunks) (start name) in
  command_detected h = false
  /\ has_early_stopped h = false
  /\ complete_response h = whole chunks
  /\ pending h = []
  /\ effects h = []
  /\ turn_completed h = false.
Proof.
  intros Hn h.
  destruct (chunks_while_thinking chunks (start name) eq_refl eq_refl Hn)
    as (I1 & I2 & I3 & I4 & I5 & I6 & I7 & I8).
  fold h in I1, I2, I3, I4, I5, I6, I7, I8. auto 10.
Qed.

Lemma nothing_is_committed_while_thinking_witness :
  let h := run [ Chunk ("<think>say hi" ++ line_break);
                 Chunk ("GO TO Kitchen" ++ line_break) ] (start "Bob") in
  command_detected h = false
  /\ has_early_stopped h = false
  /\ complete_response h
     = ("<think>say hi" ++ line_break ++ "GO TO Kitchen" ++ line_break)%string
  /\ pending h = []
  /\ effects h = []
  /\ turn_completed h = false.
Proof.
  apply (nothing_is_committed_while_thinking
           "Bob" [("<think>say hi" ++ line_break)%string;
                  ("GO TO Kitchen" ++ line_break)%string]).
  reflexivity.
Defined.

(** ** The action cleaned from a complete response *)

Lemma verb_not_empty s : starts_with_verb (lower s) = true -> is_empty s = false.
Proof. destruct s; [discriminate | reflexivity]. Qed.

Lemma cleaned_line_not_empty raw c r :
  cleaned_line raw = Some (c, r) -> is_empty c = false.
Proof.
  unfold cleaned_line. cbv zeta.
  destruct (is_empty (strip raw)) eqn:En; [discriminate|].
  destruct (looks_like_formatting marks5 (strip raw)); [discriminate|].
  destruct (contains "|" (strip raw)).
  - destruct (split_reason (strip raw)) as [command reason].
    destruct (starts_with_verb (lower command)) eqn:Ev.
    + intros [= <- _]. now apply verb_not_empty.
    + destruct (starts_with_verb (lower (strip raw))); [|discriminate].
      now intros [= <- _].
  - destruct (starts_with_verb (lower (strip raw))); [|discriminate].
    now intros [= <- _].
Qed.

Lemma first_cleaned_not_empty lines c r :
  first_cleaned lines = Some (c, r) -> is_empty c = false.
Proof.
  induction lines as [|l rest IH]; simpl; [discriminate|].
  destruct (cleaned_line l) as [[c' r']|] eqn:E; [|exact IH].
  intros [= <- <-]. now apply cleaned_line_not_empty in E.
Qed.

Lemma first_plain_not_empty lines line :
  first_plain lines = Some line -> is_empty line = false.
Proof.
  induction lines as [|l rest IH]; simpl; [discriminate|].
  destruct (is_empty (strip l)) eqn:E; simpl; [exact IH|].
  destruct (negb _); [|exact IH]. now intros [= <-].
Qed.

(** X21.  At the end of a stream in which no command was detected, the
    action cleaned from the response is empty exactly when the response has
    nothing but white space outside its thinking blocks. *)
Theorem cleaned_action_is_empty_only_for_blank_text response h :
  truthy (detected_command h) = false ->
  is_empty (fst (clean_llm_response response h))
  = is_empty (strip (remove_think response)).
Proof.
  intros Hd. unfold clean_llm_response. rewrite Hd. cbv zeta.
  set (rc := strip (remove_think response)).
  destruct rc as [|x rc'] eqn:Erc; [reflexivity|].
  destruct (first_cleaned _) as [[c r]|] eqn:E1.
  - cbn [fst]. now apply first_cleaned_not_empty in E1.
  - destruct (first_plain _) as [line|] eqn:E2; [|reflexivity].
    cbn [fst]. now apply first_plain_not_empty in E2.
Qed.

Lemma cleaned_action_is_empty_only_for_blank_text_witness :
  is_empty (fst (clean_llm_response "<think>say nothing</think>  " (start "Bob")))
  = true.
Proof.
  rewrite (cleaned_action_is_empty_only_for_blank_text
             "<think>say nothing</think>  " (start "Bob")); reflexivity.
Defined.

(** ** The fallback patterns of the extraction *)

(** A word without [s], [i] or [k] is matched letter by letter. *)
Lemma word_ci_ordinary w : forall s rest,
  ordinary w = true -> word_ci w s = Some rest ->
  String.prefix (lower w) (lower s) = true.
Proof.
  induction w as [|p w IH]; intros s rest Ho Hm; [apply prefix_empty|].
  cbn [ordinary] in Ho. rewrite !andb_true_iff, !negb_true_iff in Ho.
  destruct Ho as [[[Hs Hi] Hk] Ho].
  destruct s as [|c r]; [discriminate Hm|].
  cbn [word_ci letter_width] in Hm. rewrite Hs, Hi, Hk in Hm. cbn [andb] in Hm.
  destruct (Ascii.eqb (lower_char c) (lower_char p)) eqn:E; [|discriminate Hm].
  cbn [skip] in Hm. cbn [lower]. rewrite prefix_cons, Ascii.eqb_sym, E.
  exact (IH r rest Ho Hm).
Qed.

(** A word that starts with an S is matched from a letter s, or from the
    long s. *)
Lemma word_ci_s w s rest :
  ordinary w = true -> word_ci (String "S" w) s = Some rest ->
  String.prefix (lower (String "S" w)) (lower s) = true
  \/ startswith long_s s = true.
Proof.
  intros Ho Hm. destruct s as [|c r]; [discriminate Hm|].
  cbn [word_ci letter_width] in Hm.
  change (lower_char "S") with "s"%char in Hm.
  change (Ascii.eqb "s" "s") with true in Hm. cbn [andb] in Hm.
  destruct (Ascii.eqb (lower_char c) "s") eqn:E.
  - left. cbn [skip] in Hm. cbn [lower].
    change (lower_char "S") with "s"%char.
    rewrite prefix_cons, Ascii.eqb_sym, E.
    exact (word_ci_ordinary w r rest Ho Hm).
  - right. unfold startswith.
    destruct (String.prefix long_s (String c r)); [reflexivity|].
    discriminate Hm.
Qed.

Lemma match_one_word verb line rest :
  space_width line = 0%nat ->
  match_verb [verb] line = Some rest ->
  exists r, word_ci verb line = Some r.
Proof.
  intros Hw. unfold match_verb. rewrite lstrip_fixed by assumption.
  destruct (word_ci verb line) as [r|]; [eauto | discriminate].
Qed.

(** The patterns of NOTE and RECALL match lines that start with the verb
    already; those of SAY and SHOUT match such lines and lines that start
    with the long s. *)
Lemma plain_patterns_never_decide verb line rest :
  In verb ["NOTE"; "RECALL"] ->
  space_width line = 0%nat ->
  match_verb [verb] line = Some rest ->
  starts_with_verb (lower line) = true.
Proof.
  intros Hv Hw Hm. destruct (match_one_word verb line rest Hw Hm) as [r Hr].
  unfold starts_with_verb, verbs, startswith. cbn [existsb].
  destruct Hv as [<-|[<-|[]]];
    apply word_ci_ordinary in Hr; try reflexivity;
    [ change (lower "NOTE") with "note" in Hr
    | change (lower "RECALL") with "recall" in Hr ];
    rewrite Hr, ?orb_true_r; reflexivity.
Qed.

Lemma s_patterns_decide_on_long_s verb line rest :
  In verb ["SAY"; "SHOUT"] ->
  space_width line = 0%nat ->
  match_verb [verb] line = Some rest ->
  starts_with_verb (lower line) = true \/ startswith long_s line = true.
Proof.
  intros Hv Hw Hm. destruct (match_one_word verb line rest Hw Hm) as [r Hr].
  unfold starts_with_verb, verbs, startswith. cbn [existsb].
  destruct Hv as [<-|[<-|[]]];
    apply word_ci_s in Hr; try reflexivity;
    (destruct Hr as [Hr|Hr]; [left | right; exact Hr]);
    [ change (lower "SAY") with "say" in Hr
    | change (lower "SHOUT") with "shout" in Hr ];
    rewrite Hr, ?orb_true_r; reflexivity.
Qed.

(** X22.  When a complete line yields a command although, trimmed and in
    lower case, it does not start with one of the verbs of the list, the
    command was rebuilt by one of the patterns and no reason is stored.
    Either the pattern for GO TO matched, and the command is [go to] and
    the trimmed rest of the line; or the line starts with the long s
    (U+017F), which [re.IGNORECASE] takes for an S, the pattern for SAY or
    for SHOUT matched, and the command is [say] or [shout] and the trimmed
    rest.  The patterns for NOTE and RECALL never decide: a line they match
    starts with the verb already. *)
Theorem fallback_patterns_that_decide raw command reason :
  starts_with_verb (lower (strip raw)) = false ->
  line_command raw = Some (command, reason) ->
  reason = None
  /\ exists rest,
       match_verb ["GO"; "TO"] (strip raw) = Some rest
       /\ command = ("go to " ++ strip rest)%string
       \/ startswith long_s (strip raw) = true
          /\ match_verb ["SAY"] (strip raw) = Some rest
          /\ command = ("say " ++ strip rest)%string
       \/ startswith long_s (strip raw) = true
          /\ match_verb ["SHOUT"] (strip raw) = Some rest
          /\ command = ("shout " ++ strip rest)%string.
Proof.
  intros Hv. unfold line_command. cbv zeta. rewrite Hv.
  destruct (is_empty (strip raw)) eqn:En; [discriminate|].
  destruct (looks_like_formatting marks5 (strip raw)); [discriminate|].
  pose proof (space_width_strip raw) as Hw.
  assert (Hplain : forall verb, In verb ["NOTE"; "RECALL"] ->
                                match_verb [verb] (strip raw) = None).
  { intros verb Hin. destruct (match_verb [verb] (strip raw)) as [rest|] eqn:E;
      [|reflexivity].
    pose proof (plain_patterns_never_decide verb (strip raw) rest Hin Hw E).
    congruence. }
  assert (Hs : forall verb rest, In verb ["SAY"; "SHOUT"] ->
                                 match_verb [verb] (strip raw) = Some rest ->
                                 startswith long_s (strip raw) = true).
  { intros verb rest Hin E.
    destruct (s_patterns_decide_on_long_s verb (strip raw) rest Hin Hw E);
      [congruence | assumption]. }
  unfold command_prefixes. cbn [match_prefixes].
  destruct (match_verb ["GO"; "TO"] (strip raw)) as [rest|] eqn:Ego.
  { replace (String.eqb "go to" "note") with false by reflexivity.
    cbn [andb]. intros [= <- <-]. split; [reflexivity|]. exists rest. now left. }
  destruct (match_verb ["SAY"] (strip raw)) as [rest|] eqn:Esay.
  { replace (String.eqb "say" "note") with false by reflexivity.
    cbn [andb]. intros [= <- <-]. split; [reflexivity|]. exists rest.
    right. left. repeat split. apply (Hs "SAY" rest); simpl; auto. }
  destruct (match_verb ["SHOUT"] (strip raw)) as [rest|] eqn:Eshout.
  { replace (String.eqb "shout" "note") with false by reflexivity.
    cbn [andb]. intros [= <- <-]. split; [reflexivity|]. exists rest.
    right. right. repeat split. apply (Hs "SHOUT" rest); simpl; auto. }
  rewrite !Hplain by (simpl; auto). discriminate.
Qed.

Lemma fallback_patterns_that_decide_witness :
  line_command (long_s ++ "ay hello") = Some ("say hello", None)
  /\ @None string = None
  /\ exists rest,
       match_verb ["GO"; "TO"] (strip (long_s ++ "ay hello")) = Some rest
       /\ "say hello" = ("go to " ++ strip rest)%string
       \/ startswith long_s (strip (long_s ++ "ay hello")) = true
          /\ match_verb ["SAY"] (strip (long_s ++ "ay hello")) = Some rest
          /\ "say hello" = ("say " ++ strip rest)%string
       \/ startswith long_s (strip (long_s ++ "ay hello")) = true
          /\ match_verb ["SHOUT"] (strip (long_s ++ "ay hello")) = Some rest
          /\ "say hello" = ("shout " ++ strip rest)%string.
Proof.
  split; [reflexivity|].
  apply (fallback_patterns_that_decide (long_s ++ "ay hello") "say hello" None);
    reflexivity.
Defined.

(** ** A stream ended by its completion *)

Lemma stream_ended_by_completion_resolves_once_witness :
  let h := run (three_chunks ++ [Complete "ignored"; Timer; Timer]) (start "Bob") in
  resolutions (effects h) = 1%nat
  /\ List.length (commits (effects h)) = 1%nat
  /\ turn_completed h = true.
Proof.
  apply (stream_ended_by_completion_resolves_once "Bob" three_chunks "ignored").
  repeat constructor.
Defined.

End EventHandlerProperties.

(* ================================================================== *)
(** * The world: who hears what is said *)
(* ================================================================== *)

Module WorldFacts.
Import Event World WorldNotions DictFacts.
Import EventDispatcherFacts EventDispatcherProperties EventHandlerProperties.

(** ** Text inside a longer text *)

Lemma contains_empty s : PyStr.contains EmptyString s = true.
Proof. destruct s; reflexivity. Qed.

Lemma prefix_of_empty sub :
  String.prefix sub EmptyString = true -> sub = EmptyString.
Proof. destruct sub; [reflexivity | discriminate]. Qed.

Lemma contains_app_left sub a b :
  PyStr.contains sub a = true -> PyStr.contains sub (a ++ b) = true.
Proof.
  induction a as [|x a IH]; cbn [String.append PyStr.contains].
  - rewrite orb_false_r. intros H. apply prefix_of_empty in H. subst sub.
    apply contains_empty.
  - rewrite !orb_true_iff. intros [H|H].
    + left. apply (prefix_app sub (String x a) b H).
    + right. now apply IH.
Qed.

Lemma contains_app_right sub a b :
  PyStr.contains sub b = true -> PyStr.contains sub (a ++ b) = true.
Proof.
  intros H. induction a as [|x a IH]; [exact H|].
  cbn [String.append PyStr.contains]. rewrite IH. apply orb_true_r.
Qed.

Lemma contains_says sub actor message :
  PyStr.contains sub message = true ->
  PyStr.contains sub (says actor message) = true.
Proof.
  intros H. unfold says, EventDispatcher.quoted.
  do 2 apply contains_app_right. apply contains_app_right.
  now apply contains_app_left.
Qed.

(** ** Where the routers take a character to be *)

Lemma find_app {A : Type} (p : A -> bool) a b :
  find p (a ++ b) = match find p a with Some x => Some x | None => find p b end.
Proof.
  induction a as [|x a IH]; [reflexivity|].
  simpl. destruct (p x); [reflexivity | exact IH].
Qed.

Lemma get_after_listing who (location : string) l : forall acc : Dict.t string,
  Dict.get who (fold_left (fun acc character => Dict.set character location acc) l acc)
  = if existsb (String.eqb who) l then Some location else Dict.get who acc.
Proof.
  induction l as [|c l IH]; intros acc; [reflexivity|].
  cbn [fold_left existsb]. rewrite IH.
  destruct (existsb (String.eqb who) l); [now rewrite orb_true_r|].
  rewrite orb_false_r. destruct (String.eqb who c) eqn:E.
  - apply String.eqb_eq in E. subst c. apply get_set_same.
  - apply String.eqb_neq in E. now apply get_set_other.
Qed.

Lemma get_after_locations who (ls : Dict.t place) : forall acc : Dict.t string,
  Dict.get who
    (fold_left
       (fun acc kv =>
          fold_left (fun acc character => Dict.set character (fst kv) acc)
                    (characters (snd kv)) acc)
       ls acc)
  = match find (fun kv => existsb (String.eqb who) (characters (snd kv))) (rev ls) with
    | Some (location, _) => Some location
    | None => Dict.get who acc
    end.
Proof.
  induction ls as [|[l p] ls IH]; intros acc; [reflexivity|].
  cbn [fold_left rev]. rewrite IH, find_app.
  destruct (find _ (rev ls)) as [[l' p']|]; [reflexivity|].
  cbn [find fst snd]. rewrite get_after_listing.
  now destruct (existsb (String.eqb who) (characters p)).
Qed.

Lemma listed_once who w :
  placed_once w ->
  get_character_location who (backwards w) = get_character_location who w.
Proof.
  intros [_ Hp]. unfold get_character_location, backwards. cbn [locations].
  set (P := fun kv : string * place => existsb (String.eqb who) (characters (snd kv))).
  destruct (find P (rev (locations w))) as [[l1 p1]|] eqn:E1;
    destruct (find P (locations w)) as [[l2 p2]|] eqn:E2; try reflexivity.
  - apply find_some in E1, E2. destruct E1 as [I1 Q1], E2 as [I2 Q2].
    apply in_rev in I1. unfold P in Q1, Q2. simpl in Q1, Q2.
    apply existsb_eqb_In in Q1, Q2. f_equal. eauto.
  - apply find_some in E1. destruct E1 as [I1 Q1]. apply in_rev in I1.
    pose proof (find_none _ _ E2 _ I1). congruence.
  - apply find_some in E2. destruct E2 as [I2 Q2].
    rewrite in_rev in I2. pose proof (find_none _ _ E1 _ I2). congruence.
Qed.

(** X24.  An event takes every character to be in the location under which
    it is listed last, and a command in the one under which it is listed
    first: [observer_locations] read at a character is
    [get_character_location] on the locations taken backwards.  The two
    agree when nobody is listed under two locations. *)
Theorem events_place_a_character_where_it_is_listed_last who w :
  Dict.get who (observer_locations w) = get_character_location who (backwards w)
  /\ (placed_once w ->
      Dict.get who (observer_locations w) = get_character_location who w).
Proof.
  assert (E : Dict.get who (observer_locations w)
              = get_character_location who (backwards w)).
  { unfold observer_locations. rewrite get_after_locations. reflexivity. }
  split; [exact E|]. intros H. rewrite E. now apply listed_once.
Qed.

(** ** Saying *)

Lemma say_calls actor message w d loc :
  get_character_location actor w = Some loc -> PyStr.is_empty loc = false ->
  handle_say_command actor message w d
  = (mk_reply true ("You say: " ++ EventDispatcher.quoted message),
     EventDispatcher.dispatch_event
       "speech"
       (mk_data (Some actor) (Some loc) (Some message) (Some (says actor message))
                None None (observer_locations w) None None None None) d).
Proof.
  intros Hl Hn. unfold handle_say_command. rewrite Hl. cbn [nowhere]. rewrite Hn.
  reflexivity.
Qed.

Lemma emote_calls actor action w d loc :
  get_character_location actor w = Some loc -> PyStr.is_empty loc = false ->
  handle_emote_command actor action w d
  = (mk_reply true (actor ++ " " ++ action),
     EventDispatcher.dispatch_event
       "emote"
       (mk_data (Some actor) (Some loc) None (Some (actor ++ " " ++ action)%string)
                None None (observer_locations w) (Some action) None None None) d).
Proof.
  intros Hl Hn. unfold handle_emote_command. rewrite Hl. cbn [nowhere]. rewrite Hn.
  reflexivity.
Qed.

(** An error of one of the three types whose actor is passed over reaches
    nobody. *)
Lemma error_of_the_actor_is_lost etype ev d :
  In etype ["speech"; "shout"; "emote"] ->
  EventDispatcher.is_error ev = true ->
  EventDispatcher.dispatch_event etype ev d = [].
Proof.
  intros Ht He. unfold EventDispatcher.dispatch_event,
    EventDispatcher.observers_to_notify. rewrite He.
  destruct (Dict.mem _ (EventDispatcher.observers d)); [|reflexivity].
  cbn [flat_map]. unfold EventDispatcher.notify_one. rewrite String.eqb_refl.
  simpl in Ht. destruct Ht as [<-|[<-|[<-|[]]]]; reflexivity.
Qed.

(** X25.  What is said or acted out is lost when its words read as a
    failure: a SAY whose message, or an EMOTE whose action, contains
    [Failed:] or the warning sign calls no callback at all, of nobody in the
    room and not of the actor, while the command reports success. *)
Theorem words_that_read_as_a_failure_are_lost actor words w d :
  PyStr.contains "Failed:" words = true
  \/ PyStr.contains warning_sign words = true ->
  snd (handle_say_command actor words w d) = []
  /\ snd (handle_emote_command actor words w d) = []
  /\ (nowhere (get_character_location actor w) = false ->
      success (fst (handle_say_command actor words w d)) = true
      /\ success (fst (handle_emote_command actor words w d)) = true).
Proof.
  intros Hw.
  destruct (nowhere (get_character_location actor w)) eqn:En.
  { unfold handle_say_command, handle_emote_command. rewrite En.
    repeat split; discriminate. }
  destruct (get_character_location actor w) as [loc|] eqn:El; [|discriminate].
  cbn [nowhere] in En.
  rewrite (say_calls actor words w d loc El En),
    (emote_calls actor words w d loc El En). cbn [fst snd success].
  split; [|split; [|auto]]; apply error_of_the_actor_is_lost;
    try (simpl; tauto);
    unfold EventDispatcher.is_error; cbn [Event.description or_default].
  - destruct Hw as [H|H]; rewrite (contains_says _ actor words H);
      [apply orb_true_r | reflexivity].
  - destruct Hw as [H|H];
      rewrite (contains_app_right _ actor _ (contains_app_right _ " " _ H));
      [apply orb_true_r | reflexivity].
Qed.

Lemma words_that_read_as_a_failure_are_lost_witness :
  snd (handle_say_command "Bob" "Failed: the oven" two_rooms
                          EventDispatcherNotions.kitchen_registry) = []
  /\ success (fst (handle_say_command "Bob" "Failed: the oven" two_rooms
                                      EventDispatcherNotions.kitchen_registry))
     = true.
Proof.
  destruct (words_that_read_as_a_failure_are_lost
              "Bob" "Failed: the oven" two_rooms
              EventDispatcherNotions.kitchen_registry (or_introl eq_refl))
    as (H1 & _ & H3).
  split; [exact H1 | now apply H3].
Defined.

(** The calls of a SAY that reads as no failure. *)
Lemma say_listeners actor message w d loc :
  get_character_location actor w = Some loc ->
  PyStr.is_empty loc = false ->
  PyStr.contains warning_sign (says actor message) = false ->
  PyStr.contains "Failed:" (says actor message) = false ->
  PyStr.contains "You say:" message = false ->
  let calls := snd (handle_say_command actor message w d) in
  map call_observer calls
  = filter (fun o => negb (String.eqb o actor))
           (filter (fun o => opt_eqb (Dict.get o (observer_locations w)) (Some loc))
                   (Dict.keys (EventDispatcher.observers d)))
  /\ (forall c, In c calls ->
        call_text c = says actor message
        /\ call_type c = "speech"
        /\ Dict.get (call_observer c) (EventDispatcher.observers d)
           = Some (call_cb c)).
Proof.
  intros Hl Hn Hw Hf Hy calls. unfold calls.
  rewrite (say_calls actor message w d loc Hl Hn). cbn [fst snd].
  set (ev := mk_data _ _ _ _ _ _ _ _ _ _ _).
  assert (He : EventDispatcher.is_error ev = false).
  { unfold EventDispatcher.is_error, ev. cbn [Event.description or_default].
    now rewrite Hw, Hf. }
  assert (Hwm : PyStr.contains warning_sign message = false).
  { destruct (PyStr.contains warning_sign message) eqn:E; [|reflexivity].
    rewrite (contains_says _ actor message E) in Hw. discriminate. }
  assert (Eo : EventDispatcher.observers_to_notify "speech" ev d
               = filter (fun o => opt_eqb (Dict.get o (observer_locations w))
                                          (Some loc))
                        (Dict.keys (EventDispatcher.observers d))).
  { unfold EventDispatcher.observers_to_notify. rewrite He. reflexivity. }
  split.
  - unfold EventDispatcher.dispatch_event. rewrite Eo.
    apply (bystander_calls "speech" ev d); try assumption.
    + simpl. auto.
    + intros o Ho. apply filter_In in Ho. tauto.
  - intros c Hc. apply dispatch_event_call in Hc. destruct Hc as [_ Hc].
    apply notify_one_call in Hc. destruct Hc as (_ & Ht & Htext & _ & Hg & Hs).
    split; [|auto].
    rewrite Htext. cbn in Hs. rewrite andb_true_r in Hs.
    unfold EventDispatcher._format_for_observer.
    cbn [Event.actor Event.message or_default ev].
    rewrite Hwm, Hy, Hs. reflexivity.
Qed.

(** X26.  A SAY by a character that is somewhere, whose line as told to
    others reads as no failure and whose message does not contain
    [You say:], calls the callback of every registered observer that the
    event takes to be in the speaker's location, the speaker left out, each
    once and in the order of registration, with the line
    [actor says: "message"]; the speaker is answered [You say: "message"]. *)
Theorem speech_is_heard_in_the_room actor message w d loc :
  get_character_location actor w = Some loc ->
  PyStr.is_empty loc = false ->
  PyStr.contains warning_sign (says actor message) = false ->
  PyStr.contains "Failed:" (says actor message) = false ->
  PyStr.contains "You say:" message = false ->
  let calls := snd (handle_say_command actor message w d) in
  map call_observer calls
  = filter (fun o => negb (String.eqb o actor))
           (filter (fun o => opt_eqb (Dict.get o (observer_locations w)) (Some loc))
                   (Dict.keys (EventDispatcher.observers d)))
  /\ (forall c, In c calls ->
        call_text c = says actor message
        /\ call_type c = "speech"
        /\ Dict.get (call_observer c) (EventDispatcher.observers d)
           = Some (call_cb c))
  /\ fst (handle_say_command actor message w d)
     = mk_reply true ("You say: " ++ EventDispatcher.quoted message).
Proof.
  intros Hl Hn Hw Hf Hy calls.
  destruct (say_listeners actor message w d loc Hl Hn Hw Hf Hy) as [H1 H2].
  split; [exact H1|]. split; [exact H2|].
  now rewrite (say_calls actor message w d loc Hl Hn).
Qed.

Lemma speech_is_heard_in_the_room_witness :
  map call_observer
      (snd (handle_say_command "Bob" "hello" two_rooms
                               EventDispatcherNotions.kitchen_registry))
  = ["Alice"]
  /\ fst (handle_say_command "Bob" "hello" two_rooms
                             EventDispatcherNotions.kitchen_registry)
     = mk_reply true ("You say: " ++ EventDispatcher.quoted "hello").
Proof.
  destruct (speech_is_heard_in_the_room
              "Bob" "hello" two_rooms EventDispatcherNotions.kitchen_registry
              "Kitchen" eq_refl eq_refl eq_refl eq_refl eq_refl) as (H1 & _ & H3).
  split; [rewrite H1; reflexivity | exact H3].
Defined.

Lemma events_place_a_character_where_it_is_listed_last_witness :
  Dict.get "Bob" (observer_locations bob_twice) = Some "Garden"
  /\ get_character_location "Bob" bob_twice = Some "Kitchen"
  /\ Dict.get "Bob" (observer_locations two_rooms)
     = get_character_location "Bob" two_rooms.
Proof.
  destruct (events_place_a_character_where_it_is_listed_last "Bob" bob_twice)
    as [H1 _].
  destruct (events_place_a_character_where_it_is_listed_last "Bob" two_rooms)
    as [_ H2].
  split; [rewrite H1; reflexivity|]. split; [reflexivity|].
  apply H2. split; [reflexivity|].
  intros l1 p1 l2 p2 c I1 I2 C1 C2. simpl in I1, I2.
  destruct I1 as [[= <- <-]|[[= <- <-]|[]]];
    destruct I2 as [[= <- <-]|[[= <- <-]|[]]]; try reflexivity; simpl in C1, C2;
    intuition congruence.
Defined.

End WorldFacts.

(* ================================================================== *)
(** * From a speech to the counts of new memories *)
(* ================================================================== *)

Module CommandProcessorFacts.
Import Event World CommandProcessor CommandProcessorNotions DictFacts.
Import TurnManagerFacts EventDispatcherProperties WorldFacts.

(** ** The registry of the observers *)

Lemma In_keys_set {V : Type} k k' (v : V) d :
  In k (Dict.keys (Dict.set k' v d)) <-> k = k' \/ In k (Dict.keys d).
Proof.
  destruct (Dict.mem k' d) eqn:E.
  - rewrite keys_set_mem by assumption. apply mem_In in E.
    split; [auto | intros [->|H]; assumption].
  - rewrite keys_set_new by assumption. rewrite in_app_iff. simpl.
    split; [intros [H|[H|[]]]; auto | intros [->|H]; auto].
Qed.

Lemma registered_names l : forall d k,
  In k (Dict.keys (EventDispatcher.observers
                     (fold_left (fun d ic => EventDispatcher.register (snd ic) (fst ic) d)
                                l d)))
  <-> In k (Dict.keys (EventDispatcher.observers d)) \/ In k (map snd l).
Proof.
  induction l as [|[i n] l IH]; intros d k; cbn [fold_left map snd fst].
  - simpl. tauto.
  - rewrite IH. unfold EventDispatcher.register at 1. cbn [EventDispatcher.observers].
    rewrite In_keys_set. simpl. split; intros H; intuition auto.
Qed.

Lemma registered_wf l : forall d,
  Dict.wf (EventDispatcher.observers d) = true ->
  Dict.wf (EventDispatcher.observers
             (fold_left (fun d ic => EventDispatcher.register (snd ic) (fst ic) d)
                        l d)) = true.
Proof.
  induction l as [|[i n] l IH]; intros d H; [exact H|].
  cbn [fold_left]. apply IH. now apply EventDispatcherFacts.register_wf.
Qed.

Lemma snd_combine_seq {A : Type} (l : list A) : forall n,
  map snd (combine (seq n (List.length l)) l) = l.
Proof.
  induction l as [|x l IH]; intros n; [reflexivity|].
  simpl. now rewrite IH.
Qed.

Lemma observers_of_the_gui g k :
  In k (Dict.keys (EventDispatcher.observers
                     (register_minimind_observers g EventDispatcher.init)))
  <-> k = player g \/ In k (Dict.keys (miniminds g)).
Proof.
  unfold register_minimind_observers. cbv zeta.
  rewrite registered_names, snd_combine_seq. simpl.
  split; [intros [[]|[H|H]]; auto | intros [H|H]; auto].
Qed.

(** ** What one callback does for a speech *)

Lemma callback_of_a_listener g w o text ev actor message origin_location :
  Event.actor ev = Some actor -> Event.message ev = Some message ->
  o <> actor ->
  PyStr.contains warning_sign text = false ->
  PyStr.contains "You say:" text = false ->
  snd (world_event_callback g w o "speech" text ev (Some o) origin_location) = false
  /\ increments (fst (world_event_callback g w o "speech" text ev (Some o)
                                           origin_location))
     = if negb (String.eqb o (player g)) && Dict.mem o (miniminds g)
       then [o] else [].
Proof.
  intros Ha Hm Ho Hw Hy. unfold world_event_callback.
  rewrite Ha, Hw, Hy. cbn [or_default andb].
  assert (E : String.eqb actor o = false)
    by (apply String.eqb_neq; congruence).
  rewrite E. cbn [negb].
  destruct (String.eqb o (player g)).
  - unfold _create_player_memory. cbn. rewrite Hm. cbn [fst snd].
    split; [reflexivity|]. unfold add_player_view.
    destruct (PyStr.is_empty text); reflexivity.
  - cbn [negb andb]. unfold Dict.mem.
    destruct (Dict.get o (miniminds g)); [|split; reflexivity].
    unfold _create_minimind_memory. cbn. rewrite Hm. split; reflexivity.
Qed.

Lemma increments_app a b : increments (a ++ b) = increments a ++ increments b.
Proof.
  induction a as [|[ | | | ] a IH]; simpl; rewrite ?IH; reflexivity.
Qed.

Lemma increments_of_speech g w ev actor message origin_location text calls :
  Event.actor ev = Some actor -> Event.message ev = Some message ->
  PyStr.contains warning_sign text = false ->
  PyStr.contains "You say:" text = false ->
  (forall c, In c calls ->
             call_type c = "speech" /\ call_text c = text /\ call_observer c <> actor) ->
  increments (run_callbacks g w ev origin_location calls)
  = filter (fun o => negb (String.eqb o (player g)) && Dict.mem o (miniminds g))
           (map call_observer calls).
Proof.
  intros Ha Hm Hw Hy. induction calls as [|c calls IH]; intros Hc; [reflexivity|].
  cbn [run_callbacks map filter].
  destruct (Hc c (or_introl eq_refl)) as (Ht & Hx & Ho). rewrite Ht, Hx.
  destruct (callback_of_a_listener g w (call_observer c) text ev actor message
                                   origin_location Ha Hm Ho Hw Hy) as [Hr Hi].
  destruct (world_event_callback _ _ _ _ _ _ _ _) as [effects raised].
  cbn [fst snd] in Hr, Hi. subst raised.
  rewrite increments_app, Hi, IH by (intros; apply Hc; now right).
  now destruct (negb _ && _).
Qed.

(** ** The counts after the increments *)

Lemma settle_increments effects : forall tm,
  settle effects tm
  = fold_left (fun tm c => TurnManager.increment_memory_count c 1 tm)
              (increments effects) tm.
Proof.
  unfold settle. induction effects as [|[ | | | ] r IH]; intros tm; simpl;
    rewrite ?IH; reflexivity.
Qed.

Lemma increment_count c k tm :
  TurnManager.item k
    (TurnManager.new_memories_count (TurnManager.increment_memory_count c 1 tm))
  = TurnManager.item k (TurnManager.new_memories_count tm)
    + (if String.eqb k c && Dict.mem k (TurnManager.new_memories_count tm)
       then 1 else 0).
Proof.
  unfold TurnManager.increment_memory_count, Dict.mem.
  destruct (String.eqb k c) eqn:E.
  - apply String.eqb_eq in E. subst c.
    destruct (Dict.get k (TurnManager.new_memories_count tm)) as [v|] eqn:Eg.
    + cbn. rewrite item_set_same. now rewrite (item_get _ _ _ Eg).
    + cbn. lia.
  - apply String.eqb_neq in E. cbn [andb].
    destruct (Dict.get c (TurnManager.new_memories_count tm)) as [v|]; [|lia].
    cbn. rewrite item_set_other by assumption. lia.
Qed.

Lemma increment_frame c tm :
  TurnManager.time_units (TurnManager.increment_memory_count c 1 tm)
  = TurnManager.time_units tm
  /\ Dict.keys (TurnManager.new_memories_count
                  (TurnManager.increment_memory_count c 1 tm))
     = Dict.keys (TurnManager.new_memories_count tm).
Proof.
  unfold TurnManager.increment_memory_count.
  destruct (Dict.get c (TurnManager.new_memories_count tm)) as [v|] eqn:E;
    [|split; reflexivity].
  cbn. split; [reflexivity|]. apply keys_set_mem. unfold Dict.mem. now rewrite E.
Qed.

Lemma counts_after names : forall tm k,
  NoDup names ->
  let tm' := fold_left (fun tm c => TurnManager.increment_memory_count c 1 tm)
                       names tm in
  TurnManager.item k (TurnManager.new_memories_count tm')
  = TurnManager.item k (TurnManager.new_memories_count tm)
    + (if existsb (String.eqb k) names
          && Dict.mem k (TurnManager.new_memories_count tm)
       then 1 else 0)
  /\ TurnManager.time_units tm' = TurnManager.time_units tm.
Proof.
  induction names as [|c names IH]; intros tm k Hnd; cbn [fold_left existsb].
  - split; [simpl; lia | reflexivity].
  - inversion Hnd as [|? ? Hc Hn]; subst.
    destruct (IH (TurnManager.increment_memory_count c 1 tm) k Hn) as [I1 I2].
    cbv zeta in *. destruct (increment_frame c tm) as [F1 F2].
    rewrite I1, I2, F1, increment_count.
    rewrite (mem_keys k (TurnManager.new_memories_count
                           (TurnManager.increment_memory_count c 1 tm))
                      (TurnManager.new_memories_count tm) F2).
    split; [|reflexivity].
    destruct (String.eqb k c) eqn:E; cbn [orb andb]; [|lia].
    apply String.eqb_eq in E. subst c.
    replace (existsb (String.eqb k) names) with false.
    + cbn [andb]. lia.
    + symmetry. destruct (existsb (String.eqb k) names) eqn:Ex; [|reflexivity].
      apply existsb_eqb_In in Ex. contradiction.
Qed.

(** X27.  From a speech to the scheduler.  When a character that is
    somewhere says a line that reads as no failure and does not contain
    [You say:], and the observers are the ones [register_minimind_observers]
    registers, then after the callbacks have run the count of new memories
    is one higher for every minimind that hears it (registered with the
    scheduler, taken by the event to be in the speaker's location, neither
    the speaker nor the player) and as before for everybody else; the
    time-unit counters are as before. *)
Theorem a_speech_is_one_new_memory_for_each_listener g w tm actor message loc :
  get_character_location actor w = Some loc ->
  PyStr.is_empty loc = false ->
  PyStr.contains warning_sign (says actor message) = false ->
  PyStr.contains "Failed:" (says actor message) = false ->
  PyStr.contains "You say:" (says actor message) = false ->
  let d := register_minimind_observers g EventDispatcher.init in
  let calls := snd (handle_say_command actor message w d) in
  let ev := event_for loc (says actor message) (say_data actor message loc) w in
  let tm' := settle (run_callbacks g w ev None calls) tm in
  (forall k,
     TurnManager.item k (TurnManager.new_memories_count tm')
     = TurnManager.item k (TurnManager.new_memories_count tm)
       + (if hears g w tm actor loc k then 1 else 0))
  /\ TurnManager.time_units tm' = TurnManager.time_units tm.
Proof.
  intros Hl Hn Hw Hf Hy d calls ev tm'.
  assert (Hym : PyStr.contains "You say:" message = false).
  { destruct (PyStr.contains "You say:" message) eqn:E; [|reflexivity].
    rewrite (contains_says _ actor message E) in Hy. discriminate. }
  destruct (say_listeners actor message w d loc Hl Hn Hw Hf Hym) as [HL Hcalls].
  fold calls in HL, Hcalls.
  assert (Hwf : Dict.wf (EventDispatcher.observers d) = true)
    by (apply registered_wf; reflexivity).
  assert (Hnd : NoDup (map call_observer calls)).
  { rewrite HL. apply NoDup_filter, NoDup_filter. now apply uniq_NoDup. }
  assert (Hinc : increments (run_callbacks g w ev None calls)
                 = filter (fun o => negb (String.eqb o (player g))
                                    && Dict.mem o (miniminds g))
                          (map call_observer calls)).
  { apply (increments_of_speech g w ev actor message None (says actor message));
      try assumption; try reflexivity.
    intros c Hc. destruct (Hcalls c Hc) as (H1 & H2 & _).
    repeat split; try assumption.
    assert (Hin : In (call_observer c) (map call_observer calls))
      by (apply in_map_iff; eauto).
    rewrite HL in Hin. apply filter_In in Hin. destruct Hin as [_ Hin].
    apply negb_true_iff, String.eqb_neq in Hin. exact Hin. }
  unfold tm'. rewrite settle_increments, Hinc.
  set (names := filter _ (map call_observer calls)).
  assert (Hnn : NoDup names) by (apply NoDup_filter; exact Hnd).
  split; [|apply (counts_after names tm EmptyString Hnn)].
  intros k. destruct (counts_after names tm k Hnn) as [Hk _]. cbv zeta in Hk.
  rewrite Hk. f_equal.
  assert (E : existsb (String.eqb k) names
              = Dict.mem k (miniminds g) && negb (String.eqb k (player g))
                && negb (String.eqb k actor)
                && opt_eqb (Dict.get k (observer_locations w)) (Some loc)).
  { destruct (existsb (String.eqb k) names) eqn:Ex.
    - apply existsb_eqb_In in Ex. unfold names in Ex.
      apply filter_In in Ex. destruct Ex as [Ex Hp].
      rewrite HL in Ex. apply filter_In in Ex. destruct Ex as [Ex Ha].
      apply filter_In in Ex. destruct Ex as [_ Hloc].
      apply andb_true_iff in Hp. destruct Hp as [Hp Hm].
      now rewrite Hm, Hp, Ha, Hloc.
    - destruct (Dict.mem k (miniminds g)) eqn:Em; [|reflexivity].
      destruct (negb (String.eqb k (player g))) eqn:Ep; [|reflexivity].
      destruct (negb (String.eqb k actor)) eqn:Ea; [|reflexivity].
      destruct (opt_eqb (Dict.get k (observer_locations w)) (Some loc)) eqn:Eloc;
        [|reflexivity].
      assert (Hin : In k names); [|apply existsb_eqb_In in Hin; congruence].
      unfold names. apply filter_In. split; [|now rewrite Ep, Em].
      rewrite HL. apply filter_In. split; [|exact Ea].
      apply filter_In. split; [|exact Eloc].
      apply observers_of_the_gui. right. now apply mem_In. }
  rewrite E. unfold hears. reflexivity.
Qed.

Lemma a_speech_is_one_new_memory_for_each_listener_witness :
  let d := register_minimind_observers household EventDispatcher.init in
  let calls := snd (handle_say_command "Bob" "hello" home d) in
  let ev := event_for "Kitchen" (says "Bob" "hello")
                      (say_data "Bob" "hello" "Kitchen") home in
  let tm' := settle (run_callbacks household home ev None calls) four_registered in
  map call_observer calls = ["Tom"; "Alice"]
  /\ TurnManager.item "Alice" (TurnManager.new_memories_count tm') = 1
  /\ TurnManager.item "Tom" (TurnManager.new_memories_count tm') = 0
  /\ TurnManager.item "Bob" (TurnManager.new_memories_count tm') = 0
  /\ TurnManager.item "Carol" (TurnManager.new_memories_count tm') = 0.
Proof.
  intros d calls ev tm'.
  destruct (a_speech_is_one_new_memory_for_each_listener
              household home four_registered "Bob" "hello" "Kitchen"
              eq_refl eq_refl eq_refl eq_refl eq_refl) as [H _].
  fold d calls ev tm' in H.
  split; [reflexivity|]. rewrite !H. repeat split.
Defined.

End CommandProcessorFacts.
